(** * GCChecker: the rooting and safepoint analysis of src/clangsa/GCChecker.cpp

    A shallow embedding of the checker's callbacks as functions on the
    analyzer's program state: function entry and exit, pre-call, post-call
    (argument rooting, the safepoint effect, the state of the result),
    evalCall (the root frame operations), bind and location access. Each
    callback yields the transition it adds, if any, and the reports it asks
    for; a callback that would dereference a null pointer or an empty
    optional yields [None]. The callbacks after casts, subscripts, member
    accesses and dereferences ([checkDerivingExpr]) and the path visitors
    that explain a report are not part of this development.

    The analyzer itself (the AST, symbols, regions, symbolic values,
    environment and store) is not the checker's code; the first modules
    give the part of its interface the checker calls into. *)

From Stdlib Require Import ZArith Ascii String List Bool Lia.
From stdpp Require Import base decidable countable option list strings gmap fin_maps.

Local Open Scope string_scope.
Local Open Scope Z_scope.
Local Open Scope list_scope.

(** ** Strings as [llvm::StringRef] uses them *)
Module StringRef.

Definition starts_with (s pre : string) : bool := String.prefix pre s.

Definition ends_with (s suf : string) : bool :=
  String.prefix (String.rev suf) (String.rev s).

Definition to_lower (c : ascii) : ascii :=
  let n := nat_of_ascii c in
  if ((65 <=? n)%nat && (n <=? 90)%nat)%bool then ascii_of_nat (n + 32) else c.

Fixpoint lower (s : string) : string :=
  match s with
  | EmptyString => EmptyString
  | String c s' => String (to_lower c) (lower s')
  end.

Definition ends_with_insensitive (s suf : string) : bool :=
  ends_with (lower s) (lower suf).

Definition eqb (a b : string) : bool := bool_decide (a = b).

(** [llvm::sys::path::filename] for POSIX paths: what follows the last
    separator. *)
Fixpoint filename_go (cur : string) (s : string) : string :=
  match s with
  | EmptyString => String.rev cur
  | String c s' =>
      if Ascii.eqb c "/"%char then filename_go EmptyString s'
      else filename_go (String c cur) s'
  end.
Definition filename (path : string) : string := filename_go EmptyString path.

End StringRef.

(** ** The clang AST, as far as the checker inspects it *)
Module AST.

Record TypedefNameDecl := mkTypedef {
  td_name : string;
  td_annotations : list string
}.

(** Types keep their sugar: a typedef node wraps the type it names. *)
Inductive QualType :=
| BuiltinType (name : string)
| PointerType (pointee : QualType)
| ArrayType (element : QualType)
| TypedefType (decl : TypedefNameDecl) (underlying : QualType)
| ElaboratedType (named : QualType)
| TagType (tagName : string).

(** [VarDecl], with [ParmVarDecl] as the declarations for which
    [vd_isParm] holds. *)
Record VarDecl := mkVarDecl {
  vd_name : string;
  vd_type : QualType;
  vd_annotations : list string;
  vd_hasGlobalStorage : bool;
  vd_isParm : bool
}.

Record FunctionDecl := mkFunctionDecl {
  fd_name : option string;      (* [None]: the name is not an identifier *)
  fd_annotations : list string;
  fd_params : list VarDecl;
  fd_builtinID : N;
  fd_isTrivial : bool;
  fd_isNoReturn : bool;
  fd_fileName : string          (* SM.getFilename(FD->getLocation()) *)
}.

Inductive DeclContext :=
| NamespaceDecl (name : string)
| OtherContext.

(** A declaration a call resolves to: its enclosing contexts from the
    innermost outwards, and the function it is, if it is one. *)
Record Decl := mkDecl {
  d_contexts : list DeclContext;
  d_function : option FunctionDecl;
  d_inSystemHeader : bool
}.

Definition StmtId := positive.
Bind Scope positive_scope with StmtId.

#[local] Unset Elimination Schemes.
Inductive Expr :=
| ImplicitCastExpr (id : StmtId) (ty : QualType) (sub : Expr)
| ExplicitCastExpr (id : StmtId) (ty : QualType) (sub : Expr)
| CXXPseudoDestructorExpr (id : StmtId) (ty : QualType)
| CallExpr (id : StmtId) (ty : QualType) (callee : Expr)
           (calleeDecl : option Decl) (args : list Expr)
| OtherExpr (id : StmtId) (ty : QualType).
#[local] Set Elimination Schemes.

Definition getType (e : Expr) : QualType :=
  match e with
  | ImplicitCastExpr _ t _ | ExplicitCastExpr _ t _
  | CXXPseudoDestructorExpr _ t | CallExpr _ t _ _ _ | OtherExpr _ t => t
  end.

Definition stmtId (e : Expr) : StmtId :=
  match e with
  | ImplicitCastExpr i _ _ | ExplicitCastExpr i _ _
  | CXXPseudoDestructorExpr i _ | CallExpr i _ _ _ _ | OtherExpr i _ => i
  end.

(** Type predicates look through sugar. *)
Fixpoint desugar (t : QualType) : QualType :=
  match t with
  | TypedefType _ u => desugar u
  | ElaboratedType n => desugar n
  | _ => t
  end.

Definition isPointerType (t : QualType) : bool :=
  match desugar t with PointerType _ => true | _ => false end.

Definition getPointeeType (t : QualType) : option QualType :=
  match desugar t with PointerType p => Some p | _ => None end.

(** [getAs<TypedefType>]: the outermost typedef under elaboration sugar. *)
Fixpoint getAsTypedef (t : QualType) : option TypedefNameDecl :=
  match t with
  | TypedefType d _ => Some d
  | ElaboratedType n => getAsTypedef n
  | _ => None
  end.

(** [getUnqualifiedDesugaredType()->getAsTagDecl()], by its name. *)
Definition getAsTagDecl (t : QualType) : option string :=
  match desugar t with TagType n => Some n | _ => None end.

(** ** Encodings, for the maps keyed by regions and symbols *)
Definition leaf := (string + Z)%type.
Definition lstr (s : string) : gen_tree leaf := GenLeaf (inl s).
Definition lint (z : Z) : gen_tree leaf := GenLeaf (inr z).
Definition lbool (b : bool) : gen_tree leaf := lint (if b then 1 else 0).

Definition unstr (t : gen_tree leaf) : option string :=
  match t with GenLeaf (inl s) => Some s | _ => None end.
Definition unint (t : gen_tree leaf) : option Z :=
  match t with GenLeaf (inr z) => Some z | _ => None end.
Definition unbool (t : gen_tree leaf) : option bool :=
  match t with
  | GenLeaf (inr 1) => Some true
  | GenLeaf (inr 0) => Some false
  | _ => None
  end.

Definition enc_strings (l : list string) : gen_tree leaf := GenNode 0 (lstr <$> l).
Definition dec_strings (t : gen_tree leaf) : option (list string) :=
  match t with GenNode 0 ts => mapM unstr ts | _ => None end.

Lemma dec_enc_strings l : dec_strings (enc_strings l) = Some l.
Proof.
  unfold dec_strings, enc_strings. apply mapM_Some.
  induction l as [|s l IH]; constructor; [reflexivity | exact IH].
Qed.

Lemma unbool_lbool b : unbool (lbool b) = Some b.
Proof. by destruct b. Qed.

Fixpoint enc_type (t : QualType) : gen_tree leaf :=
  match t with
  | BuiltinType n => GenNode 0 [lstr n]
  | PointerType p => GenNode 1 [enc_type p]
  | ArrayType e => GenNode 2 [enc_type e]
  | TypedefType d u =>
      GenNode 3 [lstr (td_name d); enc_strings (td_annotations d); enc_type u]
  | ElaboratedType n => GenNode 4 [enc_type n]
  | TagType n => GenNode 5 [lstr n]
  end.

Fixpoint dec_type (t : gen_tree leaf) : option QualType :=
  match t with
  | GenNode 0 [n] => BuiltinType <$> unstr n
  | GenNode 1 [p] => PointerType <$> dec_type p
  | GenNode 2 [e] => ArrayType <$> dec_type e
  | GenNode 3 [n; a; u] =>
      n' ← unstr n; a' ← dec_strings a; u' ← dec_type u;
      Some (TypedefType (mkTypedef n' a') u')
  | GenNode 4 [n] => ElaboratedType <$> dec_type n
  | GenNode 5 [n] => TagType <$> unstr n
  | _ => None
  end.

Lemma dec_enc_type t : dec_type (enc_type t) = Some t.
Proof.
  induction t as [n|p IH|e IH|[n a] u IH|n IH|n]; cbn [enc_type dec_type];
    rewrite ?IH; try reflexivity.
  cbn [td_name td_annotations unstr lstr mbind option_bind].
  by rewrite dec_enc_strings.
Qed.

Definition enc_var (v : VarDecl) : gen_tree leaf :=
  GenNode 0 [lstr (vd_name v); enc_type (vd_type v);
             enc_strings (vd_annotations v);
             lbool (vd_hasGlobalStorage v); lbool (vd_isParm v)].

Definition dec_var (t : gen_tree leaf) : option VarDecl :=
  match t with
  | GenNode 0 [n; ty; a; g; p] =>
      n' ← unstr n; ty' ← dec_type ty; a' ← dec_strings a;
      g' ← unbool g; p' ← unbool p;
      Some (mkVarDecl n' ty' a' g' p')
  | _ => None
  end.

Lemma dec_enc_var v : dec_var (enc_var v) = Some v.
Proof.
  destruct v as [n ty a g p]. cbn [enc_var dec_var vd_name vd_type
    vd_annotations vd_hasGlobalStorage vd_isParm unstr lstr mbind option_bind].
  rewrite dec_enc_type. cbn [mbind option_bind].
  rewrite dec_enc_strings. cbn [mbind option_bind].
  by rewrite !unbool_lbool.
Qed.

#[global] Instance VarDecl_eq_dec : EqDecision VarDecl.
Proof.
  intros x y. destruct (decide (enc_var x = enc_var y)) as [E|E].
  - left. apply (f_equal dec_var) in E. rewrite !dec_enc_var in E. congruence.
  - right. congruence.
Defined.

#[global] Instance VarDecl_countable : Countable VarDecl :=
  inj_countable enc_var dec_var dec_enc_var.

End AST.

(** ** The analyzer's symbols, regions and symbolic values *)
Module Analyzer.
Import AST.

(** Regions and symbols refer to each other: a symbolic region is the
    memory a symbol points to, a region-value symbol is the initial content
    of a region. The analyzer uniques both, so that pointer equality in the
    checker is structural equality here. *)
Inductive MemRegion :=
| VarRegion (vd : VarDecl)
| SymbolicRegion (sym : SymExpr)
| FieldRegion (field : string) (super : MemRegion)
| ElementRegion (index : option Z) (super : MemRegion)
with SymExpr :=
| SymbolConjured (stmt : StmtId) (count : N)
| SymbolRegionValue (r : MemRegion)
| SymbolDerived (parent : SymExpr) (r : MemRegion).

(** Nullable pointers, as the checker stores and compares them. *)
Abbreviation SymbolRef := (option SymExpr).
Abbreviation MemRegionRef := (option MemRegion).

Definition enc_index (i : option Z) : gen_tree leaf :=
  match i with Some z => GenNode 1 [lint z] | None => GenNode 0 [] end.
Definition dec_index (t : gen_tree leaf) : option (option Z) :=
  match t with
  | GenNode 1 [z] => Some <$> unint z
  | GenNode 0 [] => Some None
  | _ => None
  end.

Fixpoint enc_region (r : MemRegion) : gen_tree leaf :=
  match r with
  | VarRegion vd => GenNode 0 [enc_var vd]
  | SymbolicRegion s => GenNode 1 [enc_sym s]
  | FieldRegion f sup => GenNode 2 [lstr f; enc_region sup]
  | ElementRegion i sup => GenNode 3 [enc_index i; enc_region sup]
  end
with enc_sym (s : SymExpr) : gen_tree leaf :=
  match s with
  | SymbolConjured st c => GenNode 4 [lint (Z.pos st); lint (Z.of_N c)]
  | SymbolRegionValue r => GenNode 5 [enc_region r]
  | SymbolDerived p r => GenNode 6 [enc_sym p; enc_region r]
  end.

Definition dec_stmt (z : Z) : option StmtId :=
  match z with Z.pos p => Some p | _ => None end.
Definition dec_count (z : Z) : option N :=
  match z with Z.neg _ => None | _ => Some (Z.to_N z) end.

Fixpoint dec_region (t : gen_tree leaf) : option MemRegion :=
  match t with
  | GenNode 0 [vd] => VarRegion <$> dec_var vd
  | GenNode 1 [s] => SymbolicRegion <$> dec_sym s
  | GenNode 2 [f; sup] => f' ← unstr f; sup' ← dec_region sup; Some (FieldRegion f' sup')
  | GenNode 3 [i; sup] => i' ← dec_index i; sup' ← dec_region sup; Some (ElementRegion i' sup')
  | _ => None
  end
with dec_sym (t : gen_tree leaf) : option SymExpr :=
  match t with
  | GenNode 4 [st; c] =>
      st' ← unint st ≫= dec_stmt; c' ← unint c ≫= dec_count;
      Some (SymbolConjured st' c')
  | GenNode 5 [r] => SymbolRegionValue <$> dec_region r
  | GenNode 6 [p; r] => p' ← dec_sym p; r' ← dec_region r; Some (SymbolDerived p' r')
  | _ => None
  end.

Lemma dec_enc_index i : dec_index (enc_index i) = Some i.
Proof. by destruct i. Qed.

Lemma dec_count_of_N c : dec_count (Z.of_N c) = Some c.
Proof. by destruct c. Qed.

Lemma dec_enc_region r : dec_region (enc_region r) = Some r
with dec_enc_sym s : dec_sym (enc_sym s) = Some s.
Proof.
  - destruct r as [vd|s|f sup|i sup]; cbn [enc_region dec_region].
    + by rewrite dec_enc_var.
    + by rewrite dec_enc_sym.
    + cbn. by rewrite dec_enc_region.
    + rewrite dec_enc_index. cbn. by rewrite dec_enc_region.
  - destruct s as [st c|r|p r]; cbn [enc_sym dec_sym].
    + cbn [lint unint mbind option_bind dec_stmt].
      by rewrite dec_count_of_N.
    + by rewrite dec_enc_region.
    + rewrite dec_enc_sym. cbn. by rewrite dec_enc_region.
Qed.

#[global] Instance MemRegion_eq_dec : EqDecision MemRegion.
Proof.
  intros x y. destruct (decide (enc_region x = enc_region y)) as [E|E].
  - left. apply (f_equal dec_region) in E. rewrite !dec_enc_region in E. congruence.
  - right. congruence.
Defined.

#[global] Instance SymExpr_eq_dec : EqDecision SymExpr.
Proof.
  intros x y. destruct (decide (enc_sym x = enc_sym y)) as [E|E].
  - left. apply (f_equal dec_sym) in E. rewrite !dec_enc_sym in E. congruence.
  - right. congruence.
Defined.

#[global] Instance MemRegion_countable : Countable MemRegion :=
  inj_countable enc_region dec_region dec_enc_region.
#[global] Instance SymExpr_countable : Countable SymExpr :=
  inj_countable enc_sym dec_sym dec_enc_sym.

(** The super region of a sub-region; [None] stands for the memory space a
    variable or a symbolic region lives in. *)
Definition getSuperRegion (r : MemRegion) : MemRegionRef :=
  match r with
  | VarRegion _ | SymbolicRegion _ => None
  | FieldRegion _ sup | ElementRegion _ sup => Some sup
  end.

Fixpoint getBaseRegion (r : MemRegion) : MemRegion :=
  match r with
  | FieldRegion _ sup | ElementRegion _ sup => getBaseRegion sup
  | _ => r
  end.

(** Element regions with the constant index zero are how casts appear. *)
Fixpoint StripCasts (r : MemRegion) : MemRegion :=
  match r with
  | ElementRegion (Some 0) sup => StripCasts sup
  | _ => r
  end.

Fixpoint getSymbolicBase (r : MemRegion) : SymbolRef :=
  match r with
  | SymbolicRegion s => Some s
  | FieldRegion _ sup | ElementRegion _ sup => getSymbolicBase sup
  | VarRegion _ => None
  end.

Definition asSymbolicRegion (r : MemRegion) : SymbolRef :=
  match r with SymbolicRegion s => Some s | _ => None end.

Definition isElementRegion (r : MemRegion) : bool :=
  match r with ElementRegion _ _ => true | _ => false end.

(** Symbolic values. An [APSInt] is represented by the integer it denotes:
    the checker only compares it with constants, which llvm does by value. *)
Inductive SVal :=
| UnknownVal
| UndefinedVal
| nonloc_ConcreteInt (v : Z)
| nonloc_SymbolVal (s : SymExpr)
| nonloc_LazyCompoundVal (r : MemRegionRef)
| loc_MemRegionVal (r : MemRegion)
| loc_ConcreteInt (v : Z).

Definition getAsRegion (v : SVal) : MemRegionRef :=
  match v with loc_MemRegionVal r => Some r | _ => None end.

Definition getAsSymbol (v : SVal) (IncludeBaseRegions : bool) : SymbolRef :=
  match v with
  | nonloc_SymbolVal s => Some s
  | loc_MemRegionVal r =>
      asSymbolicRegion (if IncludeBaseRegions then getBaseRegion r else StripCasts r)
  | _ => None
  end.

Definition isLoc (v : SVal) : bool :=
  match v with loc_MemRegionVal _ | loc_ConcreteInt _ => true | _ => false end.

Definition asConcreteInt (v : SVal) : option Z :=
  match v with nonloc_ConcreteInt z => Some z | _ => None end.

Definition makeTruthVal (b : bool) : SVal :=
  nonloc_ConcreteInt (if b then 1 else 0).

(** ** The checker's state traits and the program state *)

(** [unsigned] and [int] are 32 bits wide. *)
Definition UINT_MOD : Z := 2 ^ 32.
Definition to_unsigned (z : Z) : Z := z mod UINT_MOD.
Definition to_int (u : Z) : Z := if u <? 2 ^ 31 then u else u - UINT_MOD.

End Analyzer.

(** ** The checker *)
Module GCChecker.
Import AST Analyzer.

(** Declarations carry [AnnotateAttr]s. *)
Class Annotated (D : Type) := annotations : D → list string.
#[global] Instance VarDecl_annotated : Annotated VarDecl := vd_annotations.
#[global] Instance FunctionDecl_annotated : Annotated FunctionDecl := fd_annotations.
#[global] Instance Typedef_annotated : Annotated TypedefNameDecl := td_annotations.

Definition declHasAnnotation {D} `{Annotated D} (d : D) (which : string) : bool :=
  existsb (λ ann, StringRef.eqb ann which) (annotations d).

Module ValueState.
Inductive State := Allocated | Rooted | PotentiallyFreed | Untracked.

(** A value state as the analyzer's maps tell states apart: [operator==] and
    [Profile] read the tag, the root and the depth. The optional metadata
    for error messages ([FD], [PVD]) takes no part in either, so that which
    of two equal states a map holds is not determined; it is left out. *)
Record t := mk {
  S : State;
  Root : MemRegionRef;
  RootDepth : Z
}.

#[global] Instance State_eq_dec : EqDecision State.
Proof. solve_decision. Defined.

(** [operator==] *)
Definition eqb (a b : t) : bool :=
  bool_decide (S a = S b) && bool_decide (Root a = Root b)
  && (RootDepth a =? RootDepth b).

Definition isRooted (v : t) : bool := bool_decide (S v = Rooted).
Definition isPotentiallyFreed (v : t) : bool := bool_decide (S v = PotentiallyFreed).
Definition isJustAllocated (v : t) : bool := bool_decide (S v = Allocated).
Definition isUntracked (v : t) : bool := bool_decide (S v = Untracked).

(** [assert(R != nullptr)] is a debug check; the comparison is the one
    on nullable pointers. *)
Definition isRootedBy (v : t) (R : MemRegionRef) : bool :=
  isRooted v && bool_decide (R = Root v).

Definition getAllocated : t := mk Allocated None (-1).
Definition getFreed : t := mk PotentiallyFreed None (-1).
Definition getUntracked : t := mk Untracked None (-1).
Definition getRooted (R : MemRegionRef) (Depth : Z) : t := mk Rooted R Depth.

(** The Allocated state made here is the one that has [fd] and [pvd] as
    its metadata. *)
Definition getForArgument (fd : FunctionDecl) (pvd : VarDecl)
    (isFunctionSafepoint : bool) : t :=
  let maybeUnrooted := declHasAnnotation pvd "julia_maybe_unrooted" in
  if negb isFunctionSafepoint || maybeUnrooted then getAllocated
  else getRooted None (-1).
End ValueState.

Module RootState.
Inductive Kind := Root | RootArray.

Record t := mk { K : Kind; RootedAtDepth : Z }.

Definition shouldPopAtDepth (r : t) (Depth : Z) : bool := Depth =? RootedAtDepth r.
Definition isRootArray (r : t) : bool :=
  match K r with RootArray => true | Root => false end.
Definition getRoot (Depth : Z) : t := mk Root Depth.
Definition getRootArray (Depth : Z) : t := mk RootArray Depth.
End RootState.

(** The program state: the checker's traits and maps, and the analyzer's
    environment (values of expressions) and store (values of regions). *)
Record ProgramState := mkState {
  GCDepth : Z;
  GCDisabledAt : Z;
  SafepointDisabledAt : Z;
  GCValueMap : gmap SymbolRef ValueState.t;
  GCRootMap : gmap MemRegionRef RootState.t;
  Env : gmap StmtId SVal;
  Store : MemRegion → SVal
}.

Definition set_GCDepth (v : Z) (s : ProgramState) : ProgramState :=
  mkState v (GCDisabledAt s) (SafepointDisabledAt s) (GCValueMap s) (GCRootMap s)
          (Env s) (Store s).
Definition set_GCDisabledAt (v : Z) (s : ProgramState) : ProgramState :=
  mkState (GCDepth s) v (SafepointDisabledAt s) (GCValueMap s) (GCRootMap s)
          (Env s) (Store s).
Definition set_SafepointDisabledAt (v : Z) (s : ProgramState) : ProgramState :=
  mkState (GCDepth s) (GCDisabledAt s) v (GCValueMap s) (GCRootMap s)
          (Env s) (Store s).
Definition with_GCValueMap (m : gmap SymbolRef ValueState.t) (s : ProgramState) :=
  mkState (GCDepth s) (GCDisabledAt s) (SafepointDisabledAt s) m (GCRootMap s)
          (Env s) (Store s).
Definition with_GCRootMap (m : gmap MemRegionRef RootState.t) (s : ProgramState) :=
  mkState (GCDepth s) (GCDisabledAt s) (SafepointDisabledAt s) (GCValueMap s) m
          (Env s) (Store s).

(** [State->set<GCValueMap>(Sym, V)] and friends. *)
Definition set_GCValueMap (Sym : SymbolRef) (V : ValueState.t) (s : ProgramState) :=
  with_GCValueMap (<[Sym := V]> (GCValueMap s)) s.
Definition set_GCRootMap (R : MemRegionRef) (V : RootState.t) (s : ProgramState) :=
  with_GCRootMap (<[R := V]> (GCRootMap s)) s.
Definition remove_GCRootMap (R : MemRegionRef) (s : ProgramState) :=
  with_GCRootMap (delete R (GCRootMap s)) s.

(** [State->BindExpr(E, LCtx, V)], [State->bindLoc(L, V, LCtx)],
    [State->getSVal(E, LCtx)] and [State->getSVal(Loc)]; the environment
    is the one of the current frame. *)
Definition BindExpr (E : Expr) (V : SVal) (s : ProgramState) : ProgramState :=
  mkState (GCDepth s) (GCDisabledAt s) (SafepointDisabledAt s) (GCValueMap s)
          (GCRootMap s) (<[stmtId E := V]> (Env s)) (Store s).
Definition bindLoc (R : MemRegion) (V : SVal) (s : ProgramState) : ProgramState :=
  mkState (GCDepth s) (GCDisabledAt s) (SafepointDisabledAt s) (GCValueMap s)
          (GCRootMap s) (Env s)
          (λ r, if decide (r = R) then V else Store s r).
Definition getSVal (s : ProgramState) (E : Expr) : SVal :=
  default UnknownVal (Env s !! stmtId E).
Definition getSValLoc (s : ProgramState) (L : SVal) : SVal :=
  match L with
  | loc_MemRegionVal r => Store s r
  | _ => UnknownVal
  end.
Definition bindLocSVal (L : SVal) (V : SVal) (s : ProgramState) : ProgramState :=
  match L with
  | loc_MemRegionVal r => bindLoc r V s
  | _ => s
  end.
(** [State->getLValue(Field, Base)]: the field of a region; any other
    base is handed back. *)
Definition getLValueField (field : string) (Base : SVal) : SVal :=
  match Base with
  | loc_MemRegionVal r => loc_MemRegionVal (FieldRegion field r)
  | _ => Base
  end.

(** A stack frame and the checker context. [cc_parents] are the frames
    below the current one, the caller first. *)
Record StackFrame := mkFrame {
  sf_decl : option FunctionDecl;   (* dyn_cast<FunctionDecl>(LCtx->getDecl()) *)
  sf_callSite : option Expr
}.

Record CheckerContext := mkContext {
  getState : ProgramState;
  cc_frame : StackFrame;
  cc_parents : list StackFrame;
  (* the analyzer's services *)
  conjureSymbolVal : StmtId → QualType → SVal;
  getCalleeDecl : Expr → option FunctionDecl;
  recordFields : string → list (string * QualType)
}.

Definition inTopFrame (C : CheckerContext) : bool :=
  match cc_parents C with [] => true | _ => false end.

Fixpoint getStackFrameHeight_from (depth : Z) (stack : list StackFrame) : Z :=
  match stack with
  | [] => depth
  | _ :: parent => getStackFrameHeight_from (to_unsigned (depth + 1)) parent
  end.
Definition getStackFrameHeight (C : CheckerContext) : Z :=
  getStackFrameHeight_from 0 (cc_frame C :: cc_parents C).

Definition getCalleeName (C : CheckerContext) (CE : Expr) : string :=
  match getCalleeDecl C CE with
  | Some fd => default "" (fd_name fd)
  | None => ""
  end.

(** A call event. *)
Record CallEvent := mkCall {
  getDecl : option Decl;
  getOriginExpr : option Expr;
  getArgExprs : list (option Expr);
  getResultType : QualType;
  getKindAsString : string
}.

Definition getNumArgs (Call : CallEvent) : nat := length (getArgExprs Call).
Definition getArgExpr (Call : CallEvent) (i : nat) : option Expr :=
  mjoin (getArgExprs Call !! i).
Definition getArgSVal (s : ProgramState) (Call : CallEvent) (i : nat) : SVal :=
  match getArgExpr Call i with
  | Some E => getSVal s E
  | None => UnknownVal
  end.
Definition getReturnValue (s : ProgramState) (Call : CallEvent) : SVal :=
  match getOriginExpr Call with
  | Some E => getSVal s E
  | None => UndefinedVal
  end.
Definition isInSystemHeader (Call : CallEvent) : bool :=
  match getDecl Call with
  | Some D => d_inSystemHeader D
  | None => false
  end.

(** Reports. [report_error] and [report_value_error] ask the analyzer for
    an error node and emit the report on it; a report stands here for the
    call that asks for it. *)
Inductive BugReport :=
| Report (message : string)
| ValueReport (Sym : SymbolRef) (message : string).

Record Outcome := mkOutcome {
  transition : option ProgramState;   (* C.addTransition *)
  reports : list BugReport
}.

Definition unsigned_m1 : Z := to_unsigned (-1).
Definition unsigned_m2 : Z := to_unsigned (-2).

Definition gcEnabledHere (State : ProgramState) : bool :=
  GCDisabledAt State =? unsigned_m1.
Definition safepointEnabledHere (State : ProgramState) : bool :=
  SafepointDisabledAt State =? unsigned_m1.

Definition isFDAnnotatedNotSafepoint (fd : FunctionDecl) : bool :=
  if declHasAnnotation fd "julia_not_safepoint" then true
  else
    let Name := StringRef.filename (fd_fileName fd) in
    if StringRef.starts_with Name "llvm-" then true else false.

Definition isMutexLock (name : string) : bool :=
  existsb (StringRef.eqb name)
    ["uv_mutex_lock"; "uv_mutex_trylock"; "pthread_mutex_lock";
     "pthread_mutex_trylock"; "__gthread_mutex_lock"; "__gthread_mutex_trylock";
     "__gthread_recursive_mutex_lock"; "__gthread_recursive_mutex_trylock";
     "pthread_spin_lock"; "pthread_spin_trylock"; "uv_rwlock_rdlock";
     "uv_rwlock_tryrdlock"; "uv_rwlock_wrlock"; "uv_rwlock_trywrlock"].

Definition isMutexUnlock (name : string) : bool :=
  existsb (StringRef.eqb name)
    ["uv_mutex_unlock"; "pthread_mutex_unlock"; "__gthread_mutex_unlock";
     "__gthread_recursive_mutex_unlock"; "pthread_spin_unlock";
     "uv_rwlock_rdunlock"; "uv_rwlock_wrunlock"].

(** [isJuliaType]: pointers and arrays are looked through (whatever sugar
    names them); otherwise the outermost typedef name is tried, then the
    name of the tag declaration. *)
Fixpoint isJuliaType (f : string → bool) (QT : QualType) {struct QT} : bool :=
  let fix pointeeOrElement (T : QualType) {struct T} : option bool :=
    match T with
    | PointerType p => Some (isJuliaType f p)
    | ArrayType e => Some (isJuliaType f e)
    | TypedefType _ u => pointeeOrElement u
    | ElaboratedType n => pointeeOrElement n
    | _ => None
    end in
  match pointeeOrElement QT with
  | Some b => b
  | None =>
      if match getAsTypedef QT with Some TT => f (td_name TT) | None => false end
      then true
      else match getAsTagDecl QT with
           | None => false
           | Some TD => f TD
           end
  end.

Definition trackedTypeNames : list string :=
  ["jl_value_t"; "jl_svec_t"; "jl_sym_t"; "jl_expr_t"; "jl_code_info_t";
   "jl_array_t"; "jl_genericmemory_t"; "jl_method_t"; "jl_method_instance_t";
   "jl_debuginfo_t"; "jl_tupletype_t"; "jl_datatype_t"; "jl_typemap_entry_t";
   "jl_typemap_level_t"; "jl_typename_t"; "jl_module_t"; "jl_tupletype_t";
   "jl_gc_tracked_buffer_t"; "jl_binding_t"; "jl_binding_partition_t";
   "jl_ordereddict_t"; "jl_tvar_t"; "jl_typemap_t"; "jl_unionall_t";
   "jl_methtable_t"; "jl_methcache_t"; "jl_cgval_t"; "jl_codectx_t";
   "jl_ast_context_t"; "jl_code_instance_t"; "jl_excstack_t"; "jl_task_t";
   "jl_uniontype_t"; "jl_method_match_t"; "jl_vararg_t"; "jl_opaque_closure_t";
   "jl_globalref_t"; "jl_abi_override_t";
   (* Probably not technically true for these, but let's allow it as a root *)
   "jl_ircode_state"; "typemap_intersection_env"; "interpreter_state";
   "jl_typeenv_t"; "jl_stenv_t"; "jl_varbinding_t"; "set_world"; "jl_codectx_t"].

Definition isGCTrackedType (QT : QualType) : bool :=
  isJuliaType
    (λ Name, existsb (StringRef.ends_with_insensitive Name) trackedTypeNames) QT.

Fixpoint isGCTracked (E : Expr) : bool :=
  if isGCTrackedType (getType E) then true
  else match E with
       | ImplicitCastExpr _ _ sub => isGCTracked sub
       | ExplicitCastExpr _ _ sub => isGCTracked sub
       | _ => false
       end.

Definition isGloballyRootedType (QT : QualType) : bool :=
  isJuliaType (λ Name, StringRef.ends_with Name "jl_sym_t") QT.

(** [walkToRoot]: from a region to the first symbol on the way to its
    origin that the callback [f] does not ask to skip. The loop of the
    source follows [getSymbolicBase], then the region a region-value or
    derived symbol comes from; it is a recursion on the region. *)
Section walkToRoot.
Variable f : SymExpr → option ValueState.t → bool.
Variable State : ProgramState.

Fixpoint walkRegion (Region : MemRegion) {struct Region} : SymbolRef :=
  match Region with
  | VarRegion _ => None
  | FieldRegion _ sup | ElementRegion _ sup => walkRegion sup
  | SymbolicRegion Sym => walkSymbol Sym
  end
with walkSymbol (Sym : SymExpr) {struct Sym} : SymbolRef :=
  let OldVState := GCValueMap State !! Some Sym in
  if f Sym OldVState then
    match Sym with
    | SymbolRegionValue r => walkRegion r
    | SymbolDerived _ r => walkRegion r
    | SymbolConjured _ _ => None
    end
  else Some Sym.

Definition walkToRoot (Region : MemRegionRef) : SymbolRef :=
  match Region with
  | None => None
  | Some r => walkRegion r
  end.
End walkToRoot.

Definition hasNoState (_ : SymExpr) (OldVState : option ValueState.t) : bool :=
  negb (bool_decide (is_Some OldVState)).

(** The callee expression and the declaration [isSafepoint] works with:
    [Call.getDecl()] or, failing that, the declaration the callee of the
    call expression refers to. *)
Definition calleeExpr (Call : CallEvent) : option Expr :=
  match getOriginExpr Call with
  | Some (CallExpr _ _ callee _ _) => Some callee
  | _ => None
  end.

Definition resolvedDecl (Call : CallEvent) : option Decl :=
  match getDecl Call with
  | Some D => Some D
  | None =>
      match getOriginExpr Call with
      | Some (CallExpr _ _ _ calleeDecl _) => calleeDecl
      | _ => None
      end
  end.

Definition isSafepoint (Call : CallEvent) : bool :=
  if isInSystemHeader Call then false
  else
    let Callee := calleeExpr Call in
    let Decl := resolvedDecl Call in
    let DC := match Decl with Some D => d_contexts D | None => [] end in
    (* Anything in llvm or std is not a safepoint *)
    if existsb (λ ctx, match ctx with
                       | NamespaceDecl n => StringRef.eqb n "llvm" || StringRef.eqb n "std"
                       | OtherContext => false
                       end) DC
    then false
    else
      match Decl ≫= d_function with
      | None =>
          match Callee with
          | None => true
          | Some callee =>
              match getType callee with
              | ElaboratedType named =>
                  match named with
                  | TypedefType TDT _ => negb (declHasAnnotation TDT "julia_not_safepoint")
                  | _ => true
                  end
              | _ =>
                  match callee with
                  | CXXPseudoDestructorExpr _ _ => false
                  | _ => true
                  end
              end
          end
      | Some fd =>
          if negb (fd_builtinID fd =? 0)%N || fd_isTrivial fd then false
          else if match fd_name fd with
                  | Some n =>
                      (StringRef.starts_with n "uv_" || StringRef.starts_with n "unw_"
                       || StringRef.starts_with n "_U")
                      && negb (StringRef.eqb n "uv_run")
                  | None => false
                  end
          then false
          else negb (isFDAnnotatedNotSafepoint fd)
      end.

(** *** Post-call: the safepoint effect *)

(** A parameter of type pointer to pointer to a tracked type. *)
Definition isTrackedOutParam (ParmType : QualType) : bool :=
  isPointerType ParmType
  && match getPointeeType ParmType with
     | Some Pointee => isPointerType Pointee && isGCTrackedType Pointee
     | None => false
     end.

(** The loop over the parameters that picks [SpeciallyRootedSymbol]:
    an annotated out parameter sets it and the loop goes on, any other
    annotated parameter sets it and ends the loop. [None]: an annotated
    out parameter whose argument is not a location. *)
Fixpoint findSpeciallyRooted (C : CheckerContext) (State : ProgramState)
    (Call : CallEvent)
    (params : list VarDecl) (i : nat) (SpeciallyRootedSymbol : SymbolRef)
    : option SymbolRef :=
  match params with
  | [] => Some SpeciallyRootedSymbol
  | P :: rest =>
      if declHasAnnotation P "julia_temporarily_roots" then
        if isTrackedOutParam (vd_type P) then
          (* This is probably an out parameter. Find the value it refers to now. *)
          let Arg := getArgSVal (getState C) Call i in
          if isLoc Arg then
            findSpeciallyRooted C State Call rest (S i)
              (getAsSymbol (getSValLoc State Arg) false)
          else None
        else
          let Test := getArgSVal (getState C) Call i in
          Some (walkToRoot hasNoState State (getAsRegion Test))
      else findSpeciallyRooted C State Call rest (S i) SpeciallyRootedSymbol
  end.

(** Symbolically free all unrooted values: the loop over a snapshot of the
    value map. *)
Definition freeUnrooted (SpeciallyRootedSymbol RetSym : SymbolRef)
    (AMap : gmap SymbolRef ValueState.t) (State : ProgramState)
    : ProgramState * bool :=
  map_fold
    (λ Key Data (acc : ProgramState * bool),
       if ValueState.isJustAllocated Data then
         if bool_decide (SpeciallyRootedSymbol = Key) then acc
         else if bool_decide (RetSym = Key) then acc
         else (set_GCValueMap Key ValueState.getFreed (fst acc), true)
       else acc)
    (State, false) AMap.

Definition speciallyRootedSymbol (Call : CallEvent) (C : CheckerContext)
    (State : ProgramState) : option SymbolRef :=
  match getDecl Call ≫= d_function with
  | Some fd => findSpeciallyRooted C State Call (fd_params fd) 0 None
  | None => Some None
  end.

Definition returnSymbol (Call : CallEvent) (C : CheckerContext) : SymbolRef :=
  getAsSymbol (getReturnValue (getState C) Call) false.

Definition processPotentialSafepoint (Call : CallEvent) (C : CheckerContext)
    (State : ProgramState) : option (ProgramState * bool) :=
  if negb (isSafepoint Call) then Some (State, false)
  else if negb (gcEnabledHere (getState C)) then Some (State, false)
  else
    SpeciallyRootedSymbol ← speciallyRootedSymbol Call C State;
    (* Don't free the return value *)
    let RetSym := returnSymbol Call C in
    Some (freeUnrooted SpeciallyRootedSymbol RetSym (GCValueMap State) State).

Definition getValStateForRegion (State : ProgramState) (Region : MemRegionRef)
    : option ValueState.t :=
  match Region with
  | None => None
  | Some _ =>
      match walkToRoot
              (λ _ OldVState,
                 match OldVState with
                 | None => true
                 | Some v => negb (ValueState.isRooted v)
                 end) State Region with
      | None => None
      | Some Sym => GCValueMap State !! Some Sym
      end
  end.

(** *** Post-call: argument rooting *)
Fixpoint findRootingArguments (C : CheckerContext) (Call : CallEvent)
    (params : list VarDecl) (i : nat)
    (RootingRegion : MemRegionRef) (RootedSymbol : SymbolRef)
    : MemRegionRef * SymbolRef :=
  match params with
  | [] => (RootingRegion, RootedSymbol)
  | P :: rest =>
      if declHasAnnotation P "julia_rooting_argument" then
        findRootingArguments C Call rest (S i)
          (getAsRegion (getArgSVal (getState C) Call i)) RootedSymbol
      else if declHasAnnotation P "julia_rooted_argument" then
        findRootingArguments C Call rest (S i)
          RootingRegion (getAsSymbol (getArgSVal (getState C) Call i) false)
      else findRootingArguments C Call rest (S i) RootingRegion RootedSymbol
  end.

Definition processArgumentRooting (Call : CallEvent) (C : CheckerContext)
    (State : ProgramState)
    : ProgramState * bool :=
  match getDecl Call ≫= d_function with
  | None => (State, false)
  | Some fd =>
      match findRootingArguments C Call (fd_params fd) 0 None None with
      | (Some RootingRegion, Some RootedSymbol) =>
          match getValStateForRegion State (Some RootingRegion) with
          | None => (State, false)
          | Some OldVState =>
              (set_GCValueMap (Some RootedSymbol) OldVState State, true)
          end
      | _ => (State, false)
      end
  end.

(** *** Post-call: the state of the result *)
Definition NBOX_C : Z := 1024.

Definition isBoxFunction (FDName : string) : bool :=
  StringRef.starts_with FDName "jl_box_" || StringRef.starts_with FDName "ijl_box_".
Definition isUnsignedBoxFunction (FDName : string) : bool :=
  StringRef.starts_with FDName "jl_box_u" || StringRef.starts_with FDName "ijl_box_u".

(** The value-dependent global roots of the boxing functions. *)
Definition boxGloballyRooted (FDName : string) (Value : Z) : bool :=
  if isUnsignedBoxFunction FDName then
    if Value <? NBOX_C then true else false
  else
    if (- NBOX_C / 2 <? Value) && (Value <? NBOX_C - NBOX_C / 2) then true else false.

Fixpoint propagatedRoot (C : CheckerContext) (State : ProgramState)
    (Call : CallEvent)
    (params : list VarDecl) (i : nat) (NewVState : ValueState.t) : ValueState.t :=
  match params with
  | [] => NewVState
  | P :: rest =>
      if declHasAnnotation P "julia_propagates_root" then
        let Test := getArgSVal (getState C) Call i in
        (* Walk backwards to find the region that roots this value *)
        match getValStateForRegion State (getAsRegion Test) with
        | Some OldVState => OldVState
        | None => NewVState
        end
      else propagatedRoot C State Call rest (S i) NewVState
  end.

Definition resultState (C : CheckerContext) (State : ProgramState)
    (Call : CallEvent) (Sym : SymbolRef) : ValueState.t :=
  let NewVState := default ValueState.getAllocated (GCValueMap State !! Sym) in
  match getDecl Call ≫= d_function with
  | None => NewVState
  | Some fd =>
      if declHasAnnotation fd "julia_globally_rooted" then
        ValueState.getRooted None (-1)
      else
        (* Special case for jl_box_ functions which have value-dependent
           global roots. *)
        let FDName := default "" (fd_name fd) in
        if isBoxFunction FDName then
          match asConcreteInt (getArgSVal (getState C) Call 0) with
          | Some Value =>
              if boxGloballyRooted FDName Value
              then ValueState.getRooted None (-1) else NewVState
          | None => NewVState
          end
        else propagatedRoot C State Call (fd_params fd) 0 NewVState
  end.

Definition processAllocationOfResult (Call : CallEvent) (C : CheckerContext)
    (State : ProgramState) : ProgramState * bool :=
  let QT := getResultType Call in
  if negb (isGCTrackedType QT) then (State, false)
  else
    match getOriginExpr Call with
    | None => (State, false)
    | Some Origin =>
        let '(State, Sym) :=
          match getAsSymbol (getReturnValue (getState C) Call) false with
          | Some Sym => (State, Some Sym)
          | None =>
              let S := conjureSymbolVal C (stmtId Origin) QT in
              (BindExpr Origin S State, getAsSymbol S false)
          end in
        if isGloballyRootedType QT then
          (set_GCValueMap Sym (ValueState.getRooted None (-1)) State, true)
        else
          (set_GCValueMap Sym (resultState C State Call Sym) State, true)
    end.

Definition checkPostCall (Call : CallEvent) (C : CheckerContext)
    : option Outcome :=
  let State := getState C in
  let '(State, c1) := processArgumentRooting Call C State in
  '(State, c2) ← processPotentialSafepoint Call C State;
  let '(State, c3) := processAllocationOfResult Call C State in
  Some (mkOutcome (if c1 || c2 || c3 then Some State else None) []).

(** *** Function entry and exit *)

(** [State->getSVal(State->getLValue(P, LCtx))]: the value of a parameter. *)
Definition getParamSVal (State : ProgramState) (P : VarDecl) : SVal :=
  Store State (VarRegion P).

(** The loop of [propagateArgumentRootedness] over the parameters; [args]
    are the arguments of the call site, [idx] counts the tracked
    parameters met so far. [None]: the call site has no argument [idx]. *)
Fixpoint propagateParams (params : list VarDecl) (args : list Expr) (idx : nat)
    (State : ProgramState) (Change : bool) (reps : list BugReport)
    : option (ProgramState * bool * list BugReport) :=
  match params with
  | [] => Some (State, Change, reps)
  | P :: rest =>
      if negb (isGCTrackedType (vd_type P)) then
        propagateParams rest args idx State Change reps
      else
        ArgE ← args !! idx;
        let Arg := getSVal State ArgE in
        match walkToRoot hasNoState State (getAsRegion Arg) with
        | None => propagateParams rest args (S idx) State Change reps
        | Some ArgSym =>
            match GCValueMap State !! Some ArgSym with
            | None =>
                propagateParams rest args (S idx) State Change
                  (reps ++ [Report "Missed allocation of parameter"])
            | Some ValS =>
                match getAsSymbol (getParamSVal State P) false with
                | None => propagateParams rest args (S idx) State Change reps
                | Some ParamSym =>
                    if isGloballyRootedType (vd_type P) then
                      propagateParams rest args (S idx)
                        (set_GCValueMap (Some ParamSym)
                           (ValueState.getRooted None (-1)) State) true reps
                    else
                      propagateParams rest args (S idx)
                        (set_GCValueMap (Some ParamSym) ValS State) true reps
                end
            end
        end
  end.

Definition propagateArgumentRootedness (C : CheckerContext) (State : ProgramState)
    : option (ProgramState * bool * list BugReport) :=
  match sf_callSite (cc_frame C) with
  | None => Some (State, false, [])
  | Some Site =>
      match sf_decl (cc_frame C) with
      | None => Some (State, false, [])
      | Some fd =>
          match Site with
          | CallExpr _ _ _ _ args =>
              propagateParams (fd_params fd) args 0 State false []
          | _ => Some (State, false, [])
          end
      end
  end.

(** The loop of [checkBeginFunction] over the parameters, in the top frame. *)
Fixpoint initParams (fd : FunctionDecl) (isFunctionSafepoint : bool)
    (params : list VarDecl) (State : ProgramState) : ProgramState :=
  match params with
  | [] => State
  | P :: rest =>
      if declHasAnnotation P "julia_require_rooted_slot" then
        let Root := getAsRegion (getParamSVal State P) in
        initParams fd isFunctionSafepoint rest
          (set_GCRootMap Root (RootState.getRoot (-1)) State)
      else if isGCTrackedType (vd_type P) then
        match getAsSymbol (getParamSVal State P) false with
        | None => initParams fd isFunctionSafepoint rest State
        | Some AssignedSym =>
            initParams fd isFunctionSafepoint rest
              (set_GCValueMap (Some AssignedSym)
                 (ValueState.getForArgument fd P isFunctionSafepoint) State)
        end
      else initParams fd isFunctionSafepoint rest State
  end.

(** [None]: the frame is not the one of a function ([assert(FD)]). *)
Definition checkBeginFunction (C : CheckerContext) : option Outcome :=
  (* Consider top-level argument values rooted, unless an annotation says
     otherwise *)
  fd ← sf_decl (cc_frame C);
  let CurrentHeight := getStackFrameHeight C in
  let State := getState C in
  let '(State, Change) :=
    if inTopFrame C then
      (set_SafepointDisabledAt unsigned_m1 (set_GCDisabledAt unsigned_m1 State), true)
    else (State, false) in
  let '(State, Change) :=
    if gcEnabledHere State && declHasAnnotation fd "julia_gc_disabled"
    then (set_GCDisabledAt CurrentHeight State, true) else (State, Change) in
  let isFunctionSafepoint := negb (isFDAnnotatedNotSafepoint fd) in
  let '(State, Change) :=
    if safepointEnabledHere State
       && (negb isFunctionSafepoint || declHasAnnotation fd "julia_notsafepoint_leave")
    then (set_SafepointDisabledAt CurrentHeight State, true) else (State, Change) in
  if negb (inTopFrame C) then
    '(State, Propagated, reps) ← propagateArgumentRootedness C State;
    Some (mkOutcome (if Propagated || Change then Some State else None) reps)
  else
    let State := initParams fd isFunctionSafepoint (fd_params fd) State in
    Some (mkOutcome (if Change then Some State else None) []).

(** [RS] is the return statement, if any, with its value, if any.
    [None]: safepoints were disabled at this height and the frame is not
    the one of a function. *)
Definition checkEndFunction (RS : option (option Expr)) (C : CheckerContext)
    : option Outcome :=
  let State := getState C in
  let FD := sf_decl (cc_frame C) in
  let reps1 :=
    match RS with
    | Some (Some RetValue) =>
        if gcEnabledHere State && isGCTracked RetValue then
          let Sym := getAsSymbol (getSVal State RetValue) true in
          match Sym with
          | Some _ =>
              match GCValueMap State !! Sym with
              | Some ValS =>
                  if ValueState.isPotentiallyFreed ValS
                  then [ValueReport Sym "Return value may have been GCed"] else []
              | None => []
              end
          | None => []
          end
        else []
    | _ => []
    end in
  let CurrentHeight := getStackFrameHeight C in
  let '(State, Changed) :=
    if GCDisabledAt State =? CurrentHeight
    then (set_GCDisabledAt unsigned_m1 State, true) else (State, false) in
  let Safepoints : option (ProgramState * bool * list BugReport) :=
    (if SafepointDisabledAt State =? CurrentHeight then
       fd ← FD;
       let reps :=
         if negb (isFDAnnotatedNotSafepoint fd)
            && negb (declHasAnnotation fd "julia_notsafepoint_enter")
         then [Report "Safepoints disabled at end of function"] else [] in
       Some (set_SafepointDisabledAt unsigned_m1 State, true, reps)
     else Some (State, Changed, [])) in
  match Safepoints with
  | None => None
  | Some (State, Changed, reps2) =>
      let reps3 :=
        if inTopFrame C && negb (GCDepth (getState C) =? 0)
        then [Report "Non-popped GC frame present at end of function"] else [] in
      Some (mkOutcome (if Changed then Some State else None)
                      (reps1 ++ reps2 ++ reps3))
  end.

(** *** Pre-call *)

(** The symbol an argument is checked under; a struct or union passed by
    value stands for the symbol of the region it lies in. *)
Definition argumentSymbol (Arg : SVal) : SymbolRef :=
  match Arg with
  | nonloc_LazyCompoundVal (Some R) =>
      match getSuperRegion R ≫= asSymbolicRegion with
      | Some Sym => Some Sym
      | None => getAsSymbol Arg false
      end
  | _ => getAsSymbol Arg false
  end.

(** Whether argument [idx] goes to a parameter annotated
    "julia_maybe_unrooted". *)
Definition maybeUnrootedParam (FD : option FunctionDecl) (idx : nat) : bool :=
  match FD with
  | Some fd =>
      match fd_params fd !! idx with
      | Some P => declHasAnnotation P "julia_maybe_unrooted"
      | None => false
      end
  | None => false
  end.

(** One round of the loop over the arguments: the reports it asks for. *)
Definition checkArgument (Call : CallEvent) (C : CheckerContext)
    (State : ProgramState) (isCalleeSafepoint : bool) (FD : option FunctionDecl)
    (idx : nat) : list BugReport :=
  let Arg := getArgSVal (getState C) Call idx in
  let Sym := argumentSymbol Arg in
  match Sym with
  | None => []
  | Some _ =>
      match GCValueMap State !! Sym with
      | None => []
      | Some ValState =>
          if match getArgExpr Call idx with
             | Some E => negb (isGCTracked E)
             | None => false
             end
          then []
          else
            (if ValueState.isPotentiallyFreed ValState
             then [ValueReport Sym "Argument value may have been GCed"] else [])
            ++
            (if ValueState.isRooted ValState then []
             else
               let MaybeUnrooted := maybeUnrootedParam FD idx in
               if negb MaybeUnrooted && isCalleeSafepoint
               then [ValueReport Sym
                       "Passing non-rooted value as argument to function that may GC"]
               else [])
      end
  end.

Definition checkArguments (Call : CallEvent) (C : CheckerContext)
    (State : ProgramState) (isCalleeSafepoint : bool) (FD : option FunctionDecl)
    : list BugReport :=
  concat (map (checkArgument Call C State isCalleeSafepoint FD)
              (seq 0 (getNumArgs Call))).

Definition safepointViolationMessage (Call : CallEvent) : string :=
  ("Calling potential safepoint as " ++ getKindAsString Call
     ++ " from function annotated JL_NOTSAFEPOINT")%string.

Definition calleeFunction (Call : CallEvent) : option FunctionDecl :=
  getDecl Call ≫= d_function.

(** The first step of [checkPreCall]: a callee that unlocks a mutex or is
    annotated "julia_notsafepoint_leave" re-enables safepoints that were
    disabled at this height. The result is the state the rest of the check
    reads and the transition added, if any. [None]: safepoints were
    disabled at this height, the callee unlocks, and the frame is not the
    one of a function. *)
Definition unlockSafepoints (Call : CallEvent) (C : CheckerContext)
    : option (ProgramState * option ProgramState) :=
  let State := getState C in
  let FD := calleeFunction Call in
  let FDName := match FD with
                | Some fd => default "" (fd_name fd)
                | None => ""
                end in
  if isMutexUnlock FDName
     || match FD with
        | Some fd => declHasAnnotation fd "julia_notsafepoint_leave"
        | None => false
        end
  then
    if SafepointDisabledAt State =? getStackFrameHeight C then
      match sf_decl (cc_frame C) with
      | None => None
      | Some Here =>
          if negb (isFDAnnotatedNotSafepoint Here) then
            let State := set_SafepointDisabledAt unsigned_m1 State in
            Some (State, Some State)
          else Some (State, None)
      end
    else Some (State, None)
  else Some (State, None).

(** The safepoint reached while safepoints are disabled; the warning is
    suppressed if the function is noreturn. *)
Definition safepointViolation (Call : CallEvent) (State : ProgramState) : bool :=
  negb (safepointEnabledHere State) && isSafepoint Call
  && match calleeFunction Call with
     | Some fd => negb (fd_isNoReturn fd)
     | None => true
     end.

Definition isPromiseRooted (Call : CallEvent) : bool :=
  match calleeFunction Call with
  | Some fd => bool_decide (fd_name fd = Some "JL_GC_PROMISE_ROOTED")
  | None => false
  end.

Definition checkPreCall (Call : CallEvent) (C : CheckerContext) : option Outcome :=
  if negb (gcEnabledHere (getState C)) then Some (mkOutcome None [])
  else
    let isCalleeSafepoint := isSafepoint Call in
    let FD := calleeFunction Call in
    '(State, Added) ← unlockSafepoints Call C;
    if safepointViolation Call State then
      Some (mkOutcome Added [Report (safepointViolationMessage Call)])
    else if isPromiseRooted Call then Some (mkOutcome Added [])
    else Some (mkOutcome Added (checkArguments Call C State isCalleeSafepoint FD)).

(** *** evalCall: the root frame operations *)

(** JL_GC_POP, first loop: go through all roots, see which ones are no
    longer with us. The roots are read from a snapshot [AMap]. *)
Definition popRoots (CurrentDepth : Z) (AMap : gmap MemRegionRef RootState.t)
    (State : ProgramState) : ProgramState * list MemRegionRef :=
  map_fold
    (λ Key Data (acc : ProgramState * list MemRegionRef),
       if RootState.shouldPopAtDepth Data (to_int CurrentDepth)
       then (remove_GCRootMap Key (fst acc), snd acc ++ [Key])
       else acc)
    (State, []) AMap.

(** Second loop: go through the values and unroot those for which those
    were our roots. *)
Definition unrootValues (R : MemRegionRef) (VMap : gmap SymbolRef ValueState.t)
    (State : ProgramState) : ProgramState :=
  map_fold
    (λ Key Data (State : ProgramState),
       if ValueState.isRootedBy Data R
       then set_GCValueMap Key ValueState.getAllocated State
       else State)
    State VMap.

Definition evalPop (C : CheckerContext) : Outcome :=
  let CurrentDepth := GCDepth (getState C) in
  if CurrentDepth =? 0 then
    mkOutcome None [Report "JL_GC_POP without corresponding push"]
  else
    let CurrentDepth := CurrentDepth - 1 in
    let State := set_GCDepth CurrentDepth (getState C) in
    let '(State, PoppedRoots) := popRoots CurrentDepth (GCRootMap State) State in
    let VMap := GCValueMap State in
    let State := foldl (λ State R, unrootValues R VMap State) State PoppedRoots in
    mkOutcome (Some State) [].

(** JL_GC_PUSH1 ... JL_GC_PUSH9: transform slots to roots, transform
    values to rooted. [inr]: an argument is not a region, the report asked
    for on the way included. *)
Fixpoint pushSlots (C : CheckerContext) (CurrentDepth : Z) (args : list Expr)
    (State : ProgramState) (reps : list BugReport)
    : ProgramState * list BugReport + list BugReport :=
  match args with
  | [] => inl (State, reps)
  | A :: rest =>
      match getSVal (getState C) A with
      | loc_MemRegionVal Region =>
          let State :=
            set_GCRootMap (Some Region) (RootState.getRoot (to_int CurrentDepth)) State in
          (* Now for the value *)
          let Sym := getAsSymbol (Store State Region) false in
          match Sym with
          | None => pushSlots C CurrentDepth rest State reps
          | Some _ =>
              match GCValueMap State !! Sym with
              | None => pushSlots C CurrentDepth rest State reps
              | Some ValState =>
                  let reps :=
                    if ValueState.isPotentiallyFreed ValState
                    then reps ++ [ValueReport Sym
                                    "Trying to root value which may have been GCed"]
                    else reps in
                  let State :=
                    if negb (ValueState.isRooted ValState)
                    then set_GCValueMap Sym
                           (ValueState.getRooted (Some Region) (to_int CurrentDepth))
                           State
                    else State in
                  pushSlots C CurrentDepth rest State reps
              end
          end
      | _ =>
          inr (reps ++ [Report "JL_GC_PUSH with something other than a local variable"])
      end
  end.

Definition evalPush (C : CheckerContext) (args : list Expr) : Outcome :=
  let CurrentDepth := GCDepth (getState C) in
  match pushSlots C CurrentDepth args (getState C) [] with
  | inr reps => mkOutcome None reps
  | inl (State, reps) =>
      mkOutcome (Some (set_GCDepth (to_unsigned (CurrentDepth + 1)) State)) reps
  end.

(** _JL_GC_PUSHARGS. [None]: the call has no argument. *)
Definition evalPushArgs (C : CheckerContext) (args : list Expr) : option Outcome :=
  A ← args !! 0%nat;
  let CurrentDepth := GCDepth (getState C) in
  match getSVal (getState C) A with
  | loc_MemRegionVal R =>
      let Region := StripCasts R in
      let State :=
        set_GCRootMap (Some Region) (RootState.getRootArray (to_int CurrentDepth))
                      (getState C) in
      Some (mkOutcome (Some (set_GCDepth (to_unsigned (CurrentDepth + 1)) State)) [])
  | _ =>
      Some (mkOutcome None [Report "JL_GC_PUSH with something other than an args array"])
  end.

(** JL_GC_PROMISE_ROOTED. *)
Definition evalPromiseRooted (C : CheckerContext) (args : list Expr)
    : option Outcome :=
  A ← args !! 0%nat;
  let Arg := getSVal (getState C) A in
  match getAsSymbol Arg false with
  | None => Some (mkOutcome None [Report "Can not understand this promise."])
  | Some Sym =>
      Some (mkOutcome
              (Some (set_GCValueMap (Some Sym) (ValueState.getRooted None (-1))
                                    (getState C))) [])
  end.

(** jl_gc_push_arraylist: the items field of the list becomes a root
    array. [None]: no second argument, its type is no pointer, or the
    list is not a location. *)
Definition evalPushArraylist (C : CheckerContext) (CE : Expr) (args : list Expr)
    : option Outcome :=
  let CurrentDepth := to_unsigned (GCDepth (getState C) + 1) in
  let State := set_GCDepth CurrentDepth (getState C) in
  A ← args !! 1%nat;
  let ArrayList := getSVal (getState C) A in
  Pointee ← getPointeeType (getType A);
  (* Try to find the items field *)
  let FD :=
    match getAsTagDecl Pointee with
    | Some RD => List.find (λ X, StringRef.eqb (fst X) "items") (recordFields C RD)
    | None => None
    end in
  match FD with
  | Some (_, FieldType) =>
      let ItemsLoc := getLValueField "items" ArrayList in
      if isLoc ItemsLoc then
        let '(State, Items) :=
          match getSValLoc State ItemsLoc with
          | UnknownVal =>
              let Items := conjureSymbolVal C (stmtId CE) FieldType in
              (bindLocSVal ItemsLoc Items State, Items)
          | Items => (State, Items)
          end in
        (* The items list is now rooted *)
        Some (mkOutcome
                (Some (set_GCRootMap (getAsRegion Items)
                         (RootState.getRootArray (to_int CurrentDepth)) State)) [])
      else None
  | None => Some (mkOutcome (Some State) [])
  end.

(** jl_ast_preserve: the second argument gets unconditionally rooted. *)
Definition evalAstPreserve (C : CheckerContext) (args : list Expr) : option Outcome :=
  A ← args !! 1%nat;
  match getAsSymbol (getSVal (getState C) A) false with
  | None => Some (mkOutcome None [])
  | Some Sym =>
      Some (mkOutcome
              (Some (set_GCValueMap (Some Sym) (ValueState.getRooted None (-1))
                                    (getState C))) [])
  end.

(** jl_gc_enable. [None]: no argument, or an argument that is neither a
    literal nor a conjured symbol. *)
Definition evalGcEnable (C : CheckerContext) (CE : Expr) (args : list Expr)
    : option Outcome :=
  let State := getState C in
  A ← args !! 0%nat;
  (* Check for a literal argument *)
  let Arg := getSVal (getState C) A in
  EnabledAfter ←
    match asConcreteInt Arg with
    | Some Val => Some (negb (Val =? 0))
    | None =>
        match getAsSymbol Arg false with
        | Some (SymbolConjured _ _) => Some true
        | _ => None
        end
    end;
  let EnabledNow := gcEnabledHere State in
  let State :=
    if negb EnabledAfter then set_GCDisabledAt unsigned_m2 State
    else set_GCDisabledAt unsigned_m1 State in
  (* GC State is explicitly modeled, so let's make sure the execution
     matches our model *)
  let Result := makeTruthVal EnabledNow in
  Some (mkOutcome (Some (BindExpr CE Result State)) []).

Definition isPushName (name : string) : bool :=
  existsb (StringRef.eqb name)
    ["JL_GC_PUSH1"; "JL_GC_PUSH2"; "JL_GC_PUSH3"; "JL_GC_PUSH4"; "JL_GC_PUSH5";
     "JL_GC_PUSH6"; "JL_GC_PUSH7"; "JL_GC_PUSH8"; "JL_GC_PUSH9"].

(** These checks should have no effect on the surrounding environment
    (globals should not be invalidated, etc), hence the use of evalCall.
    The boolean tells whether the call was evaluated here. [None]: the
    call has no origin expression, or the operation at hand has none of
    its results (see above). *)
Definition evalCall (Call : CallEvent) (C : CheckerContext)
    : option (bool * Outcome) :=
  Origin ← getOriginExpr Call;
  match Origin with
  | CallExpr _ _ _ _ args =>
      let CE := Origin in
      let name := getCalleeName C CE in
      if StringRef.eqb name "JL_GC_POP" then Some (true, evalPop C)
      else if isPushName name then Some (true, evalPush C args)
      else if StringRef.eqb name "_JL_GC_PUSHARGS" then
        pair true <$> evalPushArgs C args
      else if StringRef.eqb name "JL_GC_PROMISE_ROOTED" then
        pair true <$> evalPromiseRooted C args
      else if StringRef.eqb name "jl_gc_push_arraylist" then
        pair true <$> evalPushArraylist C CE args
      else if StringRef.eqb name "jl_ast_preserve" then
        pair true <$> evalAstPreserve C args
      else if StringRef.eqb name "jl_gc_enable" || StringRef.eqb name "ijl_gc_enable" then
        pair true <$> evalGcEnable C CE args
      else
        let FD := getDecl Call ≫= d_function in
        if (isMutexLock name
            || match FD with
               | Some fd => declHasAnnotation fd "julia_notsafepoint_enter"
               | None => false
               end)
           && (SafepointDisabledAt (getState C) =? unsigned_m1)
        then
          Some (true,
                mkOutcome (Some (set_SafepointDisabledAt (getStackFrameHeight C)
                                   (getState C))) [])
        else Some (false, mkOutcome None [])
  | _ => Some (false, mkOutcome None [])
  end.

(** *** Bind and location access *)

(** [Sym->getOriginRegion()]. *)
Definition getOriginRegion (Sym : SymExpr) : MemRegionRef :=
  match Sym with
  | SymbolRegionValue r | SymbolDerived _ r => Some r
  | SymbolConjured _ _ => None
  end.

(** [rootRegionIfGlobal]: [Some] when it answers true, with the state it
    leaves and the state it files for the value of the global. The
    test whether that value is known already reads the state of [C]. *)
Definition rootRegionIfGlobal (R : MemRegionRef) (State : ProgramState)
    (C : CheckerContext) : option (ProgramState * ValueState.t) :=
  match R with
  | Some (VarRegion VD) =>
      if negb (vd_hasGlobalStorage VD) then None
      else if negb (isGCTrackedType (vd_type VD)) then None
      else
        let isGlobalRoot :=
          declHasAnnotation VD "julia_globally_rooted"
          || isGloballyRootedType (vd_type VD) in
        let State :=
          if isGlobalRoot then set_GCRootMap R (RootState.getRoot (-1)) State
          else State in
        let Sym := getAsSymbol (Store State (VarRegion VD)) false in
        let TheValS :=
          if isGlobalRoot then ValueState.getRooted R (-1)
          else ValueState.getAllocated in
        let State :=
          match Sym with
          | Some _ =>
              match GCValueMap (getState C) !! Sym with
              | None => set_GCValueMap Sym TheValS State
              | Some _ => State
              end
          | None => State
          end in
        Some (State, TheValS)
  | _ => None
  end.

(** The region a bind is filed under: the base of an element region. *)
Definition boundRegion (R : MemRegion) : MemRegion :=
  if isElementRegion R then StripCasts (getBaseRegion R) else R.

Definition checkBind (LVal RVal : SVal) (C : CheckerContext) : Outcome :=
  let State := getState C in
  match getAsRegion LVal with
  | None => mkOutcome None []
  | Some R0 =>
      let shouldBeRootArray := isElementRegion R0 in
      let R := boundRegion R0 in
      match getAsSymbol RVal false with
      | None => mkOutcome None []
      | Some Sym =>
          match GCRootMap State !! Some R with
          | None =>
              let '(State, ValSP) :=
                match rootRegionIfGlobal (Some (getBaseRegion R)) State C with
                | Some (State, ValS) => (State, Some ValS)
                | None => (State, getValStateForRegion State (Some R))
                end in
              match ValSP with
              | None => mkOutcome None []
              | Some ValS =>
                  if negb (ValueState.isRooted ValS) then mkOutcome None []
                  else
                    match GCValueMap State !! Some Sym with
                    | Some RValState =>
                        if ValueState.isRooted RValState
                           && (ValueState.RootDepth RValState <? ValueState.RootDepth ValS)
                        then mkOutcome None []
                        else mkOutcome (Some (set_GCValueMap (Some Sym) ValS State)) []
                    | None =>
                        mkOutcome (Some (set_GCValueMap (Some Sym) ValS State)) []
                    end
              end
          | Some RootState =>
              if shouldBeRootArray && negb (RootState.isRootArray RootState) then
                mkOutcome None
                  [Report "This assignment looks weird. Expected a root array on the LHS."]
              else
                match GCValueMap State !! Some Sym with
                | None =>
                    match rootRegionIfGlobal (getOriginRegion Sym) State C with
                    | Some (State, _) => mkOutcome (Some State) []
                    | None =>
                        mkOutcome None
                          [ValueReport (Some Sym)
                             "Saw assignment to root, but missed the allocation"]
                    end
                | Some RValState =>
                    mkOutcome
                      (if negb (ValueState.isRooted RValState)
                          || (RootState.RootedAtDepth RootState
                              <? ValueState.RootDepth RValState)
                       then Some (set_GCValueMap (Some Sym)
                                    (ValueState.getRooted (Some R)
                                       (RootState.RootedAtDepth RootState)) State)
                       else None)
                      (if ValueState.isPotentiallyFreed RValState
                       then [ValueReport (Some Sym)
                               "Trying to root value which may have been GCed"]
                       else [])
                end
          end
      end
  end.

(** The first step of [checkLocation]: loading from a root produces a
    rooted symbol. [None]: a load through a registered root that is not
    a location. *)
Definition loadFromRoot (SLoc : SVal) (IsLoad : bool) (State : ProgramState)
    : option (ProgramState * bool) :=
  if IsLoad then
    match GCRootMap State !! getAsRegion SLoc with
    | Some RS =>
        if isLoc SLoc then
          let LoadedSym := getAsSymbol (getSValLoc State SLoc) false in
          match LoadedSym with
          | Some _ =>
              if match GCValueMap State !! LoadedSym with
                 | None => true
                 | Some ValS =>
                     negb (ValueState.isRooted ValS)
                     || (RootState.RootedAtDepth RS <? ValueState.RootDepth ValS)
                 end
              then Some (set_GCValueMap LoadedSym
                           (ValueState.getRooted (getAsRegion SLoc)
                              (RootState.RootedAtDepth RS)) State, true)
              else Some (State, false)
          | None => Some (State, false)
          end
        else None
    | None => Some (State, false)
    end
  else Some (State, false).

(** The rest of [checkLocation]. If it's just the symbol by itself, let it
    be. We allow dead pointer to be passed around, so long as they're not
    accessed. However, we do want to start tracking any globals that may
    have been accessed. *)
Definition accessLocation (SLoc : SVal) (C : CheckerContext)
    (State : ProgramState) (DidChange : bool) : Outcome :=
  let Added := if DidChange then Some State else None in
  match rootRegionIfGlobal (getAsRegion SLoc) State C with
  | Some (State, _) => mkOutcome (Some State) []
  | None =>
      match getAsSymbol SLoc false with
      | Some _ => mkOutcome Added []
      | None =>
          (* This will walk backwards until it finds the base symbol *)
          let Sym := getAsSymbol SLoc true in
          match Sym with
          | None => mkOutcome Added []
          | Some _ =>
              match GCValueMap State !! Sym with
              | None => mkOutcome Added []
              | Some VState =>
                  mkOutcome Added
                    (if ValueState.isPotentiallyFreed VState
                     then [ValueReport Sym
                             "Trying to access value which may have been GCed"]
                     else [])
              end
          end
      end
  end.

Definition checkLocation (SLoc : SVal) (IsLoad : bool) (C : CheckerContext)
    : option Outcome :=
  '(State, DidChange) ← loadFromRoot SLoc IsLoad (getState C);
  Some (accessLocation SLoc C State DidChange).

End GCChecker.

(** ** The checker, continued: values derived from other values *)
Module Derivation.
Import AST Analyzer GCChecker.

Inductive UnaryOpcode := UO_AddrOf | UO_Deref | UO_Other.

(** The statements the post-statement callbacks are called on, and the
    expressions they take apart; [PlainExpr] is an expression of one of the
    kinds of [AST.Expr]. *)
Inductive DExpr :=
| PlainExpr (e : Expr)
| ParenExpr (id : StmtId) (ty : QualType) (sub : DExpr)
| UnaryOperator (id : StmtId) (ty : QualType) (opc : UnaryOpcode) (sub : DExpr)
| ArraySubscriptExpr (id : StmtId) (ty : QualType) (LHS : DExpr)
| MemberExpr (id : StmtId) (ty : QualType) (base : DExpr)
| CStyleCastExpr (id : StmtId) (ty : QualType) (typeAsWritten : QualType) (sub : DExpr).

Definition typeOf (E : DExpr) : QualType :=
  match E with
  | PlainExpr e => getType e
  | ParenExpr _ t _ | UnaryOperator _ t _ _ | ArraySubscriptExpr _ t _
  | MemberExpr _ t _ | CStyleCastExpr _ t _ _ => t
  end.

Definition idOf (E : DExpr) : StmtId :=
  match E with
  | PlainExpr e => stmtId e
  | ParenExpr i _ _ | UnaryOperator i _ _ _ | ArraySubscriptExpr i _ _
  | MemberExpr i _ _ | CStyleCastExpr i _ _ _ => i
  end.

(** The environment files the value of a parenthesised expression under
    the expression inside. *)
Fixpoint envKey (E : DExpr) : StmtId :=
  match E with
  | ParenExpr _ _ sub => envKey sub
  | _ => idOf E
  end.

(** [C.getSVal(E)], [State->getSVal(E, LCtx)] and [State->BindExpr]. *)
Definition valueOfExpr (State : ProgramState) (E : DExpr) : SVal :=
  default UnknownVal (Env State !! envKey E).
Definition bindExpr (E : DExpr) (V : SVal) (s : ProgramState) : ProgramState :=
  mkState (GCDepth s) (GCDisabledAt s) (SafepointDisabledAt s) (GCValueMap s)
          (GCRootMap s) (<[envKey E := V]> (Env s)) (Store s).

Definition isVoidType (t : QualType) : bool :=
  match desugar t with BuiltinType n => StringRef.eqb n "void" | _ => false end.

(** [isGCTracked], on these expressions. *)
Fixpoint isGCTrackedExpr (E : DExpr) : bool :=
  match E with
  | PlainExpr e => isGCTracked e
  | CStyleCastExpr _ t _ sub => if isGCTrackedType t then true else isGCTrackedExpr sub
  | _ => isGCTrackedType (typeOf E)
  end.

(** [Helpers::walk_back_to_global_VR]: from a region back to the global
    variable it lies in or was loaded from. *)
Fixpoint walk_back_to_global_VR (Region : MemRegion) {struct Region} : option VarDecl :=
  match Region with
  | VarRegion vd => if vd_hasGlobalStorage vd then Some vd else None
  | SymbolicRegion Sym => walk_back_symbol Sym
  | FieldRegion _ sup | ElementRegion _ sup => walk_back_to_global_VR sup
  end
with walk_back_symbol (Sym : SymExpr) {struct Sym} : option VarDecl :=
  match Sym with
  | SymbolRegionValue r => walk_back_to_global_VR r
  | SymbolDerived _ r => walk_back_to_global_VR r
  | SymbolConjured _ _ => None
  end.

Definition isUnknown (V : SVal) : bool :=
  match V with UnknownVal => true | _ => false end.

(** [getSymbolForResult]: the symbol stored at the location the result
    denotes; a fresh one is stored there when there is none and the value
    is of interest. [hasOldValS] tells whether the pointer [OldValS] is
    set. *)
Definition getSymbolForResult (Result : DExpr) (hasOldValS : bool)
    (State : ProgramState) (C : CheckerContext) : ProgramState * SymbolRef :=
  let QT := typeOf Result in
  if negb (isPointerType QT)
     || match getPointeeType QT with Some P => isVoidType P | None => false end
  then (State, None)
  else
    let ValLoc := valueOfExpr State Result in
    if negb (isLoc ValLoc) then (State, None)
    else
      let Loaded := getSValLoc State ValLoc in
      if isUnknown Loaded || negb (bool_decide (is_Some (getAsSymbol Loaded false))) then
        if hasOldValS || isGCTrackedExpr Result then
          let Loaded := conjureSymbolVal C (idOf Result) (typeOf Result) in
          (bindLocSVal ValLoc Loaded State, getAsSymbol Loaded false)
        else (State, getAsSymbol Loaded false)
      else (State, getAsSymbol Loaded false).

(** The first lines of [checkDerivingExpr]: one pair of parentheses and one
    address-of are taken off the parent. *)
Definition stripParent (Parent : DExpr) : DExpr :=
  let Parent := match Parent with ParenExpr _ _ sub => sub | _ => Parent end in
  match Parent with
  | UnaryOperator _ _ UO_AddrOf sub => sub
  | _ => Parent
  end.

(** Whether the result is tracked: it is not when its type is not tracked
    though the parent is, the array list of a module apart. *)
Definition resultTracked (Result Parent : DExpr) : bool :=
  if negb (isGCTrackedExpr Result) then
    let ParentIsModule :=
      isJuliaType (λ Name, StringRef.ends_with Name "jl_module_t") (typeOf Parent) in
    let ResultIsArrayList :=
      isJuliaType (λ Name, StringRef.ends_with Name "arraylist_t") (typeOf Result) in
    if negb (ParentIsModule && ResultIsArrayList) && isGCTrackedExpr Parent
    then false else true
  else true.

(** The state a parent region hands down: the one of a parameter of the
    function at hand, or the one of a global variable the region goes back
    to. [None]: nothing is inherited. *)
Definition inheritedState (Region : MemRegion) (State : ProgramState)
    (C : CheckerContext) : ProgramState * option ValueState.t :=
  let Updated := ValueState.getRooted (Some Region) (-1) in
  match Region with
  | VarRegion vd =>
      if vd_isParm vd then
        (* This works around us not being able to track symbols for
           struct/union parameters very well. *)
        match sf_decl (cc_frame C) with
        | Some fd =>
            (State,
             Some (ValueState.getForArgument fd vd (negb (isFDAnnotatedNotSafepoint fd))))
        | None => (State, None)
        end
      else
        match walk_back_to_global_VR Region with
        | Some VR =>
            match rootRegionIfGlobal (Some (VarRegion VR)) State C with
            | Some (State, _) => (State, Some Updated)
            | None => (State, None)
            end
        | None => (State, None)
        end
  | _ =>
      match walk_back_to_global_VR Region with
      | Some VR =>
          match rootRegionIfGlobal (Some (VarRegion VR)) State C with
          | Some (State, _) => (State, Some Updated)
          | None => (State, None)
          end
      | None => (State, None)
      end
  end.

(** The last part of [checkDerivingExpr]: the state of the parent symbol
    is handed on. *)
Definition deriveFromParent (Result : DExpr) (ResultTracked : bool)
    (OldSym NewSym : SymbolRef) (OldValS NewValS : option ValueState.t)
    (State : ProgramState) : Outcome :=
  if match NewValS with Some v => ValueState.isRooted v | None => false end
  then mkOutcome None []
  else
    match OldValS with
    | None =>
        (* This way we'll get better diagnostics *)
        if isGCTrackedExpr Result
        then mkOutcome (Some (set_GCValueMap NewSym ValueState.getUntracked State)) []
        else mkOutcome None []
    | Some Old =>
        if ValueState.isPotentiallyFreed Old then
          mkOutcome None
            [ValueReport OldSym "Creating derivative of value that may have been GCed"]
        else if ResultTracked then
          mkOutcome (Some (set_GCValueMap NewSym Old State)) []
        else mkOutcome None []
    end.

Definition checkDerivingExpr (Result Parent : DExpr) (C : CheckerContext) : Outcome :=
  let Parent := stripParent Parent in
  let State := getState C in
  if isGloballyRootedType (typeOf Result) then
    match getSymbolForResult Result false State C with
    | (_, None) => mkOutcome None []
    | (State, Some NewSym) =>
        if match GCValueMap State !! Some NewSym with
           | Some NewValS =>
               ValueState.isRooted NewValS && (ValueState.RootDepth NewValS =? -1)
           | None => false
           end
        then mkOutcome None []
        else mkOutcome
               (Some (set_GCValueMap (Some NewSym) (ValueState.getRooted None (-1)) State))
               []
    end
  else
    let ResultTracked := resultTracked Result Parent in
    (* This is the pointer *)
    let ResultVal := valueOfExpr (getState C) Result in
    let Conjured : option (ProgramState * SVal) :=
      if isUnknown ResultVal then
        if negb (isPointerType (typeOf Result)) then None
        else
          let ResultVal := conjureSymbolVal C (idOf Result) (typeOf Result) in
          Some (bindExpr Result ResultVal State, ResultVal)
      else Some (State, ResultVal) in
    match Conjured with
    | None => mkOutcome None []
    | Some (State, ResultVal) =>
        if negb (isLoc ResultVal) then mkOutcome None []
        else
          let ParentVal := valueOfExpr (getState C) Parent in
          let OldSym := getAsSymbol ParentVal true in
          let Region := getAsRegion ParentVal in
          let OldValS := match OldSym with
                         | Some _ => GCValueMap State !! OldSym
                         | None => None
                         end in
          match getSymbolForResult Result (bool_decide (is_Some OldValS)) State C with
          | (_, None) => mkOutcome None []
          | (State, Some NewSym) =>
              (* NewSym might already have a better root *)
              let NewValS := GCValueMap State !! Some NewSym in
              let '(State, Inherited) :=
                match Region with
                | Some Region => inheritedState Region State C
                | None => (State, None)
                end in
              match Inherited with
              | Some Updated =>
                  if ResultTracked
                  then mkOutcome (Some (set_GCValueMap (Some NewSym) Updated State)) []
                  else deriveFromParent Result ResultTracked OldSym (Some NewSym)
                         OldValS NewValS State
              | None =>
                  deriveFromParent Result ResultTracked OldSym (Some NewSym)
                    OldValS NewValS State
              end
          end
    end.

(** The branch the subscript and the member callbacks share: the value
    under a registered root is Rooted with [ValS], unless it is Rooted
    at a smaller depth already. [State'] is the state the transition is
    built from. *)
Definition rootUnder (ValS : ValueState.t) (State State' : ProgramState)
    (NewSym : SymExpr) : Outcome :=
  if match GCValueMap State !! Some NewSym with
     | Some Existing =>
         ValueState.isRooted Existing
         && (ValueState.RootDepth Existing <? ValueState.RootDepth ValS)
     | None => false
     end
  then mkOutcome None []
  else mkOutcome (Some (set_GCValueMap (Some NewSym) ValS State')) [].

(** Propagate rootedness through subscript. *)
Definition checkPostStmt_ArraySubscriptExpr (ASE : DExpr) (LHS : DExpr)
    (C : CheckerContext) : Outcome :=
  (* Could be a root array, in which case this should be considered rooted
     by that array. *)
  let State := getState C in
  match getAsRegion (valueOfExpr State LHS) with
  | Some (ElementRegion index super as Region) =>
      if isGCTrackedExpr ASE then
        match GCRootMap State !! Some super with
        | Some RS =>
            let ValS := ValueState.getRooted (Some Region) (to_int (GCDepth State)) in
            match getSymbolForResult ASE true State C with
            | (_, None) => mkOutcome None []
            | (State, Some NewSym) => rootUnder ValS State State NewSym
            end
        | None => checkDerivingExpr ASE LHS C
        end
      else checkDerivingExpr ASE LHS C
  | _ => checkDerivingExpr ASE LHS C
  end.

Definition checkPostStmt_MemberExpr (ME : DExpr) (Base : DExpr) (C : CheckerContext)
    : Outcome :=
  (* It is possible for the member itself to be gcrooted, so check that
     first *)
  let State := getState C in
  let Derive :=
    if negb (isPointerType (typeOf ME)) then mkOutcome None []
    else checkDerivingExpr ME Base C in
  match getAsRegion (valueOfExpr State ME) with
  | Some Region =>
      if isGCTrackedExpr ME then
        match GCRootMap State !! Some Region with
        | Some RS =>
            let ValS := ValueState.getRooted (Some Region) (RootState.RootedAtDepth RS) in
            match getSymbolForResult ME true State C with
            | (_, None) => mkOutcome None []
            | (State, Some NewSym) => rootUnder ValS State (getState C) NewSym
            end
        | None => Derive
        end
      else Derive
  | None => Derive
  end.

(** Implicitly root values that were casted to globally rooted values. *)
Definition checkPostStmt_CStyleCastExpr (CE : DExpr) (typeAsWritten : QualType)
    (C : CheckerContext) : Outcome :=
  if negb (isGloballyRootedType typeAsWritten) then mkOutcome None []
  else
    match getAsSymbol (valueOfExpr (getState C) CE) false with
    | None => mkOutcome None []
    | Some Sym =>
        mkOutcome
          (Some (set_GCValueMap (Some Sym) (ValueState.getRooted None (-1)) (getState C)))
          []
    end.

(** The post-statement callbacks, by the kind of the statement. *)
Definition checkPostStmt (S : DExpr) (C : CheckerContext) : Outcome :=
  match S with
  | CStyleCastExpr _ _ typeAsWritten _ => checkPostStmt_CStyleCastExpr S typeAsWritten C
  | ArraySubscriptExpr _ _ LHS => checkPostStmt_ArraySubscriptExpr S LHS C
  | MemberExpr _ _ base => checkPostStmt_MemberExpr S base C
  | UnaryOperator _ _ UO_Deref sub => checkDerivingExpr S sub C
  | _ => mkOutcome None []
  end.

End Derivation.

(** ** Small programs the properties are exercised on *)
Module Fixtures.
Import AST Analyzer GCChecker.

Definition jl_value_t : QualType :=
  TypedefType (mkTypedef "jl_value_t" []) (TagType "_jl_value_t").
Definition jl_value_p : QualType := PointerType jl_value_t.
Definition jl_value_pp : QualType := PointerType jl_value_p.
Definition void_t : QualType := BuiltinType "void".
Definition int_t : QualType := BuiltinType "int".
Definition int64_t : QualType := TypedefType (mkTypedef "int64_t" []) (BuiltinType "long").

Definition param (name : string) (ty : QualType) (anns : list string) : VarDecl :=
  mkVarDecl name ty anns false true.

Definition func (name : string) (anns : list string) (params : list VarDecl)
    : FunctionDecl :=
  mkFunctionDecl (Some name) anns params 0 false false "/src/julia/src/gf.c".

Definition declOf (fd : FunctionDecl) : Decl := mkDecl [OtherContext] (Some fd) false.

(** An expression of tracked pointer type, and a call of [fd] with the
    arguments [args]. *)
Definition valueExpr (id : StmtId) : Expr := OtherExpr id jl_value_p.
Definition calleeRef (id : StmtId) : Expr := OtherExpr id (PointerType void_t).
Definition callExpr (id : StmtId) (ty : QualType) (fd : FunctionDecl)
    (args : list Expr) : Expr :=
  CallExpr id ty (calleeRef (id + 1000)) (Some (declOf fd)) args.
Definition callOf (id : StmtId) (ty : QualType) (fd : FunctionDecl)
    (args : list Expr) : CallEvent :=
  mkCall (Some (declOf fd)) (Some (callExpr id ty fd args)) (Some <$> args) ty "function".

Definition sym (n : positive) : SymExpr := SymbolConjured n 0.
Definition valueOf (n : positive) : SVal := loc_MemRegionVal (SymbolicRegion (sym n)).

Definition emptyStore : MemRegion → SVal := λ _, UnknownVal.

(** A state with GC and safepoints enabled. *)
Definition stateOf (depth : Z) (values : gmap SymbolRef ValueState.t)
    (roots : gmap MemRegionRef RootState.t) (env : gmap StmtId SVal) : ProgramState :=
  mkState depth unsigned_m1 unsigned_m1 values roots env emptyStore.

Definition here : FunctionDecl := func "caller" [] [].

(** The context of a top frame in [fd]; the callee of a call expression
    is the function its callee refers to. *)
Definition contextIn (fd : FunctionDecl) (st : ProgramState) : CheckerContext :=
  mkContext st (mkFrame (Some fd) None) []
    (λ id ty, loc_MemRegionVal (SymbolicRegion (SymbolConjured id 1)))
    (λ CE, match CE with
           | CallExpr _ _ _ (Some D) _ => d_function D
           | _ => None
           end)
    (λ _, []).
Definition context (st : ProgramState) : CheckerContext := contextIn here st.

(** A function in namespace std, and a call the analyzer has neither a
    declaration nor a call expression for. *)
Definition std_sort : Decl :=
  mkDecl [OtherContext; NamespaceDecl "std"] (Some (func "sort" [] [])) false.
Definition callStd : CallEvent :=
  mkCall (Some std_sort) None [] void_t "function".
Definition callUnresolved : CallEvent :=
  mkCall None None [] void_t "constructor".

(** One value per state of the lattice. *)
Definition fourValues : gmap SymbolRef ValueState.t :=
  <[Some (sym 1) := ValueState.getAllocated]>
  (<[Some (sym 2) := ValueState.getRooted None (-1)]>
  (<[Some (sym 3) := ValueState.getFreed]>
  (<[Some (sym 4) := ValueState.getUntracked]> ∅))).

Definition jl_apply : FunctionDecl := func "jl_apply" [] [param "v" jl_value_p []].

(** [jl_apply(v)] with [v] a value that may have been collected. *)
Definition callFreed : CallEvent := callOf 10 jl_value_p jl_apply [valueExpr 11].
Definition envFreed : gmap StmtId SVal := {[ 11%positive := valueOf 3 ]}.

End Fixtures.

(** ** Properties of the checker *)
Import AST Analyzer GCChecker.

(** *** The classification of calls *)

Lemma isInSystemHeader_unresolved (Call : CallEvent) :
  resolvedDecl Call = None → isInSystemHeader Call = false.
Proof.
  unfold resolvedDecl, isInSystemHeader. destruct (getDecl Call); [discriminate | reflexivity].
Qed.

(** C8. [isSafepoint] answers "not a safepoint" for a call whose declaration
    lies in namespace llvm or std (at any depth of nesting), and "safepoint"
    for a call with no declaration to resolve it to and no callee
    expression. *)
Theorem isSafepoint_namespace_and_unresolved (Call : CallEvent) :
  (∀ D n, resolvedDecl Call = Some D →
          NamespaceDecl n ∈ d_contexts D → n = "llvm" ∨ n = "std" →
          isSafepoint Call = false)
  ∧ (resolvedDecl Call = None → calleeExpr Call = None → isSafepoint Call = true).
Proof.
  split.
  - intros D n HD Hin Hn. unfold isSafepoint.
    destruct (isInSystemHeader Call); [reflexivity|].
    rewrite HD.
    replace (existsb _ (d_contexts D)) with true; [reflexivity|].
    symmetry. apply existsb_exists. exists (NamespaceDecl n). split.
    + by apply list_elem_of_In.
    + unfold StringRef.eqb. destruct Hn as [-> | ->]; reflexivity.
  - intros HD HC. unfold isSafepoint.
    rewrite (isInSystemHeader_unresolved _ HD), HD, HC. reflexivity.
Qed.

Lemma isSafepoint_namespace_and_unresolved_witness :
  isSafepoint Fixtures.callStd = false ∧ isSafepoint Fixtures.callUnresolved = true.
Proof.
  split.
  - apply (proj1 (isSafepoint_namespace_and_unresolved Fixtures.callStd)
             Fixtures.std_sort "std").
    + reflexivity.
    + cbn. apply list_elem_of_further, list_elem_of_here.
    + right. reflexivity.
  - apply (proj2 (isSafepoint_namespace_and_unresolved Fixtures.callUnresolved));
      reflexivity.
Defined.

(** *** Pre-call checks *)

(** C9. With GC disabled in the incoming state, the pre-call check ends at
    once: it adds no transition and asks for no report, whatever the call
    and whatever the states of its arguments. *)
Theorem checkPreCall_gc_disabled (Call : CallEvent) (C : CheckerContext) :
  GCDisabledAt (getState C) ≠ unsigned_m1 →
  checkPreCall Call C = Some (mkOutcome None []).
Proof.
  intros Hdis. unfold checkPreCall, gcEnabledHere.
  destruct (Z.eqb_spec (GCDisabledAt (getState C)) unsigned_m1) as [E|_]; [by destruct Hdis|].
  reflexivity.
Qed.

Definition gcDisabledContext : CheckerContext :=
  Fixtures.context
    (set_GCDisabledAt unsigned_m2
       (Fixtures.stateOf 0 Fixtures.fourValues ∅ Fixtures.envFreed)).

Lemma checkPreCall_gc_disabled_witness :
  GCDisabledAt (getState gcDisabledContext) ≠ unsigned_m1
  ∧ checkPreCall Fixtures.callFreed gcDisabledContext = Some (mkOutcome None []).
Proof.
  assert (H : GCDisabledAt (getState gcDisabledContext) ≠ unsigned_m1)
    by (vm_compute; discriminate).
  split; [exact H | exact (checkPreCall_gc_disabled Fixtures.callFreed _ H)].
Defined.

(** The same call with GC enabled is reported: the silence above comes from
    the GC being disabled. *)
Example checkPreCall_gc_enabled_reports :
  reports <$> checkPreCall Fixtures.callFreed
    (Fixtures.context (Fixtures.stateOf 0 Fixtures.fourValues ∅ Fixtures.envFreed))
  = Some [ValueReport (Some (Fixtures.sym 3)) "Argument value may have been GCed";
          ValueReport (Some (Fixtures.sym 3))
            "Passing non-rooted value as argument to function that may GC"].
Proof. vm_compute. reflexivity. Qed.

(** *** The root frame operations *)

(** A root registered at depth [Depth] in a root map. *)
Definition registeredAt (roots : gmap MemRegionRef RootState.t) (Depth : Z)
    (R : MemRegionRef) : bool :=
  match roots !! R with
  | Some rs => RootState.shouldPopAtDepth rs Depth
  | None => false
  end.

Lemma popRoots_spec (Depth : Z) (AMap : gmap MemRegionRef RootState.t)
    (State : ProgramState) :
  ∃ roots Popped,
    popRoots Depth AMap State = (with_GCRootMap roots State, Popped)
    ∧ (∀ R, roots !! R = if registeredAt AMap (to_int Depth) R then None
                         else GCRootMap State !! R)
    ∧ (∀ R, R ∈ Popped ↔ registeredAt AMap (to_int Depth) R = true).
Proof.
  unfold popRoots.
  apply (map_fold_weak_ind
    (λ (r : ProgramState * list MemRegionRef) m,
       ∃ roots Popped, r = (with_GCRootMap roots State, Popped)
         ∧ (∀ R, roots !! R = if registeredAt m (to_int Depth) R then None
                              else GCRootMap State !! R)
         ∧ (∀ R, R ∈ Popped ↔ registeredAt m (to_int Depth) R = true))).
  - exists (GCRootMap State), []. split; [by destruct State|]. split.
    + intros R. unfold registeredAt. by rewrite lookup_empty.
    + intros R. unfold registeredAt. rewrite lookup_empty. split; [|done].
      intros H. by apply not_elem_of_nil in H.
  - intros i x m r Hi (roots & Popped & -> & Hroots & Hpop).
    assert (Hreg : ∀ R, registeredAt (<[i:=x]> m) (to_int Depth) R
                 = if decide (i = R) then RootState.shouldPopAtDepth x (to_int Depth)
                   else registeredAt m (to_int Depth) R).
    { intros R. unfold registeredAt. rewrite lookup_insert. by destruct (decide (i = R)). }
    assert (Hni : registeredAt m (to_int Depth) i = false).
    { unfold registeredAt. by rewrite Hi. }
    destruct (RootState.shouldPopAtDepth x (to_int Depth)) eqn:Hx; cbn [fst snd].
    + exists (delete i roots), (Popped ++ [i]). split; [reflexivity|]. split.
      * intros R. rewrite Hreg, lookup_delete. destruct (decide (i = R)) as [->|]; [done|].
        apply Hroots.
      * intros R. rewrite Hreg, elem_of_app, list_elem_of_singleton, Hpop.
        destruct (decide (i = R)) as [->|]; [tauto|]. split; [|tauto].
        intros [H|H]; [done|congruence].
    + exists roots, Popped. split; [reflexivity|]. split.
      * intros R. rewrite Hreg. destruct (decide (i = R)) as [<-|]; [|apply Hroots].
        by rewrite Hroots, Hni.
      * intros R. rewrite Hreg, Hpop. destruct (decide (i = R)) as [<-|]; [|done].
        rewrite Hni. done.
Qed.

Lemma unrootValues_spec (R : MemRegionRef) (VMap : gmap SymbolRef ValueState.t)
    (State : ProgramState) :
  ∃ values,
    unrootValues R VMap State = with_GCValueMap values State
    ∧ ∀ Sym, values !! Sym =
        match VMap !! Sym with
        | Some vs => if ValueState.isRootedBy vs R then Some ValueState.getAllocated
                     else GCValueMap State !! Sym
        | None => GCValueMap State !! Sym
        end.
Proof.
  unfold unrootValues.
  apply (map_fold_weak_ind
    (λ (r : ProgramState) m,
       ∃ values, r = with_GCValueMap values State
         ∧ ∀ Sym, values !! Sym =
             match m !! Sym with
             | Some vs => if ValueState.isRootedBy vs R then Some ValueState.getAllocated
                          else GCValueMap State !! Sym
             | None => GCValueMap State !! Sym
             end)).
  - exists (GCValueMap State). split; [by destruct State|].
    intros Sym. by rewrite lookup_empty.
  - intros i x m r Hi (values & -> & Hvalues).
    destruct (ValueState.isRootedBy x R) eqn:Hx.
    + exists (<[i := ValueState.getAllocated]> values). split; [reflexivity|].
      intros Sym. rewrite !lookup_insert. destruct (decide (i = Sym)) as [->|].
      * by rewrite Hx.
      * apply Hvalues.
    + exists values. split; [reflexivity|].
      intros Sym. rewrite lookup_insert. destruct (decide (i = Sym)) as [<-|].
      * by rewrite Hx, Hvalues, Hi.
      * apply Hvalues.
Qed.

Lemma unrootAll_spec (Popped : list MemRegionRef) (VMap : gmap SymbolRef ValueState.t)
    (State : ProgramState) :
  ∃ values,
    foldl (λ State R, unrootValues R VMap State) State Popped
      = with_GCValueMap values State
    ∧ ∀ Sym, values !! Sym =
        match VMap !! Sym with
        | Some vs => if existsb (ValueState.isRootedBy vs) Popped
                     then Some ValueState.getAllocated
                     else GCValueMap State !! Sym
        | None => GCValueMap State !! Sym
        end.
Proof.
  revert State. induction Popped as [|R Popped IH]; intros State; cbn [foldl existsb].
  - exists (GCValueMap State). split; [by destruct State|].
    intros Sym. by destruct (VMap !! Sym).
  - destruct (unrootValues_spec R VMap State) as (v1 & -> & Hv1).
    destruct (IH (with_GCValueMap v1 State)) as (v2 & -> & Hv2).
    exists v2. split; [reflexivity|].
    intros Sym. rewrite Hv2. cbn [GCValueMap with_GCValueMap]. rewrite Hv1.
    destruct (VMap !! Sym) as [vs|]; [|reflexivity].
    destruct (ValueState.isRootedBy vs R); cbn [orb]; [|reflexivity].
    by destruct (existsb _ Popped).
Qed.

Lemma existsb_isRootedBy (vs : ValueState.t) (Popped : list MemRegionRef)
    (roots : gmap MemRegionRef RootState.t) (Depth : Z) :
  (∀ R, R ∈ Popped ↔ registeredAt roots Depth R = true) →
  existsb (ValueState.isRootedBy vs) Popped
  = ValueState.isRooted vs && registeredAt roots Depth (ValueState.Root vs).
Proof.
  intros HP. apply eq_true_iff_eq. rewrite existsb_exists, andb_true_iff. split.
  - intros (R & Hin & HR). unfold ValueState.isRootedBy in HR.
    apply andb_true_iff in HR as [Hr HR]. apply bool_decide_eq_true in HR as <-.
    split; [exact Hr|]. apply HP. by apply list_elem_of_In.
  - intros [Hr Hreg]. exists (ValueState.Root vs). split.
    + apply list_elem_of_In, HP, Hreg.
    + unfold ValueState.isRootedBy. rewrite Hr. cbn. by apply bool_decide_eq_true.
Qed.

(** What JL_GC_POP leaves of a value state once the roots registered at
    [Depth] are gone. *)
Definition afterPop (roots : gmap MemRegionRef RootState.t) (Depth : Z)
    (vs : ValueState.t) : ValueState.t :=
  if ValueState.isRooted vs && registeredAt roots Depth (ValueState.Root vs)
  then ValueState.getAllocated else vs.

Lemma evalPop_spec (C : CheckerContext) :
  let st := getState C in
  let NewDepth := GCDepth st - 1 in
  GCDepth st ≠ 0 →
  ∃ st', evalPop C = mkOutcome (Some st') []
    ∧ GCDepth st' = NewDepth
    ∧ (∀ R, GCRootMap st' !! R =
            if registeredAt (GCRootMap st) (to_int NewDepth) R then None
            else GCRootMap st !! R)
    ∧ (∀ Sym, GCValueMap st' !! Sym
              = afterPop (GCRootMap st) (to_int NewDepth) <$> GCValueMap st !! Sym)
    ∧ GCDisabledAt st' = GCDisabledAt st
    ∧ SafepointDisabledAt st' = SafepointDisabledAt st
    ∧ Env st' = Env st ∧ Store st' = Store st.
Proof.
  intros st NewDepth Hd. unfold evalPop. fold st.
  destruct (Z.eqb_spec (GCDepth st) 0) as [E|_]; [done|]. fold NewDepth.
  destruct (popRoots_spec NewDepth (GCRootMap (set_GCDepth NewDepth st))
              (set_GCDepth NewDepth st)) as (roots & Popped & -> & Hroots & Hpop).
  destruct (unrootAll_spec Popped
              (GCValueMap (with_GCRootMap roots (set_GCDepth NewDepth st)))
              (with_GCRootMap roots (set_GCDepth NewDepth st)))
    as (values & -> & Hvalues).
  eexists. split; [reflexivity|]. cbn.
  repeat split; try done.
  intros Sym. rewrite Hvalues. cbn.
  destruct (GCValueMap st !! Sym) as [vs|]; [|reflexivity]. cbn.
  unfold afterPop. rewrite (existsb_isRootedBy vs Popped _ _ Hpop).
  by destruct (_ && _).
Qed.

Lemma evalCall_named (Call : CallEvent) (C : CheckerContext) id ty callee cd args :
  getOriginExpr Call = Some (CallExpr id ty callee cd args) →
  ∀ name, getCalleeName C (CallExpr id ty callee cd args) = name →
  (name = "JL_GC_POP" → evalCall Call C = Some (true, evalPop C))
  ∧ (name = "JL_GC_PROMISE_ROOTED" →
       evalCall Call C = pair true <$> evalPromiseRooted C args)
  ∧ (name = "jl_gc_enable" ∨ name = "ijl_gc_enable" →
       evalCall Call C
       = pair true <$> evalGcEnable C (CallExpr id ty callee cd args) args).
Proof.
  intros HO name Hname. unfold evalCall. rewrite HO. cbn [mbind option_bind].
  rewrite Hname. repeat split.
  - intros ->. reflexivity.
  - intros ->. reflexivity.
  - intros [-> | ->]; reflexivity.
Qed.

(** A depth below 2^31 is the same number as an [int]. *)
Lemma to_int_small (u : Z) : 0 ≤ u < 2 ^ 31 → to_int u = u.
Proof. intros H. unfold to_int. destruct (Z.ltb_spec u (2 ^ 31)); [reflexivity | lia]. Qed.

(** C3. JL_GC_POP. At depth 0 the call is evaluated with the report
    "JL_GC_POP without corresponding push" and without a transition: the
    state stays as it is. At a depth above 0 the transition decrements the
    depth, removes exactly the roots registered at the new depth (the depth
    as the [int] the root states hold, see [to_int_small]), and turns exactly
    the values that are
    Rooted by one of the removed regions into Allocated; no value of the
    new state is Rooted by a region that was registered at the popped depth.
    Nothing else changes. *)
Theorem evalCall_JL_GC_POP (Call : CallEvent) (C : CheckerContext)
    id ty callee cd args :
  getOriginExpr Call = Some (CallExpr id ty callee cd args) →
  getCalleeName C (CallExpr id ty callee cd args) = "JL_GC_POP" →
  let st := getState C in
  let NewDepth := GCDepth st - 1 in
  (GCDepth st = 0 →
     evalCall Call C
     = Some (true, mkOutcome None [Report "JL_GC_POP without corresponding push"]))
  ∧ (0 < GCDepth st →
     ∃ st', evalCall Call C = Some (true, mkOutcome (Some st') [])
       ∧ GCDepth st' = NewDepth
       ∧ (∀ R, GCRootMap st' !! R =
               rs ← GCRootMap st !! R;
               if RootState.RootedAtDepth rs =? to_int NewDepth then None else Some rs)
       ∧ (∀ Sym, GCValueMap st' !! Sym
                 = afterPop (GCRootMap st) (to_int NewDepth) <$> GCValueMap st !! Sym)
       ∧ (∀ Sym vs R rs,
            GCValueMap st' !! Sym = Some vs →
            GCRootMap st !! R = Some rs →
            RootState.RootedAtDepth rs = to_int NewDepth →
            ValueState.isRootedBy vs R = false)
       ∧ GCDisabledAt st' = GCDisabledAt st
       ∧ SafepointDisabledAt st' = SafepointDisabledAt st
       ∧ Env st' = Env st ∧ Store st' = Store st).
Proof.
  intros HO Hname st NewDepth.
  destruct (evalCall_named Call C id ty callee cd args HO _ Hname) as (Hpop & _).
  rewrite (Hpop eq_refl). split.
  - intros H0. unfold evalPop. fold st. rewrite H0. reflexivity.
  - intros Hpos.
    destruct (evalPop_spec C) as (st' & -> & Hd & Hr & Hv & Hrest); [fold st; lia|].
    exists st'. split; [reflexivity|]. split; [exact Hd|].
    fold st in Hr, Hv, Hrest. fold NewDepth in Hr, Hv.
    split; [|split; [exact Hv|split; [|exact Hrest]]].
    + intros R. rewrite Hr. unfold registeredAt, RootState.shouldPopAtDepth.
      destruct (GCRootMap st !! R) as [rs|]; [|reflexivity]. cbn.
      rewrite (Z.eqb_sym (to_int NewDepth)). by destruct (_ =? _).
    + intros Sym vs R rs Hvs HR Hdepth. rewrite Hv in Hvs.
      destruct (GCValueMap st !! Sym) as [vs0|]; [|discriminate].
      injection Hvs as <-. unfold afterPop.
      destruct (ValueState.isRooted vs0 && _) eqn:Hpopped; [reflexivity|].
      unfold ValueState.isRootedBy.
      destruct (ValueState.isRooted vs0); [|reflexivity]. cbn in *.
      apply bool_decide_eq_false. intros ->.
      unfold registeredAt, RootState.shouldPopAtDepth in Hpopped.
      rewrite HR, Hdepth, Z.eqb_refl in Hpopped. discriminate.
Qed.

Module PopExample.
Import Fixtures.

Definition popCall : CallEvent := callOf 20 void_t (func "JL_GC_POP" [] []) [].

Definition slot (name : string) : MemRegion :=
  VarRegion (mkVarDecl name jl_value_p [] false false).

(** Two frames: [x] pushed at depth 1 roots value 1, [y] pushed at depth 0
    roots value 2, value 3 is not rooted. *)
Definition framed : ProgramState :=
  stateOf 2
    (<[Some (sym 1) := ValueState.getRooted (Some (slot "x")) 1]>
     (<[Some (sym 2) := ValueState.getRooted (Some (slot "y")) 0]>
     (<[Some (sym 3) := ValueState.getAllocated]> ∅)))
    (<[Some (slot "x") := RootState.getRoot 1]>
     (<[Some (slot "y") := RootState.getRoot 0]> ∅))
    ∅.

Definition unframed : ProgramState := stateOf 0 ∅ ∅ ∅.
End PopExample.

Lemma evalCall_JL_GC_POP_witness :
  evalCall PopExample.popCall (Fixtures.context PopExample.unframed)
  = Some (true, mkOutcome None [Report "JL_GC_POP without corresponding push"])
  ∧ ∃ st',
      evalCall PopExample.popCall (Fixtures.context PopExample.framed)
      = Some (true, mkOutcome (Some st') [])
      ∧ GCDepth st' = 1
      ∧ GCRootMap st' !! Some (PopExample.slot "x") = None
      ∧ GCRootMap st' !! Some (PopExample.slot "y") = Some (RootState.getRoot 0)
      ∧ GCValueMap st' !! Some (Fixtures.sym 1) = Some ValueState.getAllocated
      ∧ GCValueMap st' !! Some (Fixtures.sym 2)
        = Some (ValueState.getRooted (Some (PopExample.slot "y")) 0).
Proof.
  split.
  - refine (proj1 (evalCall_JL_GC_POP PopExample.popCall
                     (Fixtures.context PopExample.unframed) _ _ _ _ _ eq_refl eq_refl) _).
    reflexivity.
  - destruct (proj2 (evalCall_JL_GC_POP PopExample.popCall
                       (Fixtures.context PopExample.framed) _ _ _ _ _ eq_refl eq_refl))
      as (st' & Hev & Hd & Hr & Hv & _).
    { vm_compute. reflexivity. }
    exists st'. split; [exact Hev|]. split; [exact Hd|].
    rewrite !Hr, !Hv. vm_compute. repeat split.
Defined.



(** *** JL_GC_PROMISE_ROOTED *)

Lemma unlockSafepoints_in_function (Call : CallEvent) (C : CheckerContext) :
  is_Some (sf_decl (cc_frame C)) →
  ∃ State Added, unlockSafepoints Call C = Some (State, Added)
    ∧ GCValueMap State = GCValueMap (getState C).
Proof.
  intros [Here HHere]. unfold unlockSafepoints. rewrite HHere.
  destruct (_ || _); [|by eauto].
  destruct (_ =? _); [|by eauto].
  destruct (negb _); by eauto.
Qed.

(** C10. A direct call of JL_GC_PROMISE_ROOTED made inside a function.
    Before the call no argument is checked: the only report the pre-call
    check can ask for is the one about a safepoint reached with safepoints
    disabled, whatever the states of the arguments (PotentiallyFreed
    included). The call itself is evaluated by the checker: an argument with
    a symbol gets the state Rooted(null, -1) and nothing is reported; an
    argument without one gets the report "Can not understand this promise."
    and no transition. *)
Theorem JL_GC_PROMISE_ROOTED_exempt (Call : CallEvent) (C : CheckerContext)
    (fd : FunctionDecl) id ty callee cd args (A : Expr) :
  calleeFunction Call = Some fd →
  fd_name fd = Some "JL_GC_PROMISE_ROOTED" →
  is_Some (sf_decl (cc_frame C)) →
  getOriginExpr Call = Some (CallExpr id ty callee cd args) →
  getCalleeName C (CallExpr id ty callee cd args) = "JL_GC_PROMISE_ROOTED" →
  args !! 0%nat = Some A →
  (∃ out, checkPreCall Call C = Some out
     ∧ ∀ r, r ∈ reports out → r = Report (safepointViolationMessage Call))
  ∧ evalCall Call C
    = Some (true,
            match getAsSymbol (getSVal (getState C) A) false with
            | Some Sym =>
                mkOutcome
                  (Some (set_GCValueMap (Some Sym) (ValueState.getRooted None (-1))
                                        (getState C))) []
            | None => mkOutcome None [Report "Can not understand this promise."]
            end).
Proof.
  intros Hfd Hname Hfun HO HN HA. split.
  - unfold checkPreCall.
    destruct (negb (gcEnabledHere (getState C))).
    { eexists. split; [reflexivity|]. intros r Hr. by apply not_elem_of_nil in Hr. }
    destruct (unlockSafepoints_in_function Call C Hfun) as (State & Added & -> & _).
    cbn [mbind option_bind].
    destruct (safepointViolation Call State).
    { eexists. split; [reflexivity|]. intros r Hr. cbn in Hr.
      by apply list_elem_of_singleton in Hr. }
    unfold isPromiseRooted. rewrite Hfd, Hname. cbn.
    eexists. split; [reflexivity|]. intros r Hr. by apply not_elem_of_nil in Hr.
  - destruct (evalCall_named Call C id ty callee cd args HO _ HN) as (_ & Hp & _).
    rewrite (Hp eq_refl). unfold evalPromiseRooted. rewrite HA. cbn.
    by destruct (getAsSymbol _ _).
Qed.

Module PromiseExample.
Import Fixtures.

Definition JL_GC_PROMISE_ROOTED : FunctionDecl :=
  func "JL_GC_PROMISE_ROOTED" ["julia_not_safepoint"] [param "v" (PointerType void_t) []].

(** [JL_GC_PROMISE_ROOTED(v)] with [v] a value that may have been
    collected. *)
Definition promiseCall : CallEvent :=
  callOf 30 void_t JL_GC_PROMISE_ROOTED [valueExpr 11].

Definition freed : CheckerContext := context (stateOf 0 fourValues ∅ envFreed).

End PromiseExample.

Lemma JL_GC_PROMISE_ROOTED_exempt_witness :
  (∃ out, checkPreCall PromiseExample.promiseCall PromiseExample.freed = Some out
     ∧ reports out = [])
  ∧ evalCall PromiseExample.promiseCall PromiseExample.freed
    = Some (true,
            mkOutcome
              (Some (set_GCValueMap (Some (Fixtures.sym 3))
                       (ValueState.getRooted None (-1))
                       (getState PromiseExample.freed))) []).
Proof.
  destruct (JL_GC_PROMISE_ROOTED_exempt PromiseExample.promiseCall PromiseExample.freed
              PromiseExample.JL_GC_PROMISE_ROOTED _ _ _ _ _ (Fixtures.valueExpr 11)
              eq_refl eq_refl (ex_intro _ _ eq_refl) eq_refl eq_refl eq_refl)
    as [(out & Hout & _) Heval].
  split.
  - exists out. split; [exact Hout|].
    vm_compute in Hout. injection Hout as <-. reflexivity.
  - exact Heval.
Defined.

(** *** jl_gc_enable *)

(** C6, as the code has it. [jl_gc_enable] (or [ijl_gc_enable]) with a
    literal argument is evaluated by the checker: a zero argument sets
    GCDisabledAt to the fixed marker [(unsigned)-2], which is no stack height
    the function exit compares with, any other argument sets it to the
    enabled marker [(unsigned)-1]; the value of the call expression is bound
    to the truth value of "GC was enabled before the call"; the depth, the
    safepoint marker, the two maps and the store stay as they are. *)
Theorem evalCall_jl_gc_enable (Call : CallEvent) (C : CheckerContext)
    id ty callee cd args (A : Expr) (Val : Z) :
  let CE := CallExpr id ty callee cd args in
  getOriginExpr Call = Some CE →
  getCalleeName C CE = "jl_gc_enable" ∨ getCalleeName C CE = "ijl_gc_enable" →
  args !! 0%nat = Some A →
  getSVal (getState C) A = nonloc_ConcreteInt Val →
  ∃ st', evalCall Call C = Some (true, mkOutcome (Some st') [])
    ∧ GCDisabledAt st' = (if Val =? 0 then unsigned_m2 else unsigned_m1)
    ∧ gcEnabledHere st' = negb (Val =? 0)
    ∧ getSVal st' CE = makeTruthVal (gcEnabledHere (getState C))
    ∧ GCDepth st' = GCDepth (getState C)
    ∧ SafepointDisabledAt st' = SafepointDisabledAt (getState C)
    ∧ GCValueMap st' = GCValueMap (getState C)
    ∧ GCRootMap st' = GCRootMap (getState C)
    ∧ Store st' = Store (getState C).
Proof.
  intros CE HO HN HA HV.
  destruct (evalCall_named Call C id ty callee cd args HO _ eq_refl) as (_ & _ & He).
  rewrite (He HN). fold CE. unfold evalGcEnable. rewrite HA. cbn [mbind option_bind].
  rewrite HV. cbn [asConcreteInt mbind option_bind fmap option_fmap option_map].
  eexists. split; [reflexivity|].
  unfold getSVal, BindExpr. cbn [Env]. rewrite lookup_insert_eq.
  destruct (Val =? 0); cbn; repeat split.
Qed.

Module GcEnableExample.
Import Fixtures.

Definition jl_gc_enable : FunctionDecl := func "jl_gc_enable" [] [param "on" int_t []].

(** [jl_gc_enable(0)] in a top frame, with GC enabled. *)
Definition disableCall : CallEvent :=
  callOf 40 int_t jl_gc_enable [OtherExpr 41 int_t].

Definition enabled : CheckerContext :=
  context (stateOf 0 ∅ ∅ {[ 41%positive := nonloc_ConcreteInt 0 ]}).

End GcEnableExample.

Lemma evalCall_jl_gc_enable_witness :
  ∃ st', evalCall GcEnableExample.disableCall GcEnableExample.enabled
         = Some (true, mkOutcome (Some st') [])
    ∧ GCDisabledAt st' = unsigned_m2
    ∧ Env st' !! 40%positive = Some (nonloc_ConcreteInt 1).
Proof.
  destruct (evalCall_jl_gc_enable GcEnableExample.disableCall GcEnableExample.enabled
              _ _ _ _ _ (OtherExpr 41 Fixtures.int_t) 0
              eq_refl (or_introl eq_refl) eq_refl eq_refl)
    as (st' & Hev & Hd & _ & Hret & _).
  exists st'. split; [exact Hev|]. split; [exact Hd|].
  vm_compute in Hev. injection Hev as <-. reflexivity.
Defined.

(** C6 as the claim has it fails: disabling the GC at stack height 1 does
    not record the height 1 but the marker 4294967294. *)
Lemma jl_gc_enable_not_at_stack_height :
  getStackFrameHeight GcEnableExample.enabled = 1
  ∧ ∃ st', evalCall GcEnableExample.disableCall GcEnableExample.enabled
           = Some (true, mkOutcome (Some st') [])
      ∧ GCDisabledAt st' = 4294967294
      ∧ GCDisabledAt st' ≠ getStackFrameHeight GcEnableExample.enabled.
Proof.
  split; [reflexivity|]. eexists. split; [vm_compute; reflexivity|].
  split; [reflexivity|]. vm_compute. discriminate.
Qed.


(** *** The safepoint effect *)

(** The recursion [walkRegion] is the loop of [walkToRoot]: the symbol of
    the symbolic base of the region is tried, and the walk goes on from the
    region that symbol comes from. *)
Lemma walkRegion_getSymbolicBase (f : SymExpr → option ValueState.t → bool)
    (State : ProgramState) (Region : MemRegion) :
  walkRegion f State Region
  = match getSymbolicBase Region with
    | None => None
    | Some Sym =>
        if f Sym (GCValueMap State !! Some Sym)
        then match Sym with
             | SymbolRegionValue r | SymbolDerived _ r => walkRegion f State r
             | SymbolConjured _ _ => None
             end
        else Some Sym
    end.
Proof.
  induction Region as [vd|Sym|field sup IH|index sup IH]; cbn; try done.
  by destruct Sym.
Qed.

(** The values a safepoint frees: the unrooted ones other than the two
    spared symbols. *)
Definition freedAtSafepoint (Special RetSym Sym : SymbolRef) (vs : ValueState.t) : bool :=
  ValueState.isJustAllocated vs
  && negb (bool_decide (Special = Sym)) && negb (bool_decide (RetSym = Sym)).

Lemma freeUnrooted_spec (Special RetSym : SymbolRef)
    (AMap : gmap SymbolRef ValueState.t) (State : ProgramState) :
  ∃ values DidChange,
    freeUnrooted Special RetSym AMap State = (with_GCValueMap values State, DidChange)
    ∧ ∀ Sym, values !! Sym =
        match AMap !! Sym with
        | Some vs => if freedAtSafepoint Special RetSym Sym vs
                     then Some ValueState.getFreed else GCValueMap State !! Sym
        | None => GCValueMap State !! Sym
        end.
Proof.
  unfold freeUnrooted.
  apply (map_fold_weak_ind
    (λ (r : ProgramState * bool) m,
       ∃ values DidChange, r = (with_GCValueMap values State, DidChange)
         ∧ ∀ Sym, values !! Sym =
             match m !! Sym with
             | Some vs => if freedAtSafepoint Special RetSym Sym vs
                          then Some ValueState.getFreed else GCValueMap State !! Sym
             | None => GCValueMap State !! Sym
             end)).
  - exists (GCValueMap State), false. split; [by destruct State|].
    intros Sym. by rewrite lookup_empty.
  - intros i x m r Hi (values & DidChange & -> & Hvalues).
    assert (Hkeep : freedAtSafepoint Special RetSym i x = false →
              ∀ Sym, values !! Sym =
                match <[i:=x]> m !! Sym with
                | Some vs => if freedAtSafepoint Special RetSym Sym vs
                             then Some ValueState.getFreed else GCValueMap State !! Sym
                | None => GCValueMap State !! Sym
                end).
    { intros Hx Sym. rewrite lookup_insert. destruct (decide (i = Sym)) as [<-|].
      - by rewrite Hx, Hvalues, Hi.
      - apply Hvalues. }
    unfold freedAtSafepoint in Hkeep.
    destruct (ValueState.isJustAllocated x) eqn:Hx; [|by eauto].
    destruct (bool_decide (Special = i)) eqn:Hs; [by eauto|].
    destruct (bool_decide (RetSym = i)) eqn:Hr; [by eauto|].
    cbn [fst]. exists (<[i := ValueState.getFreed]> values), true.
    split; [reflexivity|].
    intros Sym. rewrite !lookup_insert. destruct (decide (i = Sym)) as [<-|].
    + unfold freedAtSafepoint. by rewrite Hx, Hs, Hr.
    + apply Hvalues.
Qed.

(** Where [SpeciallyRootedSymbol] comes from: the argument of a parameter
    annotated "julia_temporarily_roots", either loaded through it (an out
    parameter) or walked back from it to the symbol that is tracked. *)
Definition temporarilyRooted (Call : CallEvent) (C : CheckerContext)
    (State : ProgramState) (params : list VarDecl) (Sym : SymbolRef) : Prop :=
  ∃ i P,
    params !! i = Some P
    ∧ declHasAnnotation P "julia_temporarily_roots" = true
    ∧ let Arg := getArgSVal (getState C) Call i in
      Sym = getAsSymbol (getSValLoc State Arg) false
      ∨ Sym = walkToRoot hasNoState State (getAsRegion Arg).

Lemma findSpeciallyRooted_origin (Call : CallEvent) (C : CheckerContext)
    (State : ProgramState) (params : list VarDecl) :
  ∀ (done : list VarDecl) (cur Special : SymbolRef),
    findSpeciallyRooted C State Call params (length done) cur = Some Special →
    Special = cur ∨ temporarilyRooted Call C State (done ++ params) Special.
Proof.
  induction params as [|P rest IH]; intros done cur Special; cbn [findSpeciallyRooted].
  - intros [= <-]. by left.
  - assert (Hat : (done ++ P :: rest) !! length done = Some P)
      by (by rewrite lookup_app_r, Nat.sub_diag by lia).
    assert (Hnext : ∀ cur',
              findSpeciallyRooted C State Call rest (S (length done)) cur' = Some Special →
              Special = cur' ∨ temporarilyRooted Call C State (done ++ P :: rest) Special).
    { intros cur' H. specialize (IH (done ++ [P]) cur' Special).
      rewrite length_app, Nat.add_1_r, <- app_assoc in IH. exact (IH H). }
    destruct (declHasAnnotation P "julia_temporarily_roots") eqn:Hann; [|apply Hnext].
    destruct (isTrackedOutParam (vd_type P)).
    + destruct (isLoc _); [|discriminate]. intros H.
      destruct (Hnext _ H) as [-> | Hlater]; [|by right].
      right. exists (length done), P. split; [exact Hat|]. split; [exact Hann|]. by left.
    + intros [= <-]. right. exists (length done), P.
      split; [exact Hat|]. split; [exact Hann|]. by right.
Qed.

(** C1. A call classified as a safepoint, with GC enabled. The safepoint
    step of the post-call handler turns every value that is Allocated into
    PotentiallyFreed, except the symbol of the call's return value and the
    one symbol the loop over the "julia_temporarily_roots" parameters has
    picked, which keep their state; values in any other state (Rooted,
    PotentiallyFreed, Untracked) are unchanged, and no value is added. The
    spared symbol, when there is one, comes from the argument of a parameter
    with that annotation. (The loop that picks it is taken to end: the
    argument of an annotated out parameter is a location.) *)
Theorem processPotentialSafepoint_frees_unrooted (Call : CallEvent)
    (C : CheckerContext) (State : ProgramState) (Special : SymbolRef) :
  isSafepoint Call = true →
  gcEnabledHere (getState C) = true →
  speciallyRootedSymbol Call C State = Some Special →
  ∃ State' DidChange,
    processPotentialSafepoint Call C State = Some (State', DidChange)
    ∧ (∀ Sym vs,
         GCValueMap State !! Sym = Some vs →
         (ValueState.S vs = ValueState.Allocated →
          Sym ≠ returnSymbol Call C → Sym ≠ Special →
          GCValueMap State' !! Sym = Some ValueState.getFreed)
         ∧ (Sym = returnSymbol Call C ∨ Sym = Special →
            GCValueMap State' !! Sym = Some vs)
         ∧ (ValueState.S vs ≠ ValueState.Allocated →
            GCValueMap State' !! Sym = Some vs))
    ∧ (∀ Sym, GCValueMap State !! Sym = None → GCValueMap State' !! Sym = None)
    ∧ (∀ Sym, Special = Some Sym →
         ∃ fd, calleeFunction Call = Some fd
               ∧ temporarilyRooted Call C State (fd_params fd) Special).
Proof.
  intros Hsafe Hgc Hspecial. unfold processPotentialSafepoint.
  rewrite Hsafe, Hgc, Hspecial. cbn [negb mbind option_bind].
  destruct (freeUnrooted_spec Special (returnSymbol Call C) (GCValueMap State) State)
    as (values & DidChange & -> & Hvalues).
  exists (with_GCValueMap values State), DidChange. split; [reflexivity|].
  cbn [GCValueMap with_GCValueMap]. split; [|split].
  - intros Sym vs Hvs. specialize (Hvalues Sym). rewrite Hvs in Hvalues.
    unfold freedAtSafepoint, ValueState.isJustAllocated in Hvalues.
    repeat split.
    + intros Ha Hret Hsp. rewrite Hvalues.
      rewrite (bool_decide_eq_true_2 _ Ha).
      rewrite (bool_decide_eq_false_2 (Special = Sym)) by congruence.
      by rewrite (bool_decide_eq_false_2 (returnSymbol Call C = Sym)) by congruence.
    + intros Hsp. rewrite Hvalues.
      destruct (bool_decide (ValueState.S vs = ValueState.Allocated)); [|done].
      destruct Hsp as [-> | ->].
      * rewrite (bool_decide_eq_true_2 (returnSymbol Call C = _)) by done.
        by rewrite andb_false_r.
      * by rewrite (bool_decide_eq_true_2 (Special = Special)) by done.
    + intros Hna. rewrite Hvalues. by rewrite (bool_decide_eq_false_2 _ Hna).
  - intros Sym Hnone. rewrite Hvalues. by rewrite Hnone.
  - intros Sym ->. unfold speciallyRootedSymbol in Hspecial. unfold calleeFunction.
    destruct (getDecl Call ≫= d_function) as [fd|]; [|discriminate].
    exists fd. split; [reflexivity|].
    destruct (findSpeciallyRooted_origin Call C State (fd_params fd) [] None _ Hspecial)
      as [H|H]; [discriminate | exact H].
Qed.


Module SafepointExample.
Import Fixtures.

(** A function that may collect and keeps its argument alive for the time
    of the call. *)
Definition jl_invoke : FunctionDecl :=
  func "jl_invoke" [] [param "f" jl_value_p ["julia_temporarily_roots"]].

(** [r = jl_invoke(f)]: value 5 is the argument, value 6 the result. *)
Definition invoke : CallEvent := callOf 50 jl_value_p jl_invoke [valueExpr 51].

Definition before : ProgramState :=
  stateOf 0
    (<[Some (sym 5) := ValueState.getAllocated]>
     (<[Some (sym 6) := ValueState.getAllocated]> fourValues))
    ∅
    (<[51%positive := valueOf 5]> {[ 50%positive := valueOf 6 ]}).

End SafepointExample.

Lemma processPotentialSafepoint_frees_unrooted_witness :
  ∃ State' DidChange,
    processPotentialSafepoint SafepointExample.invoke
      (Fixtures.context SafepointExample.before) SafepointExample.before
    = Some (State', DidChange)
    ∧ GCValueMap State' !! Some (Fixtures.sym 1) = Some ValueState.getFreed
    ∧ GCValueMap State' !! Some (Fixtures.sym 2) = Some (ValueState.getRooted None (-1))
    ∧ GCValueMap State' !! Some (Fixtures.sym 3) = Some ValueState.getFreed
    ∧ GCValueMap State' !! Some (Fixtures.sym 4) = Some ValueState.getUntracked
    ∧ GCValueMap State' !! Some (Fixtures.sym 5) = Some ValueState.getAllocated
    ∧ GCValueMap State' !! Some (Fixtures.sym 6) = Some ValueState.getAllocated.
Proof.
  destruct (processPotentialSafepoint_frees_unrooted SafepointExample.invoke
              (Fixtures.context SafepointExample.before) SafepointExample.before
              (Some (Fixtures.sym 5)) eq_refl eq_refl eq_refl)
    as (State' & DidChange & Hrun & Hvalues & _).
  exists State', DidChange. split; [exact Hrun|].
  repeat split.
  - apply (proj1 (Hvalues (Some (Fixtures.sym 1)) ValueState.getAllocated eq_refl));
      [reflexivity | vm_compute; discriminate | discriminate].
  - apply (proj2 (proj2 (Hvalues (Some (Fixtures.sym 2)) _ eq_refl))). discriminate.
  - apply (proj2 (proj2 (Hvalues (Some (Fixtures.sym 3)) _ eq_refl))). discriminate.
  - apply (proj2 (proj2 (Hvalues (Some (Fixtures.sym 4)) _ eq_refl))). discriminate.
  - apply (proj1 (proj2 (Hvalues (Some (Fixtures.sym 5)) _ eq_refl))). by right.
  - apply (proj1 (proj2 (Hvalues (Some (Fixtures.sym 6)) _ eq_refl))). by left.
Defined.


(** *** The state of a call's result: the boxing functions *)

Lemma boxGloballyRooted_signed (FDName : string) (Value : Z) :
  isUnsignedBoxFunction FDName = false →
  boxGloballyRooted FDName Value = true ↔ -512 < Value ∧ Value < 512.
Proof.
  intros Hs. unfold boxGloballyRooted. rewrite Hs.
  change (- NBOX_C / 2) with (-512). change (NBOX_C - NBOX_C / 2) with 512.
  destruct (Z.ltb_spec (-512) Value), (Z.ltb_spec Value 512); cbn; split;
    intros; (discriminate || lia || reflexivity).
Qed.

Lemma boxGloballyRooted_unsigned (FDName : string) (Value : Z) :
  isUnsignedBoxFunction FDName = true →
  boxGloballyRooted FDName Value = true ↔ Value < 1024.
Proof.
  intros Hu. unfold boxGloballyRooted, NBOX_C. rewrite Hu.
  destruct (Z.ltb_spec Value 1024); split; intros; (discriminate || lia || reflexivity).
Qed.

(** The result of a boxing function called with a literal: globally rooted
    when [boxGloballyRooted] says so, and otherwise left as a fresh
    allocation. *)
Lemma processAllocationOfResult_box (Call : CallEvent) (C : CheckerContext)
    (State : ProgramState) (fd : FunctionDecl) (FDName : string) (Value : Z)
    (Origin : Expr) (Sym : SymExpr) :
  isGCTrackedType (getResultType Call) = true →
  isGloballyRootedType (getResultType Call) = false →
  getOriginExpr Call = Some Origin →
  getAsSymbol (getReturnValue (getState C) Call) false = Some Sym →
  calleeFunction Call = Some fd →
  declHasAnnotation fd "julia_globally_rooted" = false →
  fd_name fd = Some FDName →
  isBoxFunction FDName = true →
  getArgSVal (getState C) Call 0 = nonloc_ConcreteInt Value →
  GCValueMap State !! Some Sym = None →
  processAllocationOfResult Call C State
  = (set_GCValueMap (Some Sym)
       (if boxGloballyRooted FDName Value
        then ValueState.getRooted None (-1) else ValueState.getAllocated) State,
     true).
Proof.
  intros Ht Hg HO HS Hfd Hann Hname Hbox Harg Hnew.
  unfold processAllocationOfResult. rewrite Ht, HO, HS, Hg. cbn [negb].
  unfold resultState. unfold calleeFunction in Hfd. rewrite Hfd, Hann, Hname.
  change (default "" (Some FDName)) with FDName.
  rewrite Hbox, Harg, Hnew. reflexivity.
Qed.

Module BoxExample.
Import Fixtures.

Definition jl_box_int64 : FunctionDecl := func "jl_box_int64" [] [param "x" int64_t []].
Definition jl_box_uint64 : FunctionDecl := func "jl_box_uint64" [] [param "x" int64_t []].

(** [r = box(literal)]: value 7 is the result. *)
Definition box (fd : FunctionDecl) : CallEvent :=
  callOf 60 jl_value_p fd [OtherExpr 61 int64_t].

Definition literal (Value : Z) : ProgramState :=
  stateOf 0 ∅ ∅ (<[61%positive := nonloc_ConcreteInt Value]> {[ 60%positive := valueOf 7 ]}).

(** The state the result gets. *)
Definition boxed (fd : FunctionDecl) (Value : Z) : option ValueState.t :=
  GCValueMap
    (fst (processAllocationOfResult (box fd) (context (literal Value)) (literal Value)))
  !! Some (sym 7).

End BoxExample.

(** C2, at its lower bound. The runtime keeps the boxes of -512 ... 511; the
    checker takes the result of signed boxing for globally rooted for a
    literal strictly between -512 and 512 only, so that the box of -512 is
    left Allocated. The other bounds are the ones of the claim. *)
Theorem jl_box_signed_lower_bound :
  BoxExample.boxed BoxExample.jl_box_int64 (-512) = Some ValueState.getAllocated
  ∧ BoxExample.boxed BoxExample.jl_box_int64 (-511) = Some (ValueState.getRooted None (-1))
  ∧ BoxExample.boxed BoxExample.jl_box_int64 5 = Some (ValueState.getRooted None (-1))
  ∧ BoxExample.boxed BoxExample.jl_box_int64 511 = Some (ValueState.getRooted None (-1))
  ∧ BoxExample.boxed BoxExample.jl_box_int64 512 = Some ValueState.getAllocated
  ∧ BoxExample.boxed BoxExample.jl_box_int64 5000 = Some ValueState.getAllocated
  ∧ BoxExample.boxed BoxExample.jl_box_uint64 0 = Some (ValueState.getRooted None (-1))
  ∧ BoxExample.boxed BoxExample.jl_box_uint64 1023 = Some (ValueState.getRooted None (-1))
  ∧ BoxExample.boxed BoxExample.jl_box_uint64 1024 = Some ValueState.getAllocated.
Proof. vm_compute. repeat split. Qed.


(** *** Pre-call: the argument checks *)

Lemma unlockSafepoints_values (Call : CallEvent) (C : CheckerContext)
    (State : ProgramState) (Added : option ProgramState) :
  unlockSafepoints Call C = Some (State, Added) →
  GCValueMap State = GCValueMap (getState C).
Proof.
  unfold unlockSafepoints.
  destruct (_ || _); [|by intros [= <- _]].
  destruct (_ =? _); [|by intros [= <- _]].
  destruct (sf_decl _); [|discriminate].
  destruct (negb _); by intros [= <- _].
Qed.

Lemma checkArguments_elem (Call : CallEvent) (C : CheckerContext)
    (State : ProgramState) (isCalleeSafepoint : bool) (FD : option FunctionDecl)
    (idx : nat) (r : BugReport) :
  (idx < getNumArgs Call)%nat →
  r ∈ checkArgument Call C State isCalleeSafepoint FD idx →
  r ∈ checkArguments Call C State isCalleeSafepoint FD.
Proof.
  intros Hidx Hr. unfold checkArguments.
  apply list_elem_of_In, in_concat.
  exists (checkArgument Call C State isCalleeSafepoint FD idx). split.
  - apply in_map, in_seq. lia.
  - by apply list_elem_of_In.
Qed.

(** C4, as the code has it. A pre-call check with GC enabled that is not
    ended by the report of a safepoint reached with safepoints disabled, for
    a callee other than JL_GC_PROMISE_ROOTED. An argument with a symbol
    that has a state, whose expression is of tracked type: if the state is
    PotentiallyFreed the report "Argument value may have been GCed" is asked
    for, whether or not the callee is a safepoint; if the state is Allocated,
    the callee is a safepoint and the parameter is not annotated
    "julia_maybe_unrooted", the report "Passing non-rooted value as argument
    to function that may GC" is asked for. *)
Theorem checkPreCall_reports_arguments (Call : CallEvent) (C : CheckerContext)
    (State : ProgramState) (Added : option ProgramState)
    (idx : nat) (Sym : SymExpr) (vs : ValueState.t) :
  gcEnabledHere (getState C) = true →
  unlockSafepoints Call C = Some (State, Added) →
  safepointViolation Call State = false →
  isPromiseRooted Call = false →
  (idx < getNumArgs Call)%nat →
  argumentSymbol (getArgSVal (getState C) Call idx) = Some Sym →
  GCValueMap (getState C) !! Some Sym = Some vs →
  (∀ E, getArgExpr Call idx = Some E → isGCTracked E = true) →
  ∃ out, checkPreCall Call C = Some out
    ∧ (ValueState.S vs = ValueState.PotentiallyFreed →
       ValueReport (Some Sym) "Argument value may have been GCed" ∈ reports out)
    ∧ (ValueState.S vs = ValueState.Allocated →
       isSafepoint Call = true →
       maybeUnrootedParam (calleeFunction Call) idx = false →
       ValueReport (Some Sym)
         "Passing non-rooted value as argument to function that may GC"
       ∈ reports out).
Proof.
  intros Hgc Hunlock Hviol Hpromise Hidx Hsym Hvs Htracked.
  unfold checkPreCall. rewrite Hgc, Hunlock. cbn [negb mbind option_bind].
  rewrite Hviol, Hpromise.
  eexists. split; [reflexivity|]. cbn [reports].
  assert (Hmap := unlockSafepoints_values _ _ _ _ Hunlock).
  assert (Hone : ∀ safepoint,
    checkArgument Call C State safepoint (calleeFunction Call) idx
    = (if ValueState.isPotentiallyFreed vs
       then [ValueReport (Some Sym) "Argument value may have been GCed"] else [])
      ++ (if ValueState.isRooted vs then []
          else if negb (maybeUnrootedParam (calleeFunction Call) idx) && safepoint
               then [ValueReport (Some Sym)
                       "Passing non-rooted value as argument to function that may GC"]
               else [])).
  { intros safepoint. unfold checkArgument. rewrite Hsym, Hmap, Hvs.
    destruct (getArgExpr Call idx) as [E|] eqn:HE; [|reflexivity].
    by rewrite (Htracked E eq_refl). }
  split.
  - intros HS. apply (checkArguments_elem _ _ _ _ _ idx); [exact Hidx|].
    rewrite Hone. apply elem_of_app. left.
    unfold ValueState.isPotentiallyFreed. rewrite (bool_decide_eq_true_2 _ HS).
    apply list_elem_of_here.
  - intros HS Hsafe Hmaybe. apply (checkArguments_elem _ _ _ _ _ idx); [exact Hidx|].
    rewrite Hone, Hsafe, Hmaybe. apply elem_of_app. right.
    unfold ValueState.isRooted. rewrite bool_decide_eq_false_2 by (rewrite HS; discriminate).
    apply list_elem_of_here.
Qed.

Module PreCallExample.
Import Fixtures.

(** [jl_apply(v)] with [v] the unrooted value 1. *)
Definition callAllocated : CallEvent := callOf 10 jl_value_p jl_apply [valueExpr 12].
Definition envAllocated : gmap StmtId SVal := {[ 12%positive := valueOf 1 ]}.

Definition enabled : CheckerContext := context (stateOf 0 fourValues ∅ envAllocated).
Definition enabledFreed : CheckerContext := context (stateOf 0 fourValues ∅ envFreed).

(** The same inside a function annotated JL_NOTSAFEPOINT: safepoints are
    disabled at the height of its frame. *)
Definition quiet : FunctionDecl := func "quiet" ["julia_not_safepoint"] [].
Definition disabled : CheckerContext :=
  contextIn quiet (set_SafepointDisabledAt 1 (stateOf 0 fourValues ∅ envAllocated)).

(** [takes_pointer(p)] with [p] a variable of type [void *] that holds the
    unrooted value 1: the expression of the argument is of no tracked
    type. *)
Definition takes_pointer : FunctionDecl :=
  func "takes_pointer" [] [param "p" (PointerType void_t) []].
Definition callVoid : CallEvent :=
  callOf 15 void_t takes_pointer [OtherExpr 16 (PointerType void_t)].
Definition enabledVoid : CheckerContext :=
  context (stateOf 0 fourValues ∅ {[ 16%positive := valueOf 1 ]}).

End PreCallExample.

Lemma checkPreCall_reports_arguments_witness :
  (∃ out, checkPreCall PreCallExample.callAllocated PreCallExample.enabled = Some out
     ∧ ValueReport (Some (Fixtures.sym 1))
         "Passing non-rooted value as argument to function that may GC" ∈ reports out)
  ∧ (∃ out, checkPreCall Fixtures.callFreed PreCallExample.enabledFreed = Some out
       ∧ ValueReport (Some (Fixtures.sym 3)) "Argument value may have been GCed"
         ∈ reports out).
Proof.
  split.
  - destruct (checkPreCall_reports_arguments PreCallExample.callAllocated
                PreCallExample.enabled _ _ 0 (Fixtures.sym 1) ValueState.getAllocated
                eq_refl eq_refl eq_refl eq_refl (Nat.lt_0_succ 0) eq_refl eq_refl)
      as (out & Hout & _ & Hmissing).
    { intros E [= <-]. reflexivity. }
    exists out. split; [exact Hout|]. apply Hmissing; reflexivity.
  - destruct (checkPreCall_reports_arguments Fixtures.callFreed
                PreCallExample.enabledFreed _ _ 0 (Fixtures.sym 3) ValueState.getFreed
                eq_refl eq_refl eq_refl eq_refl (Nat.lt_0_succ 0) eq_refl eq_refl)
      as (out & Hout & Hfreed & _).
    { intros E [= <-]. reflexivity. }
    exists out. split; [exact Hout|]. apply Hfreed; reflexivity.
Defined.

(** C4 as the claim has it fails, in three ways. With GC enabled and
    safepoints disabled, the unrooted value 1 passed to the safepoint
    [jl_apply] is not reported: the check ends at the report about the
    safepoint. The possibly collected value 3 passed to
    JL_GC_PROMISE_ROOTED is not reported at all. And with GC and safepoints
    enabled, the unrooted value 1 passed to the safepoint [takes_pointer]
    through a variable of type [void *] is not reported: the expression of
    the argument is of no tracked type. *)
Lemma checkPreCall_argument_checks_skipped :
  (gcEnabledHere (getState PreCallExample.disabled) = true
   ∧ isSafepoint PreCallExample.callAllocated = true
   ∧ maybeUnrootedParam (calleeFunction PreCallExample.callAllocated) 0 = false
   ∧ argumentSymbol (getArgSVal (getState PreCallExample.disabled)
                       PreCallExample.callAllocated 0) = Some (Fixtures.sym 1)
   ∧ GCValueMap (getState PreCallExample.disabled) !! Some (Fixtures.sym 1)
     = Some ValueState.getAllocated
   ∧ reports <$> checkPreCall PreCallExample.callAllocated PreCallExample.disabled
     = Some [Report
         "Calling potential safepoint as function from function annotated JL_NOTSAFEPOINT"])
  ∧ (gcEnabledHere (getState PromiseExample.freed) = true
     ∧ argumentSymbol (getArgSVal (getState PromiseExample.freed)
                         PromiseExample.promiseCall 0) = Some (Fixtures.sym 3)
     ∧ GCValueMap (getState PromiseExample.freed) !! Some (Fixtures.sym 3)
       = Some ValueState.getFreed
     ∧ reports <$> checkPreCall PromiseExample.promiseCall PromiseExample.freed
       = Some [])
  ∧ (gcEnabledHere (getState PreCallExample.enabledVoid) = true
     ∧ safepointEnabledHere (getState PreCallExample.enabledVoid) = true
     ∧ isSafepoint PreCallExample.callVoid = true
     ∧ maybeUnrootedParam (calleeFunction PreCallExample.callVoid) 0 = false
     ∧ argumentSymbol (getArgSVal (getState PreCallExample.enabledVoid)
                         PreCallExample.callVoid 0) = Some (Fixtures.sym 1)
     ∧ GCValueMap (getState PreCallExample.enabledVoid) !! Some (Fixtures.sym 1)
       = Some ValueState.getAllocated
     ∧ (isGCTracked <$> getArgExpr PreCallExample.callVoid 0) = Some false
     ∧ reports <$> checkPreCall PreCallExample.callVoid PreCallExample.enabledVoid
       = Some []).
Proof. vm_compute. repeat split. Qed.


(** *** Function entry *)

Lemma initParams_Store (fd : FunctionDecl) (safepoint : bool) (params : list VarDecl) :
  ∀ State, Store (initParams fd safepoint params State) = Store State.
Proof.
  induction params as [|P rest IH]; intros State; cbn [initParams]; [reflexivity|].
  destruct (declHasAnnotation P "julia_require_rooted_slot"); [by rewrite IH|].
  destruct (isGCTrackedType (vd_type P)); [|apply IH].
  destruct (getAsSymbol _ _); by rewrite IH.
Qed.

(** Parameters whose value is another symbol leave the state of [Sym]. *)
Lemma initParams_other (fd : FunctionDecl) (safepoint : bool) (Sym : SymExpr)
    (params : list VarDecl) :
  ∀ State,
    (∀ Q, Q ∈ params → getAsSymbol (getParamSVal State Q) false ≠ Some Sym) →
    GCValueMap (initParams fd safepoint params State) !! Some Sym
    = GCValueMap State !! Some Sym.
Proof.
  induction params as [|P rest IH]; intros State Hother; cbn [initParams]; [reflexivity|].
  assert (Hrest : ∀ State', Store State' = Store State →
            GCValueMap (initParams fd safepoint rest State') !! Some Sym
            = GCValueMap State' !! Some Sym).
  { intros State' HS. apply IH. intros Q HQ. unfold getParamSVal. rewrite HS.
    apply Hother. by apply list_elem_of_further. }
  destruct (declHasAnnotation P "julia_require_rooted_slot"); [by rewrite Hrest|].
  destruct (isGCTrackedType (vd_type P)); [|by apply Hrest].
  destruct (getAsSymbol (getParamSVal State P) false) as [s|] eqn:Hs; [|by apply Hrest].
  rewrite Hrest by reflexivity. cbn. apply lookup_insert_ne.
  intros [= ->]. apply (Hother P); [apply list_elem_of_here | exact Hs].
Qed.

Lemma initParams_param (fd : FunctionDecl) (safepoint : bool) (Sym : SymExpr)
    (P : VarDecl) (after : list VarDecl) (before : list VarDecl) :
  ∀ State,
    declHasAnnotation P "julia_require_rooted_slot" = false →
    isGCTrackedType (vd_type P) = true →
    getAsSymbol (getParamSVal State P) false = Some Sym →
    (∀ Q, Q ∈ after → getAsSymbol (getParamSVal State Q) false ≠ Some Sym) →
    GCValueMap (initParams fd safepoint (before ++ P :: after) State) !! Some Sym
    = Some (ValueState.getForArgument fd P safepoint).
Proof.
  induction before as [|B before IH]; intros State Hslot Htracked Hsym Hafter.
  - cbn [app initParams]. rewrite Hslot, Htracked, Hsym.
    rewrite initParams_other.
    + cbn. apply lookup_insert_eq.
    + intros Q HQ. unfold getParamSVal. cbn. by apply Hafter.
  - cbn [app initParams].
    assert (Hrest : ∀ State', Store State' = Store State →
              GCValueMap (initParams fd safepoint (before ++ P :: after) State') !! Some Sym
              = Some (ValueState.getForArgument fd P safepoint)).
    { intros State' HS. apply IH; try done.
      - unfold getParamSVal. by rewrite HS.
      - intros Q HQ. unfold getParamSVal. rewrite HS. by apply Hafter. }
    destruct (declHasAnnotation B "julia_require_rooted_slot"); [by apply Hrest|].
    destruct (isGCTrackedType (vd_type B)); [|by apply Hrest].
    destruct (getAsSymbol (getParamSVal State B) false); by apply Hrest.
Qed.

(** Whether a parameter annotated "julia_require_rooted_slot" has a value
    that denotes the region [R] (the null region, if it denotes none). *)
Definition slotRegistered (State : ProgramState) (params : list VarDecl)
    (R : MemRegionRef) : bool :=
  existsb (λ P, declHasAnnotation P "julia_require_rooted_slot"
                && bool_decide (getAsRegion (getParamSVal State P) = R)) params.

Lemma slotRegistered_Store (State State' : ProgramState) (params : list VarDecl)
    (R : MemRegionRef) :
  Store State' = Store State →
  slotRegistered State' params R = slotRegistered State params R.
Proof. intros HS. unfold slotRegistered, getParamSVal. by rewrite HS. Qed.

(** The root map after the loop over the parameters. *)
Lemma initParams_roots (fd : FunctionDecl) (safepoint : bool) (params : list VarDecl) :
  ∀ State R,
    GCRootMap (initParams fd safepoint params State) !! R
    = if slotRegistered State params R
      then Some (RootState.getRoot (-1)) else GCRootMap State !! R.
Proof.
  induction params as [|P rest IH]; intros State R; [reflexivity|].
  cbn [initParams].
  change (slotRegistered State (P :: rest) R)
    with (declHasAnnotation P "julia_require_rooted_slot"
          && bool_decide (getAsRegion (getParamSVal State P) = R)
          || slotRegistered State rest R).
  destruct (declHasAnnotation P "julia_require_rooted_slot"); cbn [andb orb].
  - rewrite IH.
    change (slotRegistered (set_GCRootMap _ _ State) rest R)
      with (slotRegistered State rest R).
    destruct (slotRegistered State rest R); [by rewrite orb_true_r|].
    rewrite orb_false_r. cbn.
    destruct (bool_decide_reflect (getAsRegion (getParamSVal State P) = R)) as [->|Hne].
    + by rewrite lookup_insert_eq.
    + by rewrite lookup_insert_ne.
  - destruct (isGCTrackedType (vd_type P)); [|apply IH].
    destruct (getAsSymbol (getParamSVal State P) false); [|apply IH].
    rewrite IH. reflexivity.
Qed.

(** Every state the loop files is the one of a parameter of tracked type
    that is not annotated "julia_require_rooted_slot". *)
Lemma initParams_values (fd : FunctionDecl) (safepoint : bool) (params : list VarDecl) :
  ∀ State Sym,
    GCValueMap (initParams fd safepoint params State) !! Sym = GCValueMap State !! Sym
    ∨ ∃ P s, P ∈ params
             ∧ declHasAnnotation P "julia_require_rooted_slot" = false
             ∧ isGCTrackedType (vd_type P) = true
             ∧ getAsSymbol (getParamSVal State P) false = Some s
             ∧ Sym = Some s
             ∧ GCValueMap (initParams fd safepoint params State) !! Sym
               = Some (ValueState.getForArgument fd P safepoint).
Proof.
  induction params as [|P rest IH]; intros State Sym; [by left|].
  cbn [initParams].
  assert (Hlater : ∀ State1,
            Store State1 = Store State →
            (∃ P' s, P' ∈ rest
               ∧ declHasAnnotation P' "julia_require_rooted_slot" = false
               ∧ isGCTrackedType (vd_type P') = true
               ∧ getAsSymbol (getParamSVal State1 P') false = Some s
               ∧ Sym = Some s
               ∧ GCValueMap (initParams fd safepoint rest State1) !! Sym
                 = Some (ValueState.getForArgument fd P' safepoint)) →
            ∃ P' s, P' ∈ P :: rest
               ∧ declHasAnnotation P' "julia_require_rooted_slot" = false
               ∧ isGCTrackedType (vd_type P') = true
               ∧ getAsSymbol (getParamSVal State P') false = Some s
               ∧ Sym = Some s
               ∧ GCValueMap (initParams fd safepoint rest State1) !! Sym
                 = Some (ValueState.getForArgument fd P' safepoint)).
  { intros State1 HS (P' & s & HP' & Ha & Ht & Hs & -> & Hv).
    exists P', s. split; [by apply list_elem_of_further|].
    unfold getParamSVal in *. rewrite HS in Hs. done. }
  destruct (declHasAnnotation P "julia_require_rooted_slot") eqn:Hann.
  - destruct (IH (set_GCRootMap (getAsRegion (getParamSVal State P))
                    (RootState.getRoot (-1)) State) Sym) as [-> | H];
      [by left | right; by apply Hlater in H].
  - destruct (isGCTrackedType (vd_type P)) eqn:Htr.
    + destruct (getAsSymbol (getParamSVal State P) false) as [s0|] eqn:Hs0.
      * destruct (IH (set_GCValueMap (Some s0)
                        (ValueState.getForArgument fd P safepoint) State) Sym)
          as [Heq | H]; [|right; by apply Hlater in H].
        rewrite Heq. cbn. destruct (decide (Sym = Some s0)) as [->|Hne].
        -- right. exists P, s0. rewrite lookup_insert_eq.
           split; [apply list_elem_of_here|]. done.
        -- left. by rewrite lookup_insert_ne.
      * destruct (IH State Sym) as [-> | H]; [by left | right; by apply Hlater in H].
    + destruct (IH State Sym) as [-> | H]; [by left | right; by apply Hlater in H].
Qed.

(** [checkBeginFunction] in the top frame: the loop over the parameters
    starts from a state with the maps and the store of the state at entry,
    and its result is the transition. *)
Lemma checkBeginFunction_top (C : CheckerContext) (fd : FunctionDecl) :
  sf_decl (cc_frame C) = Some fd →
  inTopFrame C = true →
  ∃ State0,
    checkBeginFunction C
    = Some (mkOutcome
              (Some (initParams fd (negb (isFDAnnotatedNotSafepoint fd))
                       (fd_params fd) State0)) [])
    ∧ GCValueMap State0 = GCValueMap (getState C)
    ∧ GCRootMap State0 = GCRootMap (getState C)
    ∧ Store State0 = Store (getState C).
Proof.
  intros Hfd Htop. unfold checkBeginFunction. rewrite Hfd, Htop.
  cbn [mbind option_bind negb].
  repeat match goal with
         | |- context [let '(_, _) := (if ?c then _ else _) in _] => destruct c
         end;
    (eexists; split; [reflexivity|]); done.
Qed.

(** C5, as the code has it. At the entry of the top frame a transition is
    added, in which: a parameter of tracked type that is not annotated
    "julia_require_rooted_slot" and whose value is a symbol (one that no
    later parameter has as its value too) has the state [getForArgument]
    computes, Allocated when the function is not a safepoint (annotated
    "julia_not_safepoint", or in a file named llvm-...) or the parameter is
    annotated "julia_maybe_unrooted", Rooted(null, -1) otherwise; for a
    parameter annotated "julia_require_rooted_slot", whatever its type, the
    region its value denotes (the null region, if it denotes none) is a
    root at depth -1, and these are the only changes of the root map; every
    state that differs from the one at entry is the [getForArgument] state
    of a parameter of tracked type that is not annotated
    "julia_require_rooted_slot" and has the symbol as its value, so that an
    annotated parameter files none. *)
Theorem checkBeginFunction_parameter_state (C : CheckerContext) (fd : FunctionDecl) :
  sf_decl (cc_frame C) = Some fd →
  inTopFrame C = true →
  let st := getState C in
  let notSafepoint :=
    declHasAnnotation fd "julia_not_safepoint"
    || StringRef.starts_with (StringRef.filename (fd_fileName fd)) "llvm-" in
  let forArgument P :=
    if notSafepoint || declHasAnnotation P "julia_maybe_unrooted"
    then ValueState.getAllocated else ValueState.getRooted None (-1) in
  ∃ st', checkBeginFunction C = Some (mkOutcome (Some st') [])
    ∧ (∀ before P after Sym,
         fd_params fd = before ++ P :: after →
         declHasAnnotation P "julia_require_rooted_slot" = false →
         isGCTrackedType (vd_type P) = true →
         getAsSymbol (getParamSVal st P) false = Some Sym →
         (∀ Q, Q ∈ after → getAsSymbol (getParamSVal st Q) false ≠ Some Sym) →
         GCValueMap st' !! Some Sym = Some (forArgument P))
    ∧ (∀ P, P ∈ fd_params fd →
            declHasAnnotation P "julia_require_rooted_slot" = true →
            GCRootMap st' !! getAsRegion (getParamSVal st P)
            = Some (RootState.getRoot (-1)))
    ∧ (∀ R, GCRootMap st' !! R
            = if slotRegistered st (fd_params fd) R
              then Some (RootState.getRoot (-1)) else GCRootMap st !! R)
    ∧ (∀ Sym, GCValueMap st' !! Sym = GCValueMap st !! Sym
              ∨ ∃ P s, P ∈ fd_params fd
                       ∧ declHasAnnotation P "julia_require_rooted_slot" = false
                       ∧ isGCTrackedType (vd_type P) = true
                       ∧ getAsSymbol (getParamSVal st P) false = Some s
                       ∧ Sym = Some s
                       ∧ GCValueMap st' !! Sym = Some (forArgument P)).
Proof.
  intros Hfd Htop st notSafepoint forArgument.
  destruct (checkBeginFunction_top C fd Hfd Htop) as (State0 & Hrun & HV & HR & HS).
  fold st in HV, HR, HS.
  assert (Hparam : ∀ P, getParamSVal State0 P = getParamSVal st P)
    by (intros P; unfold getParamSVal; by rewrite HS).
  assert (Hfor : ∀ P, ValueState.getForArgument fd P (negb (isFDAnnotatedNotSafepoint fd))
                      = forArgument P).
  { intros P. unfold ValueState.getForArgument, isFDAnnotatedNotSafepoint.
    subst forArgument notSafepoint. cbv beta.
    destruct (declHasAnnotation fd "julia_not_safepoint"); cbn [orb negb];
      [reflexivity | by destruct (StringRef.starts_with _ _)]. }
  assert (Hslots : ∀ R, slotRegistered State0 (fd_params fd) R
                        = slotRegistered st (fd_params fd) R).
  { intros R. by apply slotRegistered_Store. }
  assert (Hroots : ∀ R,
            GCRootMap (initParams fd (negb (isFDAnnotatedNotSafepoint fd))
                         (fd_params fd) State0) !! R
            = if slotRegistered st (fd_params fd) R
              then Some (RootState.getRoot (-1)) else GCRootMap st !! R).
  { intros R. by rewrite initParams_roots, Hslots, HR. }
  eexists. split; [exact Hrun|]. split; [|split; [|split]].
  - intros before P after Sym Hparams Hslot Htracked Hsym Hafter.
    rewrite Hparams, <- Hfor. apply initParams_param; try done.
    + by rewrite Hparam.
    + intros Q HQ. rewrite Hparam. by apply Hafter.
  - intros P HP Hann. rewrite Hroots.
    assert (Hreg : slotRegistered st (fd_params fd) (getAsRegion (getParamSVal st P))
                   = true).
    { unfold slotRegistered. apply existsb_exists. exists P.
      split; [by apply list_elem_of_In|]. rewrite Hann. by apply bool_decide_eq_true_2. }
    by rewrite Hreg.
  - exact Hroots.
  - intros Sym.
    destruct (initParams_values fd (negb (isFDAnnotatedNotSafepoint fd))
                (fd_params fd) State0 Sym)
      as [Heq | (P & s & HP & Ha & Ht & Hs & -> & Hv)].
    + left. by rewrite Heq, HV.
    + right. exists P, s. rewrite Hparam in Hs. rewrite Hfor in Hv. done.
Qed.


Module EntryExample.
Import Fixtures.

(** The store at the entry of a top frame: every variable holds the symbol
    for its initial value. *)
Definition entryValue (vd : VarDecl) : SymExpr := SymbolRegionValue (VarRegion vd).
Definition entryStore : MemRegion → SVal :=
  λ r, match r with
       | VarRegion vd => loc_MemRegionVal (SymbolicRegion (entryValue vd))
       | _ => UnknownVal
       end.
Definition entryState : ProgramState := mkState 0 0 0 ∅ ∅ ∅ entryStore.
Definition entryOf (fd : FunctionDecl) : CheckerContext := contextIn fd entryState.

(** [jl_value_t *f(jl_value_t *a, jl_value_t *b JL_MAYBE_UNROOTED)] *)
Definition a : VarDecl := param "a" jl_value_p [].
Definition b : VarDecl := param "b" jl_value_p ["julia_maybe_unrooted"].
Definition f : FunctionDecl := func "f" [] [a; b].

(** [void g(jl_value_t **pv JL_REQUIRE_ROOTED_SLOT)] *)
Definition pv : VarDecl := param "pv" jl_value_pp ["julia_require_rooted_slot"].
Definition g : FunctionDecl := func "g" [] [pv].

(** [void h(jl_cgval_t v)]: a struct passed by value is a compound value,
    not a symbol. *)
Definition jl_cgval_t : QualType := TagType "jl_cgval_t".
Definition v : VarDecl := param "v" jl_cgval_t [].
Definition h : FunctionDecl := func "h" [] [v].
Definition compoundStore : MemRegion → SVal :=
  λ r, nonloc_LazyCompoundVal (Some r).
Definition entryOfCompound : CheckerContext :=
  contextIn h (mkState 0 0 0 ∅ ∅ ∅ compoundStore).

End EntryExample.

Lemma checkBeginFunction_parameter_state_witness :
  (∃ st', checkBeginFunction (EntryExample.entryOf EntryExample.f)
          = Some (mkOutcome (Some st') [])
     ∧ GCValueMap st' !! Some (EntryExample.entryValue EntryExample.b)
       = Some ValueState.getAllocated)
  ∧ (∃ st', checkBeginFunction (EntryExample.entryOf EntryExample.g)
            = Some (mkOutcome (Some st') [])
       ∧ GCRootMap st' !! Some (SymbolicRegion (EntryExample.entryValue EntryExample.pv))
         = Some (RootState.getRoot (-1))).
Proof.
  split.
  - destruct (checkBeginFunction_parameter_state (EntryExample.entryOf EntryExample.f)
                EntryExample.f eq_refl eq_refl)
      as (st' & Hrun & Hstate & _).
    exists st'. split; [exact Hrun|].
    apply (Hstate [EntryExample.a] EntryExample.b [] _ eq_refl eq_refl eq_refl eq_refl).
    intros Q HQ. by apply not_elem_of_nil in HQ.
  - destruct (checkBeginFunction_parameter_state (EntryExample.entryOf EntryExample.g)
                EntryExample.g eq_refl eq_refl)
      as (st' & Hrun & _ & Hslot & _).
    exists st'. split; [exact Hrun|].
    apply (Hslot EntryExample.pv); [apply list_elem_of_here | reflexivity].
Defined.

(** The other parameter of the same function starts Rooted(null, -1). *)
Example checkBeginFunction_plain_parameter :
  ∃ st', checkBeginFunction (EntryExample.entryOf EntryExample.f)
         = Some (mkOutcome (Some st') [])
    ∧ GCValueMap st' !! Some (EntryExample.entryValue EntryExample.a)
      = Some (ValueState.getRooted None (-1)).
Proof. eexists. split; vm_compute; reflexivity. Qed.

(** C5 as the claim has it fails: the parameter [pv] is of tracked type and
    has a symbol as its value, yet function entry files no state for it; its
    region becomes a root at depth -1 instead. And the parameter [v], of
    tracked type too, has no symbol a state could be filed under: the value
    map stays empty. *)
Lemma require_rooted_slot_parameter_gets_no_state :
  (inTopFrame (EntryExample.entryOf EntryExample.g) = true
   ∧ isGCTrackedType (vd_type EntryExample.pv) = true
   ∧ getAsSymbol (getParamSVal EntryExample.entryState EntryExample.pv) false
     = Some (EntryExample.entryValue EntryExample.pv)
   ∧ ∃ st', checkBeginFunction (EntryExample.entryOf EntryExample.g)
            = Some (mkOutcome (Some st') [])
       ∧ GCValueMap st' !! Some (EntryExample.entryValue EntryExample.pv) = None
       ∧ GCRootMap st' !! Some (SymbolicRegion (EntryExample.entryValue EntryExample.pv))
         = Some (RootState.getRoot (-1)))
  ∧ (inTopFrame EntryExample.entryOfCompound = true
     ∧ isGCTrackedType (vd_type EntryExample.v) = true
     ∧ ∃ st', checkBeginFunction EntryExample.entryOfCompound
              = Some (mkOutcome (Some st') [])
         ∧ GCValueMap st' = ∅).
Proof.
  split.
  - split; [reflexivity|]. split; [reflexivity|]. split; [reflexivity|].
    eexists. split; [vm_compute; reflexivity|]. split; vm_compute; reflexivity.
  - split; [reflexivity|]. split; [reflexivity|].
    eexists. split; [vm_compute; reflexivity|]. reflexivity.
Qed.


(** *** Bind and load through a root *)

(** [rootRegionIfGlobal] files a state only for a symbol that has none in
    the state of the context. *)
Lemma rootRegionIfGlobal_keeps (R : MemRegionRef) (State State' : ProgramState)
    (C : CheckerContext) (TheValS : ValueState.t) (Sym : SymbolRef) :
  rootRegionIfGlobal R State C = Some (State', TheValS) →
  is_Some (GCValueMap (getState C) !! Sym) →
  GCValueMap State' !! Sym = GCValueMap State !! Sym.
Proof.
  unfold rootRegionIfGlobal. destruct R as [[VD| | |]|]; try discriminate.
  destruct (negb (vd_hasGlobalStorage VD)); [discriminate|].
  destruct (negb (isGCTrackedType (vd_type VD))); [discriminate|].
  intros [= <- _] [old Hold].
  set (Rooted := declHasAnnotation VD "julia_globally_rooted" || _).
  set (State1 := if Rooted then _ else State).
  assert (H1 : GCValueMap State1 = GCValueMap State) by (subst State1; by destruct Rooted).
  assert (HS : Store State1 = Store State) by (subst State1; by destruct Rooted).
  destruct (getAsSymbol (Store State1 (VarRegion VD)) false) as [s|]; [|by rewrite H1].
  destruct (GCValueMap (getState C) !! Some s) eqn:Hs; [by rewrite H1|].
  cbn. rewrite lookup_insert_ne; [by rewrite H1|]. intros <-. congruence.
Qed.





Module RootSlotExample.
Import Fixtures.

Definition x : MemRegion := PopExample.slot "x".
Definition y : MemRegion := PopExample.slot "y".

(** The slot [x] was pushed at depth 1 and holds value 1, which the slot
    [y], pushed at depth 0, roots already; value 2 is not rooted. *)
Definition rooted : CheckerContext :=
  context
    (mkState 2 unsigned_m1 unsigned_m1
       (<[Some (sym 1) := ValueState.getRooted (Some y) 0]>
        (<[Some (sym 2) := ValueState.getAllocated]> ∅))
       (<[Some x := RootState.getRoot 1]> (<[Some y := RootState.getRoot 0]> ∅))
       ∅
       (λ r, if decide (r = x) then valueOf 1 else UnknownVal)).

End RootSlotExample.


Module DowngradeExample.
Import Fixtures.

(** [s.v] in a function annotated JL_NOTSAFEPOINT, [s] a struct parameter
    whose field [v] holds value 2, which is Rooted(null, -1). *)
Definition s : VarDecl := param "s" (TagType "pair_t") [].
Definition quiet : FunctionDecl := func "quiet" ["julia_not_safepoint"] [s].
Definition base : Derivation.DExpr :=
  Derivation.PlainExpr (OtherExpr 130 (TagType "pair_t")).
Definition member : Derivation.DExpr := Derivation.MemberExpr 131 jl_value_p base.

(** [jl_svecset(t, x)] with the container [t] value 5, Rooted by the slot
    [x] at depth 1, and [x] value 2, Rooted(null, -1). *)
Definition slot : MemRegion := PopExample.slot "x".
Definition jl_svecset : FunctionDecl :=
  func "jl_svecset" []
    [param "t" jl_value_p ["julia_rooting_argument"];
     param "x" jl_value_p ["julia_rooted_argument"]].
Definition store : CallEvent :=
  callOf 70 jl_value_p jl_svecset [valueExpr 71; valueExpr 72].

End DowngradeExample.



(** ** Further properties: how the callbacks work together *)

(** The context of the next callback on the same frame, once a transition
    has led to [State]. *)
Definition contextAt (C : CheckerContext) (State : ProgramState) : CheckerContext :=
  mkContext State (cc_frame C) (cc_parents C) (conjureSymbolVal C) (getCalleeDecl C)
            (recordFields C).

(** *** Walking back to a tracked symbol *)

(** The walk ends at a symbol the callback does not skip. *)
Lemma walkRegion_stops (f : SymExpr → option ValueState.t → bool)
    (State : ProgramState) (Region : MemRegion) (Sym : SymExpr) :
  walkRegion f State Region = Some Sym →
  f Sym (GCValueMap State !! Some Sym) = false
with walkSymbol_stops (f : SymExpr → option ValueState.t → bool)
    (State : ProgramState) (Start Sym : SymExpr) :
  walkSymbol f State Start = Some Sym →
  f Sym (GCValueMap State !! Some Sym) = false.
Proof.
  - destruct Region as [vd|s|field sup|index sup]; cbn [walkRegion].
    + discriminate.
    + apply walkSymbol_stops.
    + apply walkRegion_stops.
    + apply walkRegion_stops.
  - destruct Start as [st c|r|p r]; cbn [walkSymbol].
    + destruct (f _ _) eqn:Hf; [discriminate|]. by intros [= <-].
    + destruct (f _ _) eqn:Hf; [apply walkRegion_stops|]. by intros [= <-].
    + destruct (f _ _) eqn:Hf; [apply walkRegion_stops|]. by intros [= <-].
Qed.

Lemma walkToRoot_hasNoState (State : ProgramState) (Region : MemRegionRef)
    (Sym : SymExpr) :
  walkToRoot hasNoState State Region = Some Sym →
  is_Some (GCValueMap State !! Some Sym).
Proof.
  destruct Region as [r|]; [|discriminate]. cbn [walkToRoot].
  intros H%walkRegion_stops. unfold hasNoState in H.
  apply negb_false_iff, bool_decide_eq_true in H. exact H.
Qed.

Lemma getValStateForRegion_isRooted (State : ProgramState) (Region : MemRegionRef)
    (vs : ValueState.t) :
  getValStateForRegion State Region = Some vs → ValueState.isRooted vs = true.
Proof.
  unfold getValStateForRegion. destruct Region as [r|]; [|discriminate].
  cbn [walkToRoot]. destruct (walkRegion _ State r) as [Sym|] eqn:Hwalk; [|discriminate].
  apply walkRegion_stops in Hwalk. intros Hvs. rewrite Hvs in Hwalk.
  by apply negb_false_iff in Hwalk.
Qed.

(** X1. The state [getValStateForRegion] finds for a region is always a
    Rooted one: the walk skips every symbol without a state and every
    symbol that is not Rooted, so what argument rooting and
    "julia_propagates_root" hand on is never an Allocated, PotentiallyFreed
    or Untracked state. In particular [processArgumentRooting] either
    leaves the state as it is or makes one symbol Rooted. *)
Theorem argument_rooting_hands_on_roots_only (Call : CallEvent) (C : CheckerContext)
    (State : ProgramState) :
  (∀ Region vs, getValStateForRegion State Region = Some vs →
                ValueState.S vs = ValueState.Rooted)
  ∧ (processArgumentRooting Call C State = (State, false)
     ∨ ∃ Sym vs, processArgumentRooting Call C State
                 = (set_GCValueMap (Some Sym) vs State, true)
                 ∧ ValueState.S vs = ValueState.Rooted).
Proof.
  split.
  - intros Region vs H%getValStateForRegion_isRooted.
    by apply bool_decide_eq_true in H.
  - unfold processArgumentRooting.
    destruct (getDecl Call ≫= d_function) as [fd|]; [|by left].
    destruct (findRootingArguments _ _ _ _ _ _) as [[R|] [Sym|]]; try by left.
    destruct (getValStateForRegion State (Some R)) as [vs|] eqn:Hvs; [|by left].
    right. exists Sym, vs. split; [reflexivity|].
    apply getValStateForRegion_isRooted in Hvs. by apply bool_decide_eq_true in Hvs.
Qed.

Module RootingExample.
Import Fixtures.

(** [jl_svecset(t JL_ROOTING_ARGUMENT, x JL_ROOTED_ARGUMENT)]: the rooted
    value 2 is the container, the unrooted value 1 is stored in it. *)
Definition jl_svecset : FunctionDecl :=
  func "jl_svecset" []
    [param "t" jl_value_p ["julia_rooting_argument"];
     param "x" jl_value_p ["julia_rooted_argument"]].
Definition store : CallEvent :=
  callOf 70 jl_value_p jl_svecset [valueExpr 71; valueExpr 72].
Definition before : ProgramState :=
  stateOf 0 fourValues ∅ (<[71%positive := valueOf 2]> {[ 72%positive := valueOf 1 ]}).

End RootingExample.

Lemma argument_rooting_hands_on_roots_only_witness :
  ValueState.S (ValueState.getRooted None (-1)) = ValueState.Rooted
  ∧ ∃ Sym vs,
      processArgumentRooting RootingExample.store
        (Fixtures.context RootingExample.before) RootingExample.before
      = (set_GCValueMap (Some Sym) vs RootingExample.before, true)
      ∧ ValueState.S vs = ValueState.Rooted.
Proof.
  destruct (argument_rooting_hands_on_roots_only RootingExample.store
              (Fixtures.context RootingExample.before) RootingExample.before)
    as [Hfound Hrooting].
  split.
  - exact (Hfound (Some (SymbolicRegion (Fixtures.sym 2))) _ eq_refl).
  - destruct Hrooting as [Hsame | Hset]; [|exact Hset].
    assert (Hchanged : snd (processArgumentRooting RootingExample.store
                              (Fixtures.context RootingExample.before)
                              RootingExample.before) = true)
      by (vm_compute; reflexivity).
    rewrite Hsame in Hchanged. discriminate Hchanged.
Defined.

(** *** Function entry in an inlined call *)

Lemma propagateParams_reports (params : list VarDecl) (args : list Expr) :
  ∀ (idx : nat) (State : ProgramState) (Change : bool) (reps : list BugReport) r,
    propagateParams params args idx State Change reps = Some r → snd r = reps.
Proof.
  induction params as [|P rest IH]; intros idx State Change reps r; cbn [propagateParams].
  - by intros [= <-].
  - destruct (negb (isGCTrackedType (vd_type P))); [apply IH|].
    destruct (args !! idx) as [ArgE|]; [|discriminate]. cbn [mbind option_bind].
    destruct (walkToRoot hasNoState State _) as [ArgSym|] eqn:Hwalk; [|apply IH].
    destruct (walkToRoot_hasNoState _ _ _ Hwalk) as [ValS HValS]. rewrite HValS.
    destruct (getAsSymbol _ _); [|apply IH].
    destruct (isGloballyRootedType _); apply IH.
Qed.

Lemma propagateArgumentRootedness_reports (C : CheckerContext) (State : ProgramState) r :
  propagateArgumentRootedness C State = Some r → snd r = [].
Proof.
  unfold propagateArgumentRootedness.
  destruct (sf_callSite (cc_frame C)) as [Site|]; [|by intros [= <-]].
  destruct (sf_decl (cc_frame C)) as [fd|]; [|by intros [= <-]].
  destruct Site; try (by intros [= <-]). apply propagateParams_reports.
Qed.

(** X2. Function entry asks for no report, in the top frame and in an
    inlined call alike. In particular the report "Missed allocation of
    parameter" of [propagateArgumentRootedness] cannot come about: the
    symbol the walk from an argument ends at is one that has a state. *)
Theorem checkBeginFunction_never_reports (C : CheckerContext) (out : Outcome) :
  checkBeginFunction C = Some out → reports out = [].
Proof.
  unfold checkBeginFunction. destruct (sf_decl (cc_frame C)) as [fd|]; [|discriminate].
  cbn [mbind option_bind].
  repeat match goal with
         | |- context [let '(_, _) := (if ?c then _ else _) in _] => destruct c
         end;
    cbn [negb];
    first
      [ by intros [= <-]
      | match goal with
        | |- context [propagateArgumentRootedness ?c ?s] =>
            destruct (propagateArgumentRootedness c s) as [[[State' Prop'] reps]|] eqn:Hp;
            [apply propagateArgumentRootedness_reports in Hp; cbn in Hp; subst reps;
             by intros [= <-]
            | discriminate]
        end ].
Qed.

Module InlinedExample.
Import Fixtures.

(** [callee(v)] inlined into [caller]: the argument is the rooted value 2,
    the parameter holds the symbol for its initial value. *)
Definition p : VarDecl := param "p" jl_value_p [].
Definition callee : FunctionDecl := func "callee" [] [p].
Definition site : Expr := callExpr 80 void_t callee [valueExpr 81].
Definition inlined : CheckerContext :=
  mkContext
    (mkState 0 unsigned_m1 unsigned_m1 fourValues ∅ {[ 81%positive := valueOf 2 ]}
       EntryExample.entryStore)
    (mkFrame (Some callee) (Some site)) [mkFrame (Some here) None]
    (λ _ _, UnknownVal) (λ _, None) (λ _, []).

End InlinedExample.

Lemma checkBeginFunction_never_reports_witness :
  reports <$> checkBeginFunction InlinedExample.inlined = Some [].
Proof.
  destruct (checkBeginFunction InlinedExample.inlined) as [out|] eqn:Hrun.
  - cbn. f_equal. exact (checkBeginFunction_never_reports _ _ Hrun).
  - assert (Hsome : match checkBeginFunction InlinedExample.inlined with
                    | Some _ => true
                    | None => false
                    end = true) by (vm_compute; reflexivity).
    rewrite Hrun in Hsome. discriminate Hsome.
Defined.

(** There the parameter takes over the state of the argument. *)
Example checkBeginFunction_inlined_parameter :
  (checkBeginFunction InlinedExample.inlined ≫= transition)
  ≫= (λ st', GCValueMap st' !! Some (EntryExample.entryValue InlinedExample.p))
  = Some (ValueState.getRooted None (-1)).
Proof. vm_compute. reflexivity. Qed.

(** *** JL_GC_PUSH, and JL_GC_PUSH followed by JL_GC_POP *)

(** What a push makes of the state of one value: a Rooted value keeps
    its state, any other keeps it or becomes Rooted by one of the slots at
    the depth of the push. *)
Definition pushedValue (Slots : list MemRegion) (Depth : Z)
    (old new : option ValueState.t) : Prop :=
  match old with
  | None => new = None
  | Some vs =>
      if ValueState.isRooted vs then new = Some vs
      else new = Some vs
           ∨ ∃ R, R ∈ Slots ∧ new = Some (ValueState.getRooted (Some R) Depth)
  end.

Lemma pushedValue_refl (Slots : list MemRegion) (Depth : Z) (old : option ValueState.t) :
  pushedValue Slots Depth old old.
Proof. destruct old as [vs|]; cbn; [|done]. destruct (ValueState.isRooted vs); auto. Qed.

Lemma pushedValue_step (R : MemRegion) (Slots : list MemRegion) (Depth : Z)
    (old mid new : option ValueState.t) :
  pushedValue [R] Depth old mid → pushedValue Slots Depth mid new →
  pushedValue (R :: Slots) Depth old new.
Proof.
  destruct old as [vs|]; cbn.
  - destruct (ValueState.isRooted vs) eqn:Hvs.
    + intros ->. cbn. by rewrite Hvs.
    + intros [-> | (R' & HR' & ->)]; cbn.
      * rewrite Hvs. intros [-> | (R2 & HR2 & ->)]; [by left|].
        right. exists R2. split; [by apply list_elem_of_further | done].
      * intros ->. right. exists R'. split; [|done].
        apply list_elem_of_singleton in HR' as ->. apply list_elem_of_here.
  - intros ->. cbn. done.
Qed.

Lemma pushSlots_spec (C : CheckerContext) (Depth : Z) (args : list Expr) :
  ∀ (Slots : list MemRegion) (State : ProgramState) (reps : list BugReport),
    map (getSVal (getState C)) args = map loc_MemRegionVal Slots →
    ∃ State' reps',
      pushSlots C Depth args State reps = inl (State', reps')
      ∧ GCDepth State' = GCDepth State
      ∧ GCDisabledAt State' = GCDisabledAt State
      ∧ SafepointDisabledAt State' = SafepointDisabledAt State
      ∧ Env State' = Env State ∧ Store State' = Store State
      ∧ (∀ R, GCRootMap State' !! R =
              if bool_decide (R ∈ Some <$> Slots)
              then Some (RootState.getRoot (to_int Depth)) else GCRootMap State !! R)
      ∧ (∀ Sym, pushedValue Slots (to_int Depth)
                  (GCValueMap State !! Sym) (GCValueMap State' !! Sym)).
Proof.
  induction args as [|A rest IH]; intros Slots State reps Hargs.
  - destruct Slots; [|discriminate]. exists State, reps. cbn [pushSlots].
    repeat split; try done. intros Sym. apply pushedValue_refl.
  - destruct Slots as [|R Slots]; [discriminate|].
    cbn [map] in Hargs. injection Hargs as HA Hrest.
    cbn [pushSlots]. rewrite HA.
    set (State1 := set_GCRootMap (Some R) (RootState.getRoot (to_int Depth)) State).
    (* the state and the reports the rest of the loop starts from *)
    assert (Hstep : ∃ State2 reps2,
      (match getAsSymbol (Store State1 R) false with
       | None => pushSlots C Depth rest State1 reps
       | Some s =>
           match GCValueMap State1 !! getAsSymbol (Store State1 R) false with
           | None => pushSlots C Depth rest State1 reps
           | Some ValState =>
               pushSlots C Depth rest
                 (if negb (ValueState.isRooted ValState)
                  then set_GCValueMap (getAsSymbol (Store State1 R) false)
                         (ValueState.getRooted (Some R) (to_int Depth)) State1
                  else State1)
                 (if ValueState.isPotentiallyFreed ValState
                  then reps ++ [ValueReport (getAsSymbol (Store State1 R) false)
                                  "Trying to root value which may have been GCed"]
                  else reps)
           end
       end = pushSlots C Depth rest State2 reps2)
      ∧ GCDepth State2 = GCDepth State
      ∧ GCDisabledAt State2 = GCDisabledAt State
      ∧ SafepointDisabledAt State2 = SafepointDisabledAt State
      ∧ Env State2 = Env State ∧ Store State2 = Store State
      ∧ GCRootMap State2 = <[Some R := RootState.getRoot (to_int Depth)]> (GCRootMap State)
      ∧ (∀ Sym, pushedValue [R] (to_int Depth)
                  (GCValueMap State !! Sym) (GCValueMap State2 !! Sym))).
    { destruct (getAsSymbol (Store State1 R) false) as [s|] eqn:Hs.
      2:{ exists State1, reps. repeat split; try done. intros Sym. apply pushedValue_refl. }
      destruct (GCValueMap State1 !! Some s) as [ValState|] eqn:Hv.
      2:{ exists State1, reps. repeat split; try done. intros Sym. apply pushedValue_refl. }
      destruct (ValueState.isRooted ValState) eqn:Hr; cbn [negb].
      - eexists State1, _. repeat split; try done. intros Sym. apply pushedValue_refl.
      - eexists (set_GCValueMap (Some s) _ State1), _. split; [reflexivity|].
        repeat split; try done.
        intros Sym. cbn. destruct (decide (Some s = Sym)) as [<-|Hne].
        + rewrite lookup_insert_eq. cbn in Hv. rewrite Hv. cbn. rewrite Hr.
          right. exists R. split; [apply list_elem_of_here | done].
        + rewrite lookup_insert_ne by done. apply pushedValue_refl. }
    destruct Hstep as (State2 & reps2 & -> & Hd & Hg & Hsp & He & Hst & Hroots & Hvals).
    destruct (IH Slots State2 reps2 Hrest)
      as (State' & reps' & -> & Hd' & Hg' & Hsp' & He' & Hst' & Hroots' & Hvals').
    exists State', reps'. split; [reflexivity|].
    repeat split; try congruence.
    + intros R'. rewrite Hroots', Hroots. cbn [fmap list_fmap].
      destruct (decide (R' ∈ Some <$> Slots)) as [Hin|Hnin].
      * rewrite !bool_decide_eq_true_2; [done| |done]. by apply list_elem_of_further.
      * rewrite (bool_decide_eq_false_2 _ Hnin).
        destruct (decide (Some R = R')) as [<-|Hne].
        -- rewrite lookup_insert_eq, bool_decide_eq_true_2; [done|apply list_elem_of_here].
        -- rewrite lookup_insert_ne by done. rewrite bool_decide_eq_false_2; [done|].
           intros [?|?]%elem_of_cons; congruence.
    + intros Sym. eapply pushedValue_step; [apply Hvals | apply Hvals'].
Qed.

Lemma pushSlots_fails (C : CheckerContext) (Depth : Z) (args : list Expr) :
  ∀ (State : ProgramState) (reps : list BugReport),
    (∃ A, A ∈ args ∧ getAsRegion (getSVal (getState C) A) = None) →
    ∃ reps', pushSlots C Depth args State reps
             = inr (reps' ++ [Report "JL_GC_PUSH with something other than a local variable"]).
Proof.
  induction args as [|A rest IH]; intros State reps (B & HB & Hnone).
  - by apply not_elem_of_nil in HB.
  - cbn [pushSlots]. destruct (getSVal (getState C) A) as [| | | | |R|] eqn:HA;
      try (by eexists).
    apply elem_of_cons in HB as [-> | HB]; [rewrite HA in Hnone; discriminate|].
    repeat case_match; apply IH; eauto.
Qed.

(** X3. JL_GC_PUSHn. When every argument is a region, the transition
    registers each of them as a root at the current depth and increments the
    depth (modulo 2^32); a value that is Rooted keeps its state, any other
    value keeps its state or becomes Rooted by one of the slots at that
    depth; no root is removed and nothing else changes. When some argument
    is not a region the call is reported and no transition is added: the
    slots before that argument are not registered either. *)
Theorem evalPush_registers_slots (C : CheckerContext) (args : list Expr) :
  let st := getState C in
  let Depth := to_int (GCDepth st) in
  (∀ Slots, map (getSVal st) args = map loc_MemRegionVal Slots →
     ∃ st' reps,
       evalPush C args = mkOutcome (Some st') reps
       ∧ GCDepth st' = to_unsigned (GCDepth st + 1)
       ∧ (∀ R, GCRootMap st' !! R =
               if bool_decide (R ∈ Some <$> Slots)
               then Some (RootState.getRoot Depth) else GCRootMap st !! R)
       ∧ (∀ Sym, pushedValue Slots Depth (GCValueMap st !! Sym) (GCValueMap st' !! Sym))
       ∧ GCDisabledAt st' = GCDisabledAt st
       ∧ SafepointDisabledAt st' = SafepointDisabledAt st
       ∧ Env st' = Env st ∧ Store st' = Store st)
  ∧ ((∃ A, A ∈ args ∧ getAsRegion (getSVal st A) = None) →
     transition (evalPush C args) = None
     ∧ Report "JL_GC_PUSH with something other than a local variable"
       ∈ reports (evalPush C args)).
Proof.
  intros st Depth. split.
  - intros Slots Hargs. unfold evalPush. fold st.
    destruct (pushSlots_spec C (GCDepth st) args Slots st [] Hargs)
      as (State' & reps' & -> & Hd & Hg & Hsp & He & Hst & Hroots & Hvals).
    exists (set_GCDepth (to_unsigned (GCDepth st + 1)) State'), reps'.
    split; [reflexivity|]. cbn. repeat split; done.
  - intros Hbad. unfold evalPush. fold st.
    destruct (pushSlots_fails C (GCDepth st) args st [] Hbad) as (reps' & ->).
    cbn. split; [reflexivity|]. apply elem_of_app. right. apply list_elem_of_here.
Qed.

Module PushExample.
Import Fixtures.

Definition x : MemRegion := PopExample.slot "x".

(** [JL_GC_PUSH1(&x)] with [x] holding the unrooted value 1. *)
Definition slotArg : Expr := OtherExpr 90 jl_value_pp.
Definition unrooted : CheckerContext :=
  context
    (mkState 0 unsigned_m1 unsigned_m1 fourValues ∅
       {[ 90%positive := loc_MemRegionVal x ]}
       (λ r, if decide (r = x) then valueOf 1 else UnknownVal)).

(** [JL_GC_PUSH1(v)] with [v] a value rather than the address of a slot. *)
Definition valueArg : Expr := OtherExpr 91 jl_value_p.
Definition misused : CheckerContext :=
  context (stateOf 0 fourValues ∅ {[ 91%positive := nonloc_SymbolVal (sym 1) ]}).

End PushExample.

Lemma evalPush_registers_slots_witness :
  (∃ st' reps,
     evalPush PushExample.unrooted [PushExample.slotArg] = mkOutcome (Some st') reps
     ∧ GCDepth st' = 1
     ∧ GCRootMap st' !! Some PushExample.x = Some (RootState.getRoot 0))
  ∧ transition (evalPush PushExample.misused [PushExample.valueArg]) = None.
Proof.
  destruct (evalPush_registers_slots PushExample.unrooted [PushExample.slotArg])
    as [Hok _].
  destruct (evalPush_registers_slots PushExample.misused [PushExample.valueArg])
    as [_ Hbad].
  split.
  - destruct (Hok [PushExample.x] eq_refl) as (st' & reps & Hrun & Hd & Hroots & _).
    exists st', reps. split; [exact Hrun|]. split; [exact Hd|].
    rewrite Hroots. reflexivity.
  - apply Hbad. exists PushExample.valueArg. split; [apply list_elem_of_here | reflexivity].
Defined.

(** The slots registered by a push are the roots a pop at the depth of the
    push removes. *)
Lemma registeredAt_after_push (roots roots' : gmap MemRegionRef RootState.t)
    (Slots : list MemRegion) (Depth : Z) :
  (∀ R rs, roots !! R = Some rs → RootState.RootedAtDepth rs ≠ Depth) →
  (∀ R, roots' !! R = if bool_decide (R ∈ Some <$> Slots)
                      then Some (RootState.getRoot Depth) else roots !! R) →
  ∀ R, registeredAt roots' Depth R = bool_decide (R ∈ Some <$> Slots).
Proof.
  intros Hfresh Hroots R. unfold registeredAt. rewrite Hroots.
  destruct (bool_decide (R ∈ Some <$> Slots)).
  - unfold RootState.shouldPopAtDepth. cbn. apply Z.eqb_refl.
  - destruct (roots !! R) as [rs|] eqn:HR; [|done].
    unfold RootState.shouldPopAtDepth. apply Z.eqb_neq. intros E.
    by apply (Hfresh R rs HR).
Qed.

(** A value with a state that is held in a pushed slot is Rooted after the
    push. *)
Lemma pushSlots_roots_held (C : CheckerContext) (Depth : Z) (args : list Expr) :
  ∀ Slots State reps State' reps',
    map (getSVal (getState C)) args = map loc_MemRegionVal Slots →
    pushSlots C Depth args State reps = inl (State', reps') →
    ∀ R s, R ∈ Slots →
           getAsSymbol (Store State R) false = Some s →
           is_Some (GCValueMap State !! Some s) →
           ∃ vs', GCValueMap State' !! Some s = Some vs'
                  ∧ ValueState.isRooted vs' = true.
Proof.
  induction args as [|A rest IH]; intros Slots State reps State' reps' Hargs Hrun R s HR.
  { destruct Slots; [|discriminate]. by apply not_elem_of_nil in HR. }
  destruct Slots as [|R0 Slots']; [discriminate|].
  injection Hargs as HA Hrest. cbn [pushSlots] in Hrun. rewrite HA in Hrun.
  set (State1 := set_GCRootMap (Some R0) (RootState.getRoot (to_int Depth)) State) in *.
  intros Hs Hsome.
  assert (Hnext : ∀ State2 reps2,
            pushSlots C Depth rest State2 reps2 = inl (State', reps') →
            Store State2 = Store State →
            (∀ Sym vs, GCValueMap State !! Sym = Some vs →
                       ∃ vs2, GCValueMap State2 !! Sym = Some vs2
                              ∧ (ValueState.isRooted vs = true → vs2 = vs)) →
            (R = R0 → ∃ vs2, GCValueMap State2 !! Some s = Some vs2
                             ∧ ValueState.isRooted vs2 = true) →
            ∃ vs', GCValueMap State' !! Some s = Some vs'
                   ∧ ValueState.isRooted vs' = true).
  { intros State2 reps2 Hrun2 HStore Hkeep Hhead.
    apply elem_of_cons in HR as [HR | HR].
    - destruct (Hhead HR) as (vs2 & Hvs2 & Hrt).
      destruct (pushSlots_spec C Depth rest Slots' State2 reps2 Hrest)
        as (State'' & reps'' & Heq & _ & _ & _ & _ & _ & _ & Hvals).
      rewrite Heq in Hrun2. injection Hrun2 as <- <-.
      specialize (Hvals (Some s)). rewrite Hvs2 in Hvals. cbn in Hvals.
      rewrite Hrt in Hvals. by exists vs2.
    - apply (IH Slots' State2 reps2 State' reps' Hrest Hrun2 R s HR).
      + by rewrite HStore.
      + destruct Hsome as [vs Hvs]. destruct (Hkeep _ _ Hvs) as (vs2 & -> & _).
        by eexists. }
  assert (Hsame : ∀ Sym vs, GCValueMap State1 !! Sym = Some vs →
            ∃ vs2, GCValueMap State1 !! Sym = Some vs2
                   ∧ (ValueState.isRooted vs = true → vs2 = vs)) by eauto.
  destruct (getAsSymbol (Store State1 R0) false) as [s0|] eqn:Hs0; cycle 1.
  { apply (Hnext _ _ Hrun); [reflexivity | exact Hsame |].
    intros ->. change (Store State1 R0) with (Store State R0) in Hs0. congruence. }
  destruct (GCValueMap State1 !! Some s0) as [ValState|] eqn:HV; cycle 1.
  { apply (Hnext _ _ Hrun); [reflexivity | exact Hsame |].
    intros ->. change (Store State1 R0) with (Store State R0) in Hs0.
    assert (s0 = s) by congruence. subst s0.
    change (GCValueMap State1) with (GCValueMap State) in HV.
    rewrite HV in Hsome. by destruct Hsome. }
  destruct (ValueState.isRooted ValState) eqn:Hrt; cbn [negb] in Hrun.
  - apply (Hnext _ _ Hrun); [reflexivity | exact Hsame |].
    intros ->. change (Store State1 R0) with (Store State R0) in Hs0.
    assert (s0 = s) by congruence. subst s0. by exists ValState.
  - apply (Hnext _ _ Hrun); [reflexivity | |].
    + intros Sym vs Hvs. cbn. destruct (decide (Sym = Some s0)) as [->|Hne].
      * rewrite lookup_insert_eq. eexists. split; [reflexivity|].
        change (GCValueMap State1) with (GCValueMap State) in HV.
        rewrite HV in Hvs. injection Hvs as <-. rewrite Hrt. discriminate.
      * rewrite lookup_insert_ne by done. eauto.
    + intros ->. change (Store State1 R0) with (Store State R0) in Hs0.
      assert (s0 = s) by congruence. subst s0. cbn. rewrite lookup_insert_eq.
      by eexists.
Qed.

(** X4. JL_GC_PUSHn followed by JL_GC_POP, below the depth 2^32 - 1 and with
    no root registered at the current depth yet. The depth is back at what
    it was; the root map is the one before the push without the slots; no
    value is left Rooted by a slot; a value keeps the state it had before
    the push or ends up Allocated, and it keeps its state for sure when it
    was Rooted by something other than a slot. A value with a state that is
    not Rooted and is held in a pushed slot ends up Allocated: so does a
    PotentiallyFreed one. *)
Theorem push_then_pop (C : CheckerContext) (args : list Expr) (Slots : list MemRegion) :
  let st := getState C in
  map (getSVal st) args = map loc_MemRegionVal Slots →
  0 ≤ GCDepth st < 2 ^ 32 - 1 →
  (∀ R rs, GCRootMap st !! R = Some rs →
           RootState.RootedAtDepth rs ≠ to_int (GCDepth st)) →
  ∃ st1 reps st2,
    evalPush C args = mkOutcome (Some st1) reps
    ∧ evalPop (contextAt C st1) = mkOutcome (Some st2) []
    ∧ GCDepth st2 = GCDepth st
    ∧ (∀ R, GCRootMap st2 !! R =
            if bool_decide (R ∈ Some <$> Slots) then None else GCRootMap st !! R)
    ∧ (∀ Sym vs, GCValueMap st2 !! Sym = Some vs → ValueState.isRooted vs = true →
                 ValueState.Root vs ∉ Some <$> Slots)
    ∧ (∀ Sym vs, GCValueMap st !! Sym = Some vs →
                 GCValueMap st2 !! Sym = Some vs
                 ∨ GCValueMap st2 !! Sym = Some ValueState.getAllocated)
    ∧ (∀ Sym vs, GCValueMap st !! Sym = Some vs → ValueState.isRooted vs = true →
                 ValueState.Root vs ∉ Some <$> Slots →
                 GCValueMap st2 !! Sym = Some vs)
    ∧ (∀ R Sym vs, R ∈ Slots →
                   getAsSymbol (Store st R) false = Some Sym →
                   GCValueMap st !! Some Sym = Some vs →
                   ValueState.isRooted vs = false →
                   GCValueMap st2 !! Some Sym = Some ValueState.getAllocated).
Proof.
  intros st Hargs Hrange Hfresh. unfold evalPush. fold st.
  destruct (pushSlots_spec C (GCDepth st) args Slots st [] Hargs)
    as (State' & reps' & Hpush & Hd & Hg & Hsp & He & Hst & Hroots & Hvals).
  rewrite Hpush.
  set (st1 := set_GCDepth (to_unsigned (GCDepth st + 1)) State').
  assert (Hd1 : GCDepth st1 = GCDepth st + 1).
  { cbn. unfold to_unsigned, UINT_MOD. apply Z.mod_small. lia. }
  destruct (evalPop_spec (contextAt C st1)) as (st2 & Hpop & Hd2 & Hr2 & Hv2 & _).
  { cbn [getState contextAt]. rewrite Hd1. lia. }
  cbn [getState contextAt] in Hd2, Hr2, Hv2. rewrite Hd1 in Hd2, Hr2, Hv2.
  replace (GCDepth st + 1 - 1) with (GCDepth st) in Hd2, Hr2, Hv2 by lia.
  assert (Hreg := registeredAt_after_push (GCRootMap st) (GCRootMap st1) Slots
                    (to_int (GCDepth st)) Hfresh Hroots).
  exists st1, reps', st2. split; [reflexivity|]. split; [exact Hpop|].
  split; [exact Hd2|]. split; [|split; [|split; [|split]]].
  - intros R. rewrite Hr2, Hreg. change (GCRootMap st1) with (GCRootMap State').
    rewrite Hroots. by destruct (bool_decide _).
  - intros Sym vs. rewrite Hv2. change (GCValueMap st1) with (GCValueMap State').
    destruct (GCValueMap State' !! Sym) as [v1|]; [|discriminate]. cbn.
    unfold afterPop. rewrite Hreg. intros [= <-].
    destruct (ValueState.isRooted v1) eqn:Hr1; cbn [andb].
    + destruct (bool_decide _) eqn:Hin; [discriminate|].
      intros _. by apply bool_decide_eq_false in Hin.
    + rewrite Hr1. discriminate.
  - intros Sym vs Hvs. rewrite Hv2. change (GCValueMap st1) with (GCValueMap State').
    specialize (Hvals Sym). rewrite Hvs in Hvals. cbn in Hvals. unfold afterPop.
    destruct (ValueState.isRooted vs) eqn:Hr.
    + rewrite Hvals. cbn. rewrite Hr, Hreg. destruct (bool_decide _); auto.
    + destruct Hvals as [-> | (R & HR & ->)]; cbn.
      * rewrite Hr. by left.
      * right. rewrite Hreg, bool_decide_eq_true_2; [done|].
        cbn. apply list_elem_of_fmap. eauto.
  - intros Sym vs Hvs Hr Hnot. rewrite Hv2. change (GCValueMap st1) with (GCValueMap State').
    specialize (Hvals Sym). rewrite Hvs in Hvals. cbn in Hvals. rewrite Hr in Hvals.
    rewrite Hvals. cbn. unfold afterPop. rewrite Hr, Hreg.
    by rewrite (bool_decide_eq_false_2 _ Hnot).
  - intros R Sym vs HR Hheld Hvs Hr.
    destruct (pushSlots_roots_held C (GCDepth st) args Slots st [] State' reps'
                Hargs Hpush R Sym HR Hheld) as (vs1 & Hvs1 & Hr1); [by eexists|].
    rewrite Hv2. change (GCValueMap st1) with (GCValueMap State').
    specialize (Hvals (Some Sym)). rewrite Hvs, Hvs1 in Hvals. cbn in Hvals.
    rewrite Hr in Hvals. destruct Hvals as [[= ->] | (R' & HR' & [= ->])];
      [congruence|].
    rewrite Hvs1. cbn. unfold afterPop. cbn. rewrite Hreg, bool_decide_eq_true_2; [done|].
    apply list_elem_of_fmap. eauto.
Qed.

Module PushFreedExample.
Import Fixtures.

(** [JL_GC_PUSH1(&x)] with [x] holding value 3, which may have been
    collected. *)
Definition freed : CheckerContext :=
  context
    (mkState 0 unsigned_m1 unsigned_m1 fourValues ∅
       {[ 90%positive := loc_MemRegionVal PushExample.x ]}
       (λ r, if decide (r = PushExample.x) then valueOf 3 else UnknownVal)).

End PushFreedExample.

Lemma push_then_pop_witness :
  ∃ st1 reps st2,
    evalPush PushFreedExample.freed [PushExample.slotArg] = mkOutcome (Some st1) reps
    ∧ evalPop (contextAt PushFreedExample.freed st1) = mkOutcome (Some st2) []
    ∧ GCDepth st2 = 0
    ∧ GCRootMap st2 !! Some PushExample.x = None
    ∧ GCValueMap st2 !! Some (Fixtures.sym 2) = Some (ValueState.getRooted None (-1))
    ∧ GCValueMap (getState PushFreedExample.freed) !! Some (Fixtures.sym 3)
      = Some ValueState.getFreed
    ∧ GCValueMap st2 !! Some (Fixtures.sym 3) = Some ValueState.getAllocated.
Proof.
  destruct (push_then_pop PushFreedExample.freed [PushExample.slotArg] [PushExample.x]
              eq_refl)
    as (st1 & reps & st2 & Hpush & Hpop & Hd & Hroots & _ & _ & Hkept & Hheld).
  { cbn. lia. }
  { intros R rs H. vm_compute in H. discriminate H. }
  exists st1, reps, st2. split; [exact Hpush|]. split; [exact Hpop|].
  split; [exact Hd|]. split; [|split; [|split; [reflexivity|]]].
  - rewrite Hroots. reflexivity.
  - apply Hkept; [reflexivity | reflexivity |].
    intros H. apply list_elem_of_fmap in H as (R & HR & _). discriminate HR.
  - apply (Hheld PushExample.x (Fixtures.sym 3) ValueState.getFreed);
      [apply list_elem_of_here | reflexivity | reflexivity | reflexivity].
Defined.

(** *** Function frames and the two markers *)

(** The depth and the two markers of a state. *)
Definition sameFrame (s s' : ProgramState) : Prop :=
  GCDepth s' = GCDepth s ∧ GCDisabledAt s' = GCDisabledAt s
  ∧ SafepointDisabledAt s' = SafepointDisabledAt s.

Lemma propagateParams_sameFrame (params : list VarDecl) (args : list Expr) :
  ∀ idx State Change reps State' Change' reps',
    propagateParams params args idx State Change reps = Some (State', Change', reps') →
    sameFrame State State'.
Proof.
  induction params as [|P rest IH]; intros idx State Change reps State' Change' reps'.
  - cbn. by intros [= <- _ _].
  - cbn [propagateParams]. destruct (negb _); [by apply IH|].
    destruct (args !! idx); [|discriminate]. cbn [mbind option_bind].
    repeat case_match; intros Hrun; apply IH in Hrun; exact Hrun.
Qed.

Lemma initParams_sameFrame (fd : FunctionDecl) (safepoint : bool) (params : list VarDecl) :
  ∀ State, sameFrame State (initParams fd safepoint params State).
Proof.
  induction params as [|P rest IH]; intros State; [done|].
  cbn [initParams]. repeat case_match; try apply IH.
  - destruct (IH (set_GCRootMap (getAsRegion (getParamSVal State P))
                    (RootState.getRoot (-1)) State)) as (? & ? & ?). done.
  - match goal with |- sameFrame _ (initParams _ _ _ ?S) =>
      destruct (IH S) as (? & ? & ?) end. done.
Qed.

Lemma propagateArgumentRootedness_sameFrame (C : CheckerContext)
    (State State' : ProgramState) (Change : bool) (reps : list BugReport) :
  propagateArgumentRootedness C State = Some (State', Change, reps) →
  sameFrame State State'.
Proof.
  unfold propagateArgumentRootedness.
  repeat case_match; try (by intros [= <- _ _]).
  apply propagateParams_sameFrame.
Qed.

Lemma getStackFrameHeight_top (C : CheckerContext) :
  inTopFrame C = true → getStackFrameHeight C = 1.
Proof.
  unfold inTopFrame, getStackFrameHeight. destruct (cc_parents C); [|discriminate].
  reflexivity.
Qed.

(** The markers [checkBeginFunction] leaves, in the state of its transition
    or, if it adds none, in the state it was called in. *)
Lemma checkBeginFunction_markers (C : CheckerContext) (fd : FunctionDecl)
    (out : Outcome) :
  sf_decl (cc_frame C) = Some fd →
  checkBeginFunction C = Some out →
  let st := getState C in
  let st1 := default st (transition out) in
  let g0 := if inTopFrame C then unsigned_m1 else GCDisabledAt st in
  let s0 := if inTopFrame C then unsigned_m1 else SafepointDisabledAt st in
  GCDepth st1 = GCDepth st
  ∧ GCDisabledAt st1
    = (if (g0 =? unsigned_m1) && declHasAnnotation fd "julia_gc_disabled"
       then getStackFrameHeight C else g0)
  ∧ SafepointDisabledAt st1
    = (if (s0 =? unsigned_m1)
          && (isFDAnnotatedNotSafepoint fd
              || declHasAnnotation fd "julia_notsafepoint_leave")
       then getStackFrameHeight C else s0)
  ∧ (inTopFrame C = true → is_Some (transition out)).
Proof.
  intros Hfd Hrun st st1 g0 s0. subst st st1 g0 s0. revert Hrun.
  unfold checkBeginFunction. rewrite Hfd. cbn [mbind option_bind].
  unfold gcEnabledHere, safepointEnabledHere. rewrite negb_involutive.
  destruct (inTopFrame C) eqn:Htop; cbn [negb].
  - cbn [set_SafepointDisabledAt set_GCDisabledAt GCDisabledAt SafepointDisabledAt].
    rewrite Z.eqb_refl. cbn [andb].
    destruct (declHasAnnotation fd "julia_gc_disabled");
      cbn [set_SafepointDisabledAt set_GCDisabledAt GCDisabledAt SafepointDisabledAt];
      rewrite Z.eqb_refl; cbn [andb];
      destruct (isFDAnnotatedNotSafepoint fd || declHasAnnotation fd "julia_notsafepoint_leave");
      intros [= <-]; cbn [transition default from_option id];
      match goal with |- context [initParams ?a ?b ?c ?S] =>
        destruct (initParams_sameFrame a b c S) as (E1 & E2 & E3) end;
      cbn [GCDepth GCDisabledAt SafepointDisabledAt set_SafepointDisabledAt
           set_GCDisabledAt] in E1, E2, E3;
      rewrite E1, E2, E3; eauto.
  - destruct ((GCDisabledAt (getState C) =? unsigned_m1)
              && declHasAnnotation fd "julia_gc_disabled") eqn:Hg;
      cbn [set_SafepointDisabledAt set_GCDisabledAt GCDisabledAt SafepointDisabledAt];
      destruct ((SafepointDisabledAt (getState C) =? unsigned_m1)
                && (isFDAnnotatedNotSafepoint fd
                    || declHasAnnotation fd "julia_notsafepoint_leave")) eqn:Hs;
      match goal with |- context [propagateArgumentRootedness C ?S] =>
        destruct (propagateArgumentRootedness C S) as [[[S' P'] r']|] eqn:Hp;
        [|discriminate] end;
      cbn [mbind option_bind]; intros [= <-]; cbn [transition];
      apply propagateArgumentRootedness_sameFrame in Hp as (Hp1 & Hp2 & Hp3);
      cbn [GCDepth GCDisabledAt SafepointDisabledAt set_SafepointDisabledAt
           set_GCDisabledAt] in Hp1, Hp2, Hp3;
      (split; [|split; [|split]]); try discriminate;
      destruct P'; cbn [orb default from_option id]; congruence.
Qed.

(** What [checkEndFunction] does in the frame of a function. *)
Lemma checkEndFunction_markers (RS : option (option Expr)) (C : CheckerContext)
    (fd : FunctionDecl) :
  sf_decl (cc_frame C) = Some fd →
  let st := getState C in
  let h := getStackFrameHeight C in
  ∃ out, checkEndFunction RS C = Some out
    ∧ (let st2 := default st (transition out) in
       GCDepth st2 = GCDepth st
       ∧ GCDisabledAt st2 = (if GCDisabledAt st =? h then unsigned_m1 else GCDisabledAt st)
       ∧ SafepointDisabledAt st2
         = (if SafepointDisabledAt st =? h then unsigned_m1 else SafepointDisabledAt st)
       ∧ GCValueMap st2 = GCValueMap st ∧ GCRootMap st2 = GCRootMap st)
    ∧ (Report "Safepoints disabled at end of function" ∈ reports out
       ↔ SafepointDisabledAt st = h ∧ isFDAnnotatedNotSafepoint fd = false
         ∧ declHasAnnotation fd "julia_notsafepoint_enter" = false)
    ∧ (Report "Non-popped GC frame present at end of function" ∈ reports out
       ↔ inTopFrame C = true ∧ GCDepth st ≠ 0).
Proof.
  intros Hfd st h. unfold checkEndFunction. rewrite Hfd. fold st. fold h.
  match goal with |- context [mkOutcome _ (?r ++ _)] => set (reps1 := r) end.
  assert (H1 : ∀ m, Report m ∉ reps1).
  { intros m. subst reps1. repeat case_match; try apply not_elem_of_nil.
    intros H'. apply list_elem_of_singleton in H'. discriminate H'. }
  destruct (GCDisabledAt st =? h) eqn:Hg;
    cbn [SafepointDisabledAt set_GCDisabledAt];
    destruct (SafepointDisabledAt st =? h) eqn:Hs; cbn [mbind option_bind];
    eexists; (split; [reflexivity|]); cbn [transition reports default from_option id];
    (split; [cbn; rewrite ?Hg, ?Hs; done|]);
    rewrite ?Z.eqb_eq, ?Z.eqb_neq in Hs;
    (split; [|]).
  all: rewrite !elem_of_app.
  all: try (split; [intros [H'|[H'|H']]; [by apply H1 in H'| |] | ]).
  all: repeat match goal with
       | H' : _ ∈ (if ?c then _ else _) |- _ => destruct c eqn:?
       | H' : _ ∈ [] |- _ => by apply not_elem_of_nil in H'
       | H' : Report _ ∈ [Report _] |- _ =>
           apply list_elem_of_singleton in H'; try discriminate H'
       end.
  all: rewrite ?andb_true_iff, ?negb_true_iff, ?Z.eqb_neq in *.
  all: try (intuition congruence).
  all: try (intros (Ha & Hb & Hc); right; left; rewrite Hb, Hc; apply list_elem_of_here).
  all: try (intros (Ha & Hb); right; right; rewrite Ha;
            apply Z.eqb_neq in Hb; fold st; rewrite Hb; apply list_elem_of_here).
Qed.

(** X5. The begin and the end of a function, with states in between that
    keep the two markers as [checkBeginFunction] left them. In the frame of
    an inlined call each marker ends as it was before the function began,
    unless it held the height of this very frame already; in the top frame
    both end enabled, whatever they were. The depth and the two maps are
    those of the state the function ends in. In the top frame "Safepoints
    disabled at end of function" is reported exactly for a function that is
    a safepoint, annotated "julia_notsafepoint_leave" and not annotated
    "julia_notsafepoint_enter". *)
Theorem function_frame_restores_markers (C : CheckerContext) (out : Outcome)
    (Mid : ProgramState) (RS : option (option Expr)) :
  let st := getState C in
  let h := getStackFrameHeight C in
  checkBeginFunction C = Some out →
  GCDisabledAt Mid = GCDisabledAt (default st (transition out)) →
  SafepointDisabledAt Mid = SafepointDisabledAt (default st (transition out)) →
  ∃ fd out2,
    sf_decl (cc_frame C) = Some fd
    ∧ checkEndFunction RS (contextAt C Mid) = Some out2
    ∧ (let st2 := default Mid (transition out2) in
       GCDepth st2 = GCDepth Mid ∧ GCValueMap st2 = GCValueMap Mid
       ∧ GCRootMap st2 = GCRootMap Mid
       ∧ if inTopFrame C
         then GCDisabledAt st2 = unsigned_m1 ∧ SafepointDisabledAt st2 = unsigned_m1
              ∧ (Report "Safepoints disabled at end of function" ∈ reports out2
                 ↔ isFDAnnotatedNotSafepoint fd = false
                   ∧ declHasAnnotation fd "julia_notsafepoint_leave" = true
                   ∧ declHasAnnotation fd "julia_notsafepoint_enter" = false)
         else (GCDisabledAt st ≠ h → GCDisabledAt st2 = GCDisabledAt st)
              ∧ (SafepointDisabledAt st ≠ h →
                 SafepointDisabledAt st2 = SafepointDisabledAt st)).
Proof.
  intros st h Hbegin HG HS.
  destruct (sf_decl (cc_frame C)) as [fd|] eqn:Hfd;
    [|unfold checkBeginFunction in Hbegin; rewrite Hfd in Hbegin; discriminate].
  destruct (checkBeginFunction_markers C fd out Hfd Hbegin) as (_ & Hg1 & Hs1 & _).
  fold st in Hg1, Hs1. rewrite <- HG in Hg1. rewrite <- HS in Hs1.
  destruct (checkEndFunction_markers RS (contextAt C Mid) fd Hfd)
    as (out2 & Hend & (Hd & Hg2 & Hs2 & Hv & Hr) & Hrep & _).
  cbn [getState contextAt] in Hd, Hg2, Hs2, Hv, Hr, Hrep.
  change (getStackFrameHeight (contextAt C Mid)) with h in Hg2, Hs2, Hrep.
  fold h in Hg1, Hs1.
  exists fd, out2. split; [reflexivity|]. split; [exact Hend|].
  cbv zeta. split; [exact Hd|]. split; [exact Hv|]. split; [exact Hr|].
  rewrite Hg2, Hs2. clear Hg2 Hs2 Hd Hv Hr Hend.
  destruct (inTopFrame C) eqn:Htop.
  - assert (Hh : h = 1) by (by apply getStackFrameHeight_top).
    rewrite Z.eqb_refl in Hg1, Hs1. cbn [andb] in Hg1, Hs1.
    assert (Hm : (unsigned_m1 =? h) = false) by (rewrite Hh; reflexivity).
    split; [|split].
    + rewrite Hg1. destruct (declHasAnnotation fd "julia_gc_disabled");
        [by rewrite Z.eqb_refl | by rewrite Hm].
    + rewrite Hs1. destruct (_ || _); [by rewrite Z.eqb_refl | by rewrite Hm].
    + rewrite Hrep, Hs1.
      destruct (isFDAnnotatedNotSafepoint fd), (declHasAnnotation fd "julia_notsafepoint_leave");
        cbn [orb]; rewrite ?Hh; intuition (try discriminate; try reflexivity).
  - split; intros Hne.
    + rewrite Hg1. destruct ((GCDisabledAt st =? unsigned_m1) && _) eqn:Hc.
      * rewrite Z.eqb_refl. apply andb_true_iff in Hc as [Hc _].
        apply Z.eqb_eq in Hc. by rewrite Hc.
      * by apply Z.eqb_neq in Hne as ->.
    + rewrite Hs1. destruct ((SafepointDisabledAt st =? unsigned_m1) && _) eqn:Hc.
      * rewrite Z.eqb_refl. apply andb_true_iff in Hc as [Hc _].
        apply Z.eqb_eq in Hc. by rewrite Hc.
      * by apply Z.eqb_neq in Hne as ->.
Qed.

Module FrameExample.
Import Fixtures.

(** A function annotated JL_NOTSAFEPOINT_LEAVE, analysed on its own, and a
    function annotated JL_NOTSAFEPOINT inlined into [here] while the GC is
    disabled by [jl_gc_enable(0)]. *)
Definition leave : FunctionDecl := func "leave" ["julia_notsafepoint_leave"] [].
Definition top : CheckerContext := contextIn leave (stateOf 0 ∅ ∅ ∅).

Definition quiet : FunctionDecl := func "quiet" ["julia_not_safepoint"] [].
Definition site : Expr := callExpr 70 void_t quiet [].
Definition inlined : CheckerContext :=
  mkContext (mkState 0 unsigned_m2 unsigned_m1 ∅ ∅ ∅ emptyStore)
    (mkFrame (Some quiet) (Some site)) [mkFrame (Some here) None]
    (conjureSymbolVal top) (getCalleeDecl top) (recordFields top).

End FrameExample.

Lemma function_frame_restores_markers_witness :
  (∃ out2,
     checkEndFunction None (contextAt FrameExample.top
                              (default (getState FrameExample.top)
                                 (checkBeginFunction FrameExample.top ≫= transition)))
     = Some out2
     ∧ Report "Safepoints disabled at end of function" ∈ reports out2)
  ∧ (∃ out out2,
       checkBeginFunction FrameExample.inlined = Some out
       ∧ SafepointDisabledAt (default (getState FrameExample.inlined) (transition out)) = 2
       ∧ checkEndFunction None
           (contextAt FrameExample.inlined
              (default (getState FrameExample.inlined) (transition out)))
         = Some out2
       ∧ GCDisabledAt
           (default (default (getState FrameExample.inlined) (transition out))
                    (transition out2))
         = unsigned_m2
       ∧ SafepointDisabledAt
           (default (default (getState FrameExample.inlined) (transition out))
                    (transition out2))
         = unsigned_m1).
Proof.
  split.
  - destruct (checkBeginFunction FrameExample.top) as [out|] eqn:Hb;
      [|vm_compute in Hb; discriminate Hb].
    destruct (function_frame_restores_markers FrameExample.top out
                (default (getState FrameExample.top) (transition out)) None
                Hb eq_refl eq_refl)
      as (fd & out2 & Hfd & Hend & _ & _ & _ & Htop).
    injection Hfd as <-. cbn [inTopFrame FrameExample.top Fixtures.contextIn cc_parents] in Htop.
    exists out2. split; [exact Hend|]. apply Htop. by vm_compute.
  - destruct (checkBeginFunction FrameExample.inlined) as [out|] eqn:Hb;
      [|vm_compute in Hb; discriminate Hb].
    destruct (function_frame_restores_markers FrameExample.inlined out
                (default (getState FrameExample.inlined) (transition out)) None
                Hb eq_refl eq_refl)
      as (fd & out2 & Hfd & Hend & _ & _ & _ & Hin).
    cbn [inTopFrame FrameExample.inlined cc_parents] in Hin.
    exists out, out2. split; [reflexivity|].
    split; [vm_compute in Hb; injection Hb as <-; reflexivity|].
    split; [exact Hend|].
    destruct Hin as [Hg Hs]. split.
    + rewrite Hg; [reflexivity|]. intros H. vm_compute in H. discriminate H.
    + rewrite Hs; [reflexivity|]. intros H. vm_compute in H. discriminate H.
Defined.

(** *** Locks *)

Lemma isMutexLock_evalCall (Call : CallEvent) (C : CheckerContext) id ty callee cd args :
  getOriginExpr Call = Some (CallExpr id ty callee cd args) →
  isMutexLock (getCalleeName C (CallExpr id ty callee cd args)) = true →
  evalCall Call C
  = Some (if SafepointDisabledAt (getState C) =? unsigned_m1
          then (true, mkOutcome (Some (set_SafepointDisabledAt (getStackFrameHeight C)
                                         (getState C))) [])
          else (false, mkOutcome None [])).
Proof.
  intros HO Hlock. unfold evalCall. rewrite HO. cbn [mbind option_bind].
  revert Hlock. generalize (getCalleeName C (CallExpr id ty callee cd args)) as name.
  intros name Hlock. pose proof Hlock as Hname.
  unfold isMutexLock in Hname. apply existsb_exists in Hname as (s & Hin & Heq).
  apply bool_decide_eq_true in Heq. subst s. rewrite Hlock. cbn [orb andb].
  cbn [In] in Hin.
  repeat (destruct Hin as [<- | Hin]; [by destruct (_ =? _)|]).
  destruct Hin.
Qed.

Lemma checkArguments_value_reports (Call : CallEvent) (C : CheckerContext)
    (State : ProgramState) (isCalleeSafepoint : bool) (FD : option FunctionDecl)
    (r : BugReport) :
  r ∈ checkArguments Call C State isCalleeSafepoint FD →
  ∃ idx Sym vs msg,
    (idx < getNumArgs Call)%nat
    ∧ argumentSymbol (getArgSVal (getState C) Call idx) = Some Sym
    ∧ GCValueMap State !! Some Sym = Some vs
    ∧ r = ValueReport (Some Sym) msg
    ∧ ((msg = "Argument value may have been GCed"
        ∧ ValueState.isPotentiallyFreed vs = true)
       ∨ (msg = "Passing non-rooted value as argument to function that may GC"
          ∧ ValueState.isRooted vs = false ∧ isCalleeSafepoint = true
          ∧ maybeUnrootedParam FD idx = false)).
Proof.
  unfold checkArguments. intros Hr. apply list_elem_of_In, in_concat in Hr.
  destruct Hr as (l & Hl & Hr). apply in_map_iff in Hl as (idx & <- & Hidx).
  apply in_seq in Hidx. apply list_elem_of_In in Hr. unfold checkArgument in Hr.
  destruct (argumentSymbol _) as [Sym|] eqn:HSym; [|by apply not_elem_of_nil in Hr].
  destruct (GCValueMap State !! Some Sym) as [vs|] eqn:Hvs;
    [|by apply not_elem_of_nil in Hr].
  destruct (match getArgExpr Call idx with Some E => _ | None => _ end);
    [by apply not_elem_of_nil in Hr|].
  exists idx, Sym, vs.
  apply elem_of_app in Hr as [Hr | Hr].
  - destruct (ValueState.isPotentiallyFreed vs) eqn:Hpf;
      [|by apply not_elem_of_nil in Hr].
    apply list_elem_of_singleton in Hr. eexists.
    split; [lia|]. split; [exact HSym|]. split; [exact Hvs|]. split; [exact Hr|].
    left. done.
  - destruct (ValueState.isRooted vs) eqn:Hrt; [by apply not_elem_of_nil in Hr|].
    destruct (negb _ && _) eqn:Hc; [|by apply not_elem_of_nil in Hr].
    apply list_elem_of_singleton in Hr. apply andb_true_iff in Hc as [Hm Hsp].
    apply negb_true_iff in Hm. eexists.
    split; [lia|]. split; [exact HSym|]. split; [exact Hvs|]. split; [exact Hr|].
    right. done.
Qed.

(** X6. Taking and releasing a lock, in a function that is a safepoint,
    with GC and safepoints enabled. The call of a lock function disables
    safepoints at the height of the frame; while they are disabled, the
    pre-call check of a safepoint (not noreturn, not itself unlocking) asks
    for the one report "Calling potential safepoint as ... from function
    annotated JL_NOTSAFEPOINT" and looks at no argument; the pre-call check
    of an unlock function adds the state from before the lock as its
    transition and asks for no such report. *)
Theorem lock_then_unlock (Lock Unlock : CallEvent) (C : CheckerContext)
    id ty callee cd args (Here ufd : FunctionDecl) :
  let st := getState C in
  let st1 := set_SafepointDisabledAt (getStackFrameHeight C) st in
  getOriginExpr Lock = Some (CallExpr id ty callee cd args) →
  isMutexLock (getCalleeName C (CallExpr id ty callee cd args)) = true →
  gcEnabledHere st = true →
  safepointEnabledHere st = true →
  getStackFrameHeight C ≠ unsigned_m1 →
  sf_decl (cc_frame C) = Some Here →
  isFDAnnotatedNotSafepoint Here = false →
  calleeFunction Unlock = Some ufd →
  isMutexUnlock (default "" (fd_name ufd)) = true →
  evalCall Lock C = Some (true, mkOutcome (Some st1) [])
  ∧ (∀ Call,
       isSafepoint Call = true →
       (∀ fd, calleeFunction Call = Some fd →
              fd_isNoReturn fd = false
              ∧ isMutexUnlock (default "" (fd_name fd)) = false
              ∧ declHasAnnotation fd "julia_notsafepoint_leave" = false) →
       checkPreCall Call (contextAt C st1)
       = Some (mkOutcome None [Report (safepointViolationMessage Call)]))
  ∧ ∃ reps,
      checkPreCall Unlock (contextAt C st1) = Some (mkOutcome (Some st) reps)
      ∧ ∀ m, Report m ∉ reps.
Proof.
  intros st st1 HO Hlock Hgc Hsp Hh HHere Hsafe Hufd Hunlock.
  unfold safepointEnabledHere in Hsp. pose proof Hsp as Hsp'. apply Z.eqb_eq in Hsp'.
  split; [|split].
  - rewrite (isMutexLock_evalCall _ _ _ _ _ _ _ HO Hlock). fold st. by rewrite Hsp.
  - intros Call Hsafepoint Hplain. unfold checkPreCall.
    change (getState (contextAt C st1)) with st1.
    change (gcEnabledHere st1) with (gcEnabledHere st). rewrite Hgc. cbn [negb].
    assert (Hu : unlockSafepoints Call (contextAt C st1) = Some (st1, None)).
    { unfold unlockSafepoints.
      destruct (calleeFunction Call) as [fd|] eqn:Hfd.
      - destruct (Hplain fd eq_refl) as (_ & -> & ->). reflexivity.
      - reflexivity. }
    rewrite Hu. cbn [mbind option_bind].
    assert (Hv : safepointViolation Call st1 = true).
    { unfold safepointViolation, safepointEnabledHere.
      change (SafepointDisabledAt st1) with (getStackFrameHeight C).
      apply Z.eqb_neq in Hh. rewrite Hh, Hsafepoint. cbn [negb andb].
      destruct (calleeFunction Call) as [fd|] eqn:Hfd; [|reflexivity].
      destruct (Hplain fd eq_refl) as (-> & _). reflexivity. }
    by rewrite Hv.
  - unfold checkPreCall.
    change (getState (contextAt C st1)) with st1.
    change (gcEnabledHere st1) with (gcEnabledHere st). rewrite Hgc. cbn [negb].
    assert (Hst : set_SafepointDisabledAt unsigned_m1 st1 = st).
    { subst st1. revert Hsp'. destruct st. cbn. by intros ->. }
    assert (Hu : unlockSafepoints Unlock (contextAt C st1) = Some (st, Some st)).
    { unfold unlockSafepoints. rewrite Hufd, Hunlock. cbn [orb].
      change (getState (contextAt C st1)) with st1.
      change (SafepointDisabledAt st1) with (getStackFrameHeight C).
      change (getStackFrameHeight (contextAt C st1)) with (getStackFrameHeight C).
      rewrite Z.eqb_refl.
      change (sf_decl (cc_frame (contextAt C st1))) with (sf_decl (cc_frame C)).
      rewrite HHere, Hsafe. cbn [negb]. by rewrite Hst. }
    rewrite Hu. cbn [mbind option_bind].
    assert (Hv : safepointViolation Unlock st = false).
    { unfold safepointViolation, safepointEnabledHere. by rewrite Hsp. }
    rewrite Hv. destruct (isPromiseRooted Unlock).
    + eexists. split; [reflexivity|]. intros m. apply not_elem_of_nil.
    + eexists. split; [reflexivity|]. intros m Hm.
      apply checkArguments_value_reports in Hm as (? & ? & ? & ? & _ & _ & _ & Hm & _).
      discriminate Hm.
Qed.

Module LockExample.
Import Fixtures.

Definition mutex_p : QualType := PointerType (TagType "uv_mutex_t").
Definition uv_mutex_lock : FunctionDecl :=
  func "uv_mutex_lock" ["julia_not_safepoint"] [param "m" mutex_p []].
Definition uv_mutex_unlock : FunctionDecl :=
  func "uv_mutex_unlock" ["julia_not_safepoint"] [param "m" mutex_p []].
Definition lock : CallEvent := callOf 60 void_t uv_mutex_lock [OtherExpr 61 mutex_p].
Definition unlock : CallEvent := callOf 62 void_t uv_mutex_unlock [OtherExpr 63 mutex_p].

(** [jl_apply(v)] with [v] rooted. *)
Definition apply : CallEvent := callOf 64 jl_value_p jl_apply [valueExpr 65].
Definition free : CheckerContext :=
  context (stateOf 0 fourValues ∅ {[ 65%positive := valueOf 2 ]}).

End LockExample.

Lemma lock_then_unlock_witness :
  let locked := set_SafepointDisabledAt 1 (getState LockExample.free) in
  evalCall LockExample.lock LockExample.free = Some (true, mkOutcome (Some locked) [])
  ∧ checkPreCall LockExample.apply (contextAt LockExample.free locked)
    = Some (mkOutcome None
              [Report "Calling potential safepoint as function from function annotated JL_NOTSAFEPOINT"])
  ∧ ∃ reps, checkPreCall LockExample.unlock (contextAt LockExample.free locked)
            = Some (mkOutcome (Some (getState LockExample.free)) reps).
Proof.
  destruct (lock_then_unlock LockExample.lock LockExample.unlock LockExample.free
              _ _ _ _ _ Fixtures.here LockExample.uv_mutex_unlock
              eq_refl eq_refl eq_refl eq_refl)
    as (Hlock & Hcall & reps & Hunlock & _); try reflexivity.
  { intros H. vm_compute in H. discriminate H. }
  split; [exact Hlock|]. split.
  - apply (Hcall LockExample.apply); [reflexivity|].
    intros fd [= <-]. repeat split; reflexivity.
  - exists reps. exact Hunlock.
Defined.

(** *** The height of the stack *)

Lemma getStackFrameHeight_from_length (stack : list StackFrame) :
  ∀ depth, 0 ≤ depth < UINT_MOD →
    getStackFrameHeight_from depth stack
    = (depth + Z.of_nat (length stack)) mod UINT_MOD.
Proof.
  induction stack as [|F rest IH]; intros depth Hd.
  - cbn. rewrite Z.add_0_r, Z.mod_small; lia.
  - cbn [getStackFrameHeight_from length]. rewrite IH.
    + unfold to_unsigned. rewrite Zplus_mod_idemp_l. f_equal. lia.
    + unfold to_unsigned. apply Z.mod_pos_bound. reflexivity.
Qed.

(** X7. The height of a frame is the number of frames on the stack (modulo
    2^32), so that with fewer than 2^32 - 2 frames it is never the marker
    (unsigned)-2 that jl_gc_enable(0) leaves in GCDisabledAt: the end of a
    function leaves that marker in place, and so does the begin of an
    inlined function; the begin of the top frame overrides it. *)
Theorem gc_disabled_by_toggle_persists (C : CheckerContext) (fd : FunctionDecl) :
  let st := getState C in
  Z.of_nat (length (cc_parents C)) + 1 < UINT_MOD - 2 →
  sf_decl (cc_frame C) = Some fd →
  GCDisabledAt st = unsigned_m2 →
  getStackFrameHeight C = Z.of_nat (length (cc_parents C)) + 1
  ∧ (∀ RS, ∃ out, checkEndFunction RS C = Some out
            ∧ GCDisabledAt (default st (transition out)) = unsigned_m2)
  ∧ (∀ out, checkBeginFunction C = Some out →
       GCDisabledAt (default st (transition out))
       = if inTopFrame C
         then if declHasAnnotation fd "julia_gc_disabled" then 1 else unsigned_m1
         else unsigned_m2).
Proof.
  intros st Hlen Hfd Hm2.
  assert (Hh : getStackFrameHeight C = Z.of_nat (length (cc_parents C)) + 1).
  { unfold getStackFrameHeight. rewrite getStackFrameHeight_from_length by done.
    cbn [length]. rewrite Z.mod_small; unfold UINT_MOD in *; lia. }
  assert (Hne : (unsigned_m2 =? getStackFrameHeight C) = false).
  { apply Z.eqb_neq. rewrite Hh. change unsigned_m2 with (UINT_MOD - 2). lia. }
  split; [exact Hh|]. split.
  - intros RS.
    destruct (checkEndFunction_markers RS C fd Hfd) as (out & Hend & (_ & Hg & _) & _).
    exists out. split; [exact Hend|]. fold st in Hg. by rewrite Hg, Hm2, Hne.
  - intros out Hbegin.
    destruct (checkBeginFunction_markers C fd out Hfd Hbegin) as (_ & Hg & _).
    fold st in Hg. rewrite Hg. destruct (inTopFrame C) eqn:Htop.
    + rewrite Z.eqb_refl. cbn [andb]. by rewrite getStackFrameHeight_top.
    + by rewrite Hm2.
Qed.

Lemma gc_disabled_by_toggle_persists_witness :
  getStackFrameHeight FrameExample.inlined = 2
  ∧ ∃ out, checkEndFunction None FrameExample.inlined = Some out
           ∧ GCDisabledAt (default (getState FrameExample.inlined) (transition out))
             = unsigned_m2.
Proof.
  destruct (gc_disabled_by_toggle_persists FrameExample.inlined FrameExample.quiet)
    as (Hh & Hend & _); [by vm_compute | reflexivity | reflexivity |].
  split; [exact Hh | exact (Hend None)].
Defined.

(** *** What the pre-call check reports *)

(** X8. Every report of the pre-call check is either the one report of a
    safepoint reached with safepoints disabled (then it is the only one), or
    a report about the symbol of an argument whose state is not Rooted:
    "Argument value may have been GCed" for a PotentiallyFreed one, "Passing
    non-rooted value as argument to function that may GC" only if the callee
    is a safepoint and the parameter is not annotated "julia_maybe_unrooted".
    No report concerns a Rooted value. *)
Theorem checkPreCall_reports_unrooted_only (Call : CallEvent) (C : CheckerContext)
    (out : Outcome) (r : BugReport) :
  checkPreCall Call C = Some out →
  r ∈ reports out →
  (r = Report (safepointViolationMessage Call) ∧ reports out = [r]
   ∧ isSafepoint Call = true)
  ∨ ∃ idx Sym vs msg,
      (idx < getNumArgs Call)%nat
      ∧ argumentSymbol (getArgSVal (getState C) Call idx) = Some Sym
      ∧ GCValueMap (getState C) !! Some Sym = Some vs
      ∧ ValueState.isRooted vs = false
      ∧ r = ValueReport (Some Sym) msg
      ∧ ((msg = "Argument value may have been GCed"
          ∧ ValueState.isPotentiallyFreed vs = true)
         ∨ (msg = "Passing non-rooted value as argument to function that may GC"
            ∧ isSafepoint Call = true
            ∧ maybeUnrootedParam (calleeFunction Call) idx = false)).
Proof.
  unfold checkPreCall. destruct (negb _).
  { intros [= <-] Hr. by apply not_elem_of_nil in Hr. }
  destruct (unlockSafepoints Call C) as [[State Added]|] eqn:Hu; [|discriminate].
  cbn [mbind option_bind]. apply unlockSafepoints_values in Hu.
  destruct (safepointViolation Call State) eqn:Hv.
  { intros [= <-] Hr. apply list_elem_of_singleton in Hr. left.
    cbn [reports]. rewrite Hr. repeat split.
    unfold safepointViolation in Hv.
    apply andb_true_iff in Hv as [Hv _]. by apply andb_true_iff in Hv as [_ Hv]. }
  destruct (isPromiseRooted Call).
  { intros [= <-] Hr. by apply not_elem_of_nil in Hr. }
  intros [= <-] Hr. cbn [reports] in Hr. right.
  apply checkArguments_value_reports in Hr
    as (idx & Sym & vs & msg & Hidx & HSym & Hvs & -> & Hmsg).
  rewrite Hu in Hvs. exists idx, Sym, vs, msg.
  split; [exact Hidx|]. split; [exact HSym|]. split; [exact Hvs|].
  split; [|split; [reflexivity|]].
  - destruct Hmsg as [[_ Hpf] | (_ & Hrt & _)]; [|exact Hrt].
    unfold ValueState.isPotentiallyFreed in Hpf. unfold ValueState.isRooted.
    destruct (ValueState.S vs); done.
  - destruct Hmsg as [[-> Hpf] | (-> & _ & Hsp & Hmu)]; [by left | by right].
Qed.

Lemma checkPreCall_reports_unrooted_only_witness :
  ∃ vs, GCValueMap (getState PreCallExample.enabledFreed) !! Some (Fixtures.sym 3) = Some vs
        ∧ ValueState.isRooted vs = false.
Proof.
  destruct (checkPreCall Fixtures.callFreed PreCallExample.enabledFreed)
    as [out|] eqn:Hrun; [|vm_compute in Hrun; discriminate Hrun].
  assert (Hr : ValueReport (Some (Fixtures.sym 3)) "Argument value may have been GCed"
               ∈ reports out).
  { vm_compute in Hrun. injection Hrun as <-. apply list_elem_of_here. }
  destruct (checkPreCall_reports_unrooted_only Fixtures.callFreed
              PreCallExample.enabledFreed out _ Hrun Hr)
    as [(Hbad & _) | (idx & Sym & vs & msg & _ & _ & Hvs & Hrt & Heq & _)];
    [discriminate Hbad|].
  injection Heq as <- _. exists vs. split; [exact Hvs | exact Hrt].
Defined.

(** *** Binds and loads never un-root *)

(** A state that is no worse than another: the value has a state still, and
    if it was Rooted it is Rooted, at a depth that is not greater. *)
Definition noWorse (old new : option ValueState.t) : Prop :=
  match old with
  | None => True
  | Some vs =>
      ∃ vs', new = Some vs'
             ∧ (ValueState.isRooted vs = true →
                ValueState.isRooted vs' = true
                ∧ ValueState.RootDepth vs' ≤ ValueState.RootDepth vs)
  end.

Definition neverUnroots (s s' : ProgramState) : Prop :=
  (∀ R, is_Some (GCRootMap s !! R) → is_Some (GCRootMap s' !! R))
  ∧ (∀ Sym, noWorse (GCValueMap s !! Sym) (GCValueMap s' !! Sym)).

Lemma noWorse_refl (old : option ValueState.t) : noWorse old old.
Proof. destruct old as [vs|]; [|done]. exists vs. split; [done|]. intros ->. split; [done | lia]. Qed.

Lemma neverUnroots_refl (s : ProgramState) : neverUnroots s s.
Proof. split; [done|]. intros Sym. apply noWorse_refl. Qed.

Lemma neverUnroots_set (s State : ProgramState) (Sym : SymbolRef) (v : ValueState.t) :
  neverUnroots s State →
  noWorse (GCValueMap s !! Sym) (Some v) →
  neverUnroots s (set_GCValueMap Sym v State).
Proof.
  intros [Hr Hv] Hnew. split; [exact Hr|]. intros Sym'. cbn.
  destruct (decide (Sym' = Sym)) as [->|Hne].
  - by rewrite lookup_insert_eq.
  - rewrite lookup_insert_ne by done. apply Hv.
Qed.

Lemma rootRegionIfGlobal_roots (R : MemRegionRef) (State State' : ProgramState)
    (C : CheckerContext) (TheValS : ValueState.t) :
  rootRegionIfGlobal R State C = Some (State', TheValS) →
  GCRootMap State' = GCRootMap State
  ∨ GCRootMap State' = <[R := RootState.getRoot (-1)]> (GCRootMap State).
Proof.
  unfold rootRegionIfGlobal. destruct R as [[VD| | |]|]; try discriminate.
  destruct (negb (vd_hasGlobalStorage VD)); [discriminate|].
  destruct (negb (isGCTrackedType (vd_type VD))); [discriminate|].
  intros [= <- _].
  destruct (declHasAnnotation VD "julia_globally_rooted" || _);
    repeat case_match; cbn; auto.
Qed.

Lemma rootRegionIfGlobal_neverUnroots (R : MemRegionRef) (State State' : ProgramState)
    (C : CheckerContext) (TheValS : ValueState.t) :
  rootRegionIfGlobal R State C = Some (State', TheValS) →
  neverUnroots (getState C) State →
  neverUnroots (getState C) State'.
Proof.
  intros Hroot [Hr Hv]. split.
  - intros R' HR'. apply Hr in HR'.
    destruct (rootRegionIfGlobal_roots _ _ _ _ _ Hroot) as [-> | ->]; [done|].
    destruct (decide (R' = R)) as [->|Hne].
    + rewrite lookup_insert_eq. by eexists.
    + by rewrite lookup_insert_ne.
  - intros Sym. destruct (GCValueMap (getState C) !! Sym) as [vs|] eqn:Hvs; [|done].
    rewrite (rootRegionIfGlobal_keeps _ _ _ _ _ Sym Hroot) by (by rewrite Hvs).
    specialize (Hv Sym). by rewrite Hvs in Hv.
Qed.

Lemma noWorse_rooted (old : option ValueState.t) (R : MemRegionRef) (Depth : Z) :
  match old with
  | Some vs => ValueState.isRooted vs = true → Depth ≤ ValueState.RootDepth vs
  | None => True
  end →
  noWorse old (Some (ValueState.getRooted R Depth)).
Proof.
  destruct old as [vs|]; [|done]. intros H. eexists. split; [done|].
  intros Hrt. split; [done|]. cbn. by apply H.
Qed.

(** X9. No transition of [checkBind] or of [checkLocation] takes a root off
    the root map, takes a state off the value map, or leaves a value that
    was Rooted in another state or Rooted at a greater depth. *)
Theorem bind_and_load_never_unroot (C : CheckerContext) :
  (∀ LVal RVal State',
     transition (checkBind LVal RVal C) = Some State' →
     neverUnroots (getState C) State')
  ∧ (∀ SLoc IsLoad out State',
       checkLocation SLoc IsLoad C = Some out →
       transition out = Some State' →
       neverUnroots (getState C) State').
Proof.
  split.
  - intros LVal RVal State'. unfold checkBind.
    destruct (getAsRegion LVal) as [R0|]; [|discriminate].
    destruct (getAsSymbol RVal false) as [Sym|]; [|discriminate].
    destruct (GCRootMap (getState C) !! Some (boundRegion R0)) as [RS|] eqn:HRS.
    + destruct (_ && _); [discriminate|].
      destruct (GCValueMap (getState C) !! Some Sym) as [RValState|] eqn:HSym.
      * cbn [transition].
        destruct (negb (ValueState.isRooted RValState) || _) eqn:Hc; [|discriminate].
        intros [= <-]. apply neverUnroots_set; [apply neverUnroots_refl|].
        rewrite HSym. apply noWorse_rooted. intros Hrt. rewrite Hrt in Hc.
        cbn [negb orb] in Hc. apply Z.ltb_lt in Hc. lia.
      * destruct (rootRegionIfGlobal (getOriginRegion Sym) (getState C) C)
          as [[State1 v]|] eqn:Hroot; [|discriminate].
        intros [= <-]. eapply rootRegionIfGlobal_neverUnroots; [exact Hroot|].
        apply neverUnroots_refl.
    + destruct (rootRegionIfGlobal (Some (getBaseRegion (boundRegion R0))) (getState C) C)
        as [[State1 v]|] eqn:Hroot.
      * assert (H1 : neverUnroots (getState C) State1).
        { eapply rootRegionIfGlobal_neverUnroots; [exact Hroot|]. apply neverUnroots_refl. }
        destruct (negb (ValueState.isRooted v)) eqn:Hv; [discriminate|].
        apply negb_false_iff in Hv.
        destruct (GCValueMap State1 !! Some Sym) as [RValState|] eqn:HSym.
        -- destruct (ValueState.isRooted RValState && _) eqn:Hc; [discriminate|].
           intros [= <-]. apply neverUnroots_set; [exact H1|].
           destruct (GCValueMap (getState C) !! Some Sym) as [old|] eqn:Hold; [|done].
           destruct H1 as [_ H1]. specialize (H1 (Some Sym)).
           rewrite Hold, HSym in H1. destruct H1 as (vs' & [= <-] & H1).
           exists v. split; [done|]. intros Hrt. split; [exact Hv|].
           destruct (H1 Hrt) as [Hrt' Hle]. rewrite Hrt' in Hc. cbn [andb] in Hc.
           apply Z.ltb_ge in Hc. lia.
        -- intros [= <-]. apply neverUnroots_set; [exact H1|].
           destruct (GCValueMap (getState C) !! Some Sym) as [old|] eqn:Hold; [|done].
           destruct H1 as [_ H1]. specialize (H1 (Some Sym)).
           rewrite Hold, HSym in H1. by destruct H1 as (vs' & [=] & _).
      * destruct (getValStateForRegion (getState C) (Some (boundRegion R0)))
          as [v|]; [|discriminate].
        destruct (negb (ValueState.isRooted v)) eqn:Hv; [discriminate|].
        apply negb_false_iff in Hv.
        destruct (GCValueMap (getState C) !! Some Sym) as [RValState|] eqn:HSym.
        -- destruct (ValueState.isRooted RValState && _) eqn:Hc; [discriminate|].
           intros [= <-]. apply neverUnroots_set; [apply neverUnroots_refl|].
           rewrite HSym. exists v. split; [done|]. intros Hrt. split; [exact Hv|].
           rewrite Hrt in Hc. cbn [andb] in Hc. apply Z.ltb_ge in Hc. lia.
        -- intros [= <-]. apply neverUnroots_set; [apply neverUnroots_refl|].
           by rewrite HSym.
  - intros SLoc IsLoad out State'. unfold checkLocation.
    destruct (loadFromRoot SLoc IsLoad (getState C)) as [[State DidChange]|] eqn:Hload;
      [|discriminate].
    cbn [mbind option_bind]. intros [= <-].
    assert (H1 : neverUnroots (getState C) State).
    { revert Hload. unfold loadFromRoot.
      destruct IsLoad; [|intros [= <- _]; apply neverUnroots_refl].
      destruct (GCRootMap (getState C) !! getAsRegion SLoc) as [RS|];
        [|intros [= <- _]; apply neverUnroots_refl].
      destruct (isLoc SLoc); [|discriminate].
      destruct (getAsSymbol (getSValLoc (getState C) SLoc) false) as [Loaded|];
        [|intros [= <- _]; apply neverUnroots_refl].
      destruct (GCValueMap (getState C) !! Some Loaded) as [ValS|] eqn:HL.
      - destruct (negb (ValueState.isRooted ValS) || _) eqn:Hc;
          [|intros [= <- _]; apply neverUnroots_refl].
        intros [= <- _]. apply neverUnroots_set; [apply neverUnroots_refl|].
        rewrite HL. apply noWorse_rooted. intros Hrt. rewrite Hrt in Hc.
        cbn [negb orb] in Hc. apply Z.ltb_lt in Hc. lia.
      - intros [= <- _]. apply neverUnroots_set; [apply neverUnroots_refl|].
        by rewrite HL. }
    unfold accessLocation.
    destruct (rootRegionIfGlobal (getAsRegion SLoc) State C) as [[State1 v]|] eqn:Hroot.
    + cbn [transition]. intros [= <-].
      eapply rootRegionIfGlobal_neverUnroots; [exact Hroot | exact H1].
    + repeat case_match; cbn [transition]; intros [= <-]; exact H1.
Qed.

Lemma bind_and_load_never_unroot_witness :
  ∃ State',
    transition (checkBind (loc_MemRegionVal RootSlotExample.x) (Fixtures.valueOf 2)
                  RootSlotExample.rooted) = Some State'
    ∧ neverUnroots (getState RootSlotExample.rooted) State'.
Proof.
  destruct (bind_and_load_never_unroot RootSlotExample.rooted) as [Hbind _].
  assert (Hsome : bool_decide
                    (is_Some (transition (checkBind (loc_MemRegionVal RootSlotExample.x)
                                            (Fixtures.valueOf 2) RootSlotExample.rooted)))
                  = true) by (vm_compute; reflexivity).
  apply bool_decide_eq_true in Hsome as [State' Hrun].
  exists State'. split; [exact Hrun|]. exact (Hbind _ _ _ Hrun).
Defined.

(** *** The post-call handler as a whole *)

Lemma freeUnrooted_changed (Special RetSym : SymbolRef)
    (AMap : gmap SymbolRef ValueState.t) (State : ProgramState) :
  (∃ Sym vs, AMap !! Sym = Some vs ∧ freedAtSafepoint Special RetSym Sym vs = true) →
  snd (freeUnrooted Special RetSym AMap State) = true.
Proof.
  unfold freeUnrooted.
  apply (map_fold_weak_ind
    (λ (r : ProgramState * bool) m,
       (∃ Sym vs, m !! Sym = Some vs ∧ freedAtSafepoint Special RetSym Sym vs = true) →
       snd r = true)).
  - intros (Sym & vs & Hvs & _). by rewrite lookup_empty in Hvs.
  - intros i x m r Hi IH (Sym & vs & Hvs & Hfreed).
    unfold freedAtSafepoint in Hfreed.
    destruct (decide (i = Sym)) as [<-|Hne].
    + rewrite lookup_insert_eq in Hvs. injection Hvs as <-.
      apply andb_true_iff in Hfreed as [Hfreed Hret].
      apply andb_true_iff in Hfreed as [-> Hsp].
      apply negb_true_iff in Hret, Hsp. by rewrite Hsp, Hret.
    + rewrite lookup_insert_ne in Hvs by done.
      assert (Hr : snd r = true) by (apply IH; eauto).
      by repeat case_match.
Qed.

(** The symbol of the argument of the parameter annotated
    "julia_rooted_argument", and the symbol the state of the result is filed
    under: the one of the return value or a fresh one. *)
Definition rootedArgument (Call : CallEvent) (C : CheckerContext) : SymbolRef :=
  match getDecl Call ≫= d_function with
  | Some fd => snd (findRootingArguments C Call (fd_params fd) 0 None None)
  | None => None
  end.

Definition resultSymbol (Call : CallEvent) (C : CheckerContext) : SymbolRef :=
  match getAsSymbol (getReturnValue (getState C) Call) false with
  | Some Sym => Some Sym
  | None =>
      match getOriginExpr Call with
      | Some Origin =>
          getAsSymbol (conjureSymbolVal C (stmtId Origin) (getResultType Call)) false
      | None => None
      end
  end.

Lemma processArgumentRooting_other (Call : CallEvent) (C : CheckerContext)
    (State : ProgramState) (Sym : SymbolRef) :
  Sym ≠ rootedArgument Call C →
  GCValueMap (fst (processArgumentRooting Call C State)) !! Sym = GCValueMap State !! Sym.
Proof.
  unfold rootedArgument, processArgumentRooting. intros Hne.
  destruct (getDecl Call ≫= d_function) as [fd|]; [|done].
  destruct (findRootingArguments C Call (fd_params fd) 0 None None)
    as [[RootingRegion|] [RootedSymbol|]]; try done.
  destruct (getValStateForRegion State (Some RootingRegion)); [|done].
  cbn in *. by rewrite lookup_insert_ne.
Qed.

Lemma processAllocationOfResult_other (Call : CallEvent) (C : CheckerContext)
    (State : ProgramState) (Sym : SymbolRef) :
  Sym ≠ resultSymbol Call C →
  GCValueMap (fst (processAllocationOfResult Call C State)) !! Sym
  = GCValueMap State !! Sym.
Proof.
  unfold resultSymbol, processAllocationOfResult. intros Hne.
  destruct (negb (isGCTrackedType (getResultType Call))); [done|].
  destruct (getOriginExpr Call) as [Origin|]; [|done].
  destruct (getAsSymbol (getReturnValue (getState C) Call) false) as [Ret|];
    destruct (isGloballyRootedType (getResultType Call)); cbn;
    by rewrite lookup_insert_ne.
Qed.

(** X10. The post-call handler of a safepoint, with GC enabled. A value that
    is Allocated before the call is PotentiallyFreed in the transition the
    handler adds, unless it is one of four symbols: the argument of the
    parameter annotated "julia_rooted_argument", the one picked from the
    parameters annotated "julia_temporarily_roots", the return value of the
    call, and the symbol the state of the result is filed under. *)
Theorem checkPostCall_frees_unrooted (Call : CallEvent) (C : CheckerContext)
    (out : Outcome) (Sym : SymbolRef) (vs : ValueState.t) :
  let st := getState C in
  isSafepoint Call = true →
  gcEnabledHere st = true →
  checkPostCall Call C = Some out →
  GCValueMap st !! Sym = Some vs →
  ValueState.S vs = ValueState.Allocated →
  Sym ≠ rootedArgument Call C →
  speciallyRootedSymbol Call C (fst (processArgumentRooting Call C st)) ≠ Some Sym →
  Sym ≠ returnSymbol Call C →
  Sym ≠ resultSymbol Call C →
  ∃ st', transition out = Some st'
         ∧ GCValueMap st' !! Sym = Some ValueState.getFreed.
Proof.
  intros st Hsafe Hgc Hrun Hvs Halloc Hrooted Hspecial Hret Hresult.
  unfold checkPostCall in Hrun. fold st in Hrun.
  pose proof (processArgumentRooting_other Call C st Sym Hrooted) as H1.
  destruct (processArgumentRooting Call C st) as [State1 c1]. cbn [fst] in H1, Hspecial.
  unfold processPotentialSafepoint in Hrun. rewrite Hsafe in Hrun. fold st in Hrun.
  rewrite Hgc in Hrun. cbn [negb] in Hrun.
  destruct (speciallyRootedSymbol Call C State1) as [Special|]; [|discriminate].
  cbn [mbind option_bind] in Hrun.
  assert (Hfreed : freedAtSafepoint Special (returnSymbol Call C) Sym vs = true).
  { unfold freedAtSafepoint, ValueState.isJustAllocated.
    rewrite (bool_decide_eq_true_2 _ Halloc).
    rewrite (bool_decide_eq_false_2 (Special = Sym)) by congruence.
    by rewrite (bool_decide_eq_false_2 (returnSymbol Call C = Sym)) by congruence. }
  rewrite <- H1 in Hvs.
  pose proof (freeUnrooted_changed Special (returnSymbol Call C) (GCValueMap State1)
                State1 (ex_intro _ Sym (ex_intro _ vs (conj Hvs Hfreed)))) as Hchanged.
  destruct (freeUnrooted_spec Special (returnSymbol Call C) (GCValueMap State1) State1)
    as (values & c2 & Hfree & Hvalues).
  rewrite Hfree in Hrun, Hchanged. cbn [snd] in Hchanged. subst c2.
  pose proof (processAllocationOfResult_other Call C (with_GCValueMap values State1)
                Sym Hresult) as H3.
  destruct (processAllocationOfResult Call C (with_GCValueMap values State1))
    as [State3 c3]. cbn [fst] in H3.
  rewrite orb_true_r in Hrun. injection Hrun as <-.
  exists State3. split; [reflexivity|].
  rewrite H3. cbn. by rewrite Hvalues, Hvs, Hfreed.
Qed.

Lemma checkPostCall_frees_unrooted_witness :
  ∃ st', (checkPostCall SafepointExample.invoke
            (Fixtures.context SafepointExample.before) ≫= transition) = Some st'
         ∧ GCValueMap st' !! Some (Fixtures.sym 1) = Some ValueState.getFreed.
Proof.
  assert (Hsome : bool_decide
                    (is_Some (checkPostCall SafepointExample.invoke
                                (Fixtures.context SafepointExample.before))) = true)
    by (vm_compute; reflexivity).
  apply bool_decide_eq_true in Hsome as [out Hrun].
  destruct (checkPostCall_frees_unrooted SafepointExample.invoke
              (Fixtures.context SafepointExample.before) out
              (Some (Fixtures.sym 1)) ValueState.getAllocated)
    as (st' & Htrans & Hfreed); try reflexivity; try exact Hrun;
    try (intros H; vm_compute in H; discriminate H).
  exists st'. rewrite Hrun. split; [exact Htrans | exact Hfreed].
Defined.

(** *** The type predicates *)

Lemma lower_rev_app (s t : string) :
  StringRef.lower (String.rev_app s t) = String.rev_app (StringRef.lower s) (StringRef.lower t).
Proof. revert t. induction s as [|c s IH]; intros t; [done|]. cbn. by rewrite IH. Qed.

Lemma prefix_lower (p s : string) :
  String.prefix p s = true → String.prefix (StringRef.lower p) (StringRef.lower s) = true.
Proof.
  revert s. induction p as [|a p IH]; intros s; [by destruct s|].
  destruct s as [|b s]; [done|]. cbn.
  destruct (ascii_dec a b) as [->|]; [|discriminate].
  intros H. destruct (ascii_dec _ _); [by apply IH | congruence].
Qed.

(** A suffix is a suffix whatever the case. *)
Lemma ends_with_insensitive_of_ends_with (s suf : string) :
  StringRef.ends_with s suf = true → StringRef.ends_with_insensitive s suf = true.
Proof.
  unfold StringRef.ends_with_insensitive, StringRef.ends_with, String.rev.
  intros H. apply prefix_lower in H. by rewrite !lower_rev_app in H.
Qed.

(** The type [isJuliaType] goes on with: the pointee or element type under
    the sugar, if there is one. *)
Fixpoint lookThrough (T : QualType) : option QualType :=
  match T with
  | PointerType p => Some p
  | ArrayType e => Some e
  | TypedefType _ u => lookThrough u
  | ElaboratedType n => lookThrough n
  | _ => None
  end.

(** The test on the names of a type that is neither pointer nor array. *)
Definition nameTest (f : string → bool) (QT : QualType) : bool :=
  if match getAsTypedef QT with Some TT => f (td_name TT) | None => false end
  then true
  else match getAsTagDecl QT with
       | None => false
       | Some TD => f TD
       end.

Definition pointeeOrElement (f : string → bool) : QualType → option bool :=
  fix pointeeOrElement (T : QualType) {struct T} : option bool :=
    match T with
    | PointerType p => Some (isJuliaType f p)
    | ArrayType e => Some (isJuliaType f e)
    | TypedefType _ u => pointeeOrElement u
    | ElaboratedType n => pointeeOrElement n
    | _ => None
    end.

Lemma pointeeOrElement_lookThrough (f : string → bool) (QT : QualType) :
  pointeeOrElement f QT = isJuliaType f <$> lookThrough QT.
Proof. induction QT; cbn; try done. Qed.

Lemma isJuliaType_unfold (f : string → bool) (QT : QualType) :
  isJuliaType f QT
  = match lookThrough QT with
    | Some T => isJuliaType f T
    | None => nameTest f QT
    end.
Proof.
  transitivity (match pointeeOrElement f QT with
                | Some b => b
                | None => nameTest f QT
                end).
  - by destruct QT.
  - rewrite pointeeOrElement_lookThrough. by destruct (lookThrough QT).
Qed.

Lemma nameTest_mono (f g : string → bool) (QT : QualType) :
  (∀ Name, f Name = true → g Name = true) →
  nameTest f QT = true → nameTest g QT = true.
Proof.
  intros Hfg. unfold nameTest.
  destruct (getAsTypedef QT) as [TT|].
  - destruct (f (td_name TT)) eqn:Hf; [by rewrite (Hfg _ Hf)|].
    destruct (g (td_name TT)); [done|].
    destruct (getAsTagDecl QT); [apply Hfg | done].
  - destruct (getAsTagDecl QT); [apply Hfg | done].
Qed.

(** [isJuliaType] is monotone in the test on the name. *)
Lemma isJuliaType_mono (f g : string → bool) (QT : QualType) :
  (∀ Name, f Name = true → g Name = true) →
  isJuliaType f QT = true → isJuliaType g QT = true.
Proof.
  intros Hfg.
  enough (H : (isJuliaType f QT = true → isJuliaType g QT = true)
              ∧ ∀ T, lookThrough QT = Some T →
                     isJuliaType f T = true → isJuliaType g T = true)
    by exact (proj1 H).
  induction QT as [n|p IH|e IH|d u IH|n IH|tag];
    (split; [rewrite !isJuliaType_unfold; cbn [lookThrough]
            | cbn [lookThrough]; try discriminate]).
  - by apply nameTest_mono.
  - exact (proj1 IH).
  - intros T [= <-]. exact (proj1 IH).
  - exact (proj1 IH).
  - intros T [= <-]. exact (proj1 IH).
  - destruct (lookThrough u) as [T|] eqn:HT.
    + by apply (proj2 IH).
    + by apply nameTest_mono.
  - exact (proj2 IH).
  - destruct (lookThrough n) as [T|] eqn:HT.
    + by apply (proj2 IH).
    + by apply nameTest_mono.
  - exact (proj2 IH).
  - by apply nameTest_mono.
Qed.

Lemma globallyRooted_tracked (QT : QualType) :
  isGloballyRootedType QT = true → isGCTrackedType QT = true.
Proof.
  apply isJuliaType_mono. intros Name H.
  apply ends_with_insensitive_of_ends_with in H.
  apply existsb_exists. exists "jl_sym_t". split; [|exact H].
  cbn. auto.
Qed.

(** X11. A type [isGloballyRootedType] accepts (a name ending in jl_sym_t)
    is one [isGCTrackedType] accepts, so that the test on tracked types that
    comes first never hides a globally rooted one: the result of a call of
    such a type is filed as Rooted(null, -1), whatever the callee and the
    state the result had; a global variable of such a type is registered as
    a root at depth -1 and hands on the state Rooted by itself at depth
    -1. *)
Theorem globally_rooted_types_are_rooted (QT : QualType) :
  isGloballyRootedType QT = true →
  isGCTrackedType QT = true
  ∧ (∀ Call C State Origin,
       getResultType Call = QT →
       getOriginExpr Call = Some Origin →
       ∃ State',
         processAllocationOfResult Call C State = (State', true)
         ∧ GCValueMap State' !! resultSymbol Call C
           = Some (ValueState.getRooted None (-1))
         ∧ ∀ Sym, Sym ≠ resultSymbol Call C →
                  GCValueMap State' !! Sym = GCValueMap State !! Sym)
  ∧ (∀ VD State C,
       vd_type VD = QT →
       vd_hasGlobalStorage VD = true →
       ∃ State',
         rootRegionIfGlobal (Some (VarRegion VD)) State C
         = Some (State', ValueState.getRooted (Some (VarRegion VD)) (-1))
         ∧ GCRootMap State' !! Some (VarRegion VD) = Some (RootState.getRoot (-1))).
Proof.
  intros Hroot. pose proof (globallyRooted_tracked QT Hroot) as Htracked.
  split; [exact Htracked|]. split.
  - intros Call C State Origin HQT HO.
    pose proof (processAllocationOfResult_other Call C State) as Hother.
    unfold processAllocationOfResult, resultSymbol in *.
    rewrite HQT, Htracked, HO, Hroot in *. cbn [negb] in *.
    destruct (getAsSymbol (getReturnValue (getState C) Call) false) as [Ret|];
      (eexists; split; [reflexivity|]; split;
       [cbn; by rewrite lookup_insert_eq | exact Hother]).
  - intros VD State C HQT Hglobal. unfold rootRegionIfGlobal.
    rewrite Hglobal, HQT, Htracked, Hroot, orb_true_r. cbn [negb].
    eexists. split; [reflexivity|].
    destruct (getAsSymbol _ false) as [Sym|]; [|cbn; by rewrite lookup_insert_eq].
    destruct (GCValueMap (getState C) !! Some Sym); cbn; by rewrite lookup_insert_eq.
Qed.

Module SymbolExample.
Import Fixtures.

Definition jl_sym_t : QualType := TypedefType (mkTypedef "jl_sym_t" []) (TagType "_jl_sym_t").
Definition jl_symbol : FunctionDecl :=
  func "jl_symbol" [] [param "str" (PointerType (BuiltinType "char")) []].

(** [jl_symbol(str)], the result not bound yet. *)
Definition intern : CallEvent :=
  callOf 95 (PointerType jl_sym_t) jl_symbol [OtherExpr 96 (PointerType (BuiltinType "char"))].

End SymbolExample.

Lemma globally_rooted_types_are_rooted_witness :
  ∃ State',
    processAllocationOfResult SymbolExample.intern (Fixtures.context PopExample.unframed)
      PopExample.unframed = (State', true)
    ∧ GCValueMap State' !! Some (SymbolConjured 95 1)
      = Some (ValueState.getRooted None (-1)).
Proof.
  destruct (globally_rooted_types_are_rooted (PointerType SymbolExample.jl_sym_t) eq_refl)
    as (_ & Hcall & _).
  destruct (Hcall SymbolExample.intern (Fixtures.context PopExample.unframed)
              PopExample.unframed _ eq_refl eq_refl) as (State' & Hrun & Hres & _).
  exists State'. split; [exact Hrun | exact Hres].
Defined.

(** *** Values derived from other values *)
Import Derivation.

Lemma deriveFromParent_reports (Result : DExpr) (ResultTracked : bool)
    (OldSym NewSym : SymbolRef) (OldValS NewValS : option ValueState.t)
    (State : ProgramState) (r : BugReport) :
  r ∈ reports (deriveFromParent Result ResultTracked OldSym NewSym OldValS NewValS State) →
  deriveFromParent Result ResultTracked OldSym NewSym OldValS NewValS State
  = mkOutcome None [r]
  ∧ r = ValueReport OldSym "Creating derivative of value that may have been GCed"
  ∧ ∃ vs, OldValS = Some vs ∧ ValueState.isPotentiallyFreed vs = true.
Proof.
  unfold deriveFromParent.
  destruct (match NewValS with Some v => _ | None => _ end);
    [intros H; by apply not_elem_of_nil in H|].
  destruct OldValS as [Old|].
  - destruct (ValueState.isPotentiallyFreed Old) eqn:Hpf.
    + intros H. apply list_elem_of_singleton in H. subst r. eauto.
    + destruct ResultTracked; intros H; by apply not_elem_of_nil in H.
  - destruct (isGCTrackedExpr Result); intros H; by apply not_elem_of_nil in H.
Qed.

(** X12. The one report of [checkDerivingExpr]. Whenever it reports, the
    report is "Creating derivative of value that may have been GCed" about
    the base symbol of the parent's value (one pair of parentheses and one
    address-of taken off the parent), that symbol is PotentiallyFreed, the
    type of the result is not globally rooted, and no transition is
    added. *)
Theorem checkDerivingExpr_reports_freed_parent (Result Parent : DExpr)
    (C : CheckerContext) (r : BugReport) :
  let OldSym := getAsSymbol (valueOfExpr (getState C) (stripParent Parent)) true in
  r ∈ reports (checkDerivingExpr Result Parent C) →
  checkDerivingExpr Result Parent C = mkOutcome None [r]
  ∧ r = ValueReport OldSym "Creating derivative of value that may have been GCed"
  ∧ isGloballyRootedType (typeOf Result) = false
  ∧ ∃ vs, GCValueMap (getState C) !! OldSym = Some vs
          ∧ ValueState.isPotentiallyFreed vs = true.
Proof.
  intros OldSym. unfold checkDerivingExpr. fold OldSym.
  destruct (isGloballyRootedType (typeOf Result)).
  { repeat case_match; intros Hr; by apply not_elem_of_nil in Hr. }
  set (Conjured := if isUnknown _ then _ else _).
  assert (HC : ∀ State V, Conjured = Some (State, V) →
                          GCValueMap State = GCValueMap (getState C)).
  { subst Conjured. intros State V. repeat case_match; intros [= <- _]; reflexivity. }
  destruct Conjured as [[State ResultVal]|]; [|intros Hr; by apply not_elem_of_nil in Hr].
  specialize (HC State ResultVal eq_refl).
  destruct (negb (isLoc ResultVal)); [intros Hr; by apply not_elem_of_nil in Hr|].
  set (OldValS := match OldSym with Some _ => GCValueMap State !! OldSym | None => None end).
  assert (HO : ∀ vs, OldValS = Some vs → GCValueMap (getState C) !! OldSym = Some vs).
  { subst OldValS. intros vs. rewrite HC. by destruct OldSym. }
  destruct (getSymbolForResult Result (bool_decide (is_Some OldValS)) State C)
    as [State1 [NewSym|]]; [|intros Hr; by apply not_elem_of_nil in Hr].
  set (Inh := match getAsRegion _ with Some Region => _ | None => _ end).
  destruct Inh as [State2 [Updated|]].
  - destruct (resultTracked Result (stripParent Parent)) eqn:HRT;
      [intros Hr; by apply not_elem_of_nil in Hr|].
    intros Hr. apply deriveFromParent_reports in Hr as (-> & -> & vs & Hvs & Hpf).
    repeat split. exists vs. split; [by apply HO | exact Hpf].
  - intros Hr. apply deriveFromParent_reports in Hr as (-> & -> & vs & Hvs & Hpf).
    repeat split. exists vs. split; [by apply HO | exact Hpf].
Qed.

Module DerivingExample.
Import Fixtures.

(** [v->type] with [v] a value that may have been collected. *)
Definition v : DExpr := PlainExpr (valueExpr 11).
Definition member : DExpr := MemberExpr 12 jl_value_p v.
Definition freed : CheckerContext :=
  context
    (stateOf 0 fourValues ∅
       (<[12%positive := loc_MemRegionVal (FieldRegion "type" (SymbolicRegion (sym 3)))]>
          envFreed)).

End DerivingExample.

Lemma checkDerivingExpr_reports_freed_parent_witness :
  checkDerivingExpr DerivingExample.member DerivingExample.v DerivingExample.freed
  = mkOutcome None
      [ValueReport (Some (Fixtures.sym 3))
         "Creating derivative of value that may have been GCed"].
Proof.
  assert (Hr : reports (checkDerivingExpr DerivingExample.member DerivingExample.v
                          DerivingExample.freed)
               = [ValueReport (Some (Fixtures.sym 3))
                    "Creating derivative of value that may have been GCed"])
    by (vm_compute; reflexivity).
  destruct (checkDerivingExpr_reports_freed_parent DerivingExample.member
              DerivingExample.v DerivingExample.freed
              (ValueReport (Some (Fixtures.sym 3))
                 "Creating derivative of value that may have been GCed"))
    as (Hrun & _).
  - rewrite Hr. apply list_elem_of_here.
  - exact Hrun.
Defined.

(** The state of the base symbol of the parent's value. *)
Definition parentState (State : ProgramState) (Parent : DExpr) : option ValueState.t :=
  match getAsSymbol (valueOfExpr State Parent) true with
  | Some Sym => GCValueMap State !! Some Sym
  | None => None
  end.

Lemma walk_back_to_global_VR_global (Region : MemRegion) (VR : VarDecl) :
  walk_back_to_global_VR Region = Some VR → vd_hasGlobalStorage VR = true
with walk_back_symbol_global (Sym : SymExpr) (VR : VarDecl) :
  walk_back_symbol Sym = Some VR → vd_hasGlobalStorage VR = true.
Proof.
  - destruct Region as [vd|Sym|field sup|index sup]; cbn.
    + destruct (vd_hasGlobalStorage vd) eqn:Hg; [by intros [= <-] | discriminate].
    + apply walk_back_symbol_global.
    + apply walk_back_to_global_VR_global.
    + apply walk_back_to_global_VR_global.
  - destruct Sym as [id n|r|p r]; cbn.
    + discriminate.
    + apply walk_back_to_global_VR_global.
    + apply walk_back_to_global_VR_global.
Qed.

(** X13. A tracked result derived from a parent whose value is a region,
    the result being a location with a symbol [NewSym], its type not
    globally rooted. If the region is a parameter of the function at hand,
    the result gets the state a parameter gets at function entry
    ([getForArgument]). If the region goes back to a global variable of
    tracked type, the result is Rooted by the region at depth -1, whether
    or not the variable is a global root. In both cases nothing is reported,
    whatever the state of the parent: a PotentiallyFreed parent is not
    looked at. *)
Theorem derived_value_inherits (Result Parent : DExpr) (C : CheckerContext)
    (Region : MemRegion) (State1 : ProgramState) (NewSym : SymExpr) :
  let st := getState C in
  let P := stripParent Parent in
  isGloballyRootedType (typeOf Result) = false →
  isGCTrackedExpr Result = true →
  isLoc (valueOfExpr st Result) = true →
  getAsRegion (valueOfExpr st P) = Some Region →
  getSymbolForResult Result (bool_decide (is_Some (parentState st P))) st C
  = (State1, Some NewSym) →
  (∀ vd fd,
     Region = VarRegion vd → vd_isParm vd = true → sf_decl (cc_frame C) = Some fd →
     checkDerivingExpr Result Parent C
     = mkOutcome
         (Some (set_GCValueMap (Some NewSym)
                  (ValueState.getForArgument fd vd (negb (isFDAnnotatedNotSafepoint fd)))
                  State1)) [])
  ∧ (∀ VR,
       (∀ vd, Region = VarRegion vd → vd_isParm vd = false) →
       walk_back_to_global_VR Region = Some VR →
       isGCTrackedType (vd_type VR) = true →
       ∃ State2,
         checkDerivingExpr Result Parent C = mkOutcome (Some State2) []
         ∧ GCValueMap State2 !! Some NewSym
           = Some (ValueState.getRooted (Some Region) (-1))).
Proof.
  intros st P Hnot Htracked Hloc Hregion Hsym.
  assert (Hrun : checkDerivingExpr Result Parent C
                 = let '(State2, Inherited) := inheritedState Region State1 C in
                   match Inherited with
                   | Some Updated =>
                       mkOutcome (Some (set_GCValueMap (Some NewSym) Updated State2)) []
                   | None =>
                       deriveFromParent Result true
                         (getAsSymbol (valueOfExpr st P) true) (Some NewSym)
                         (parentState st P) (GCValueMap State1 !! Some NewSym) State2
                   end).
  { unfold checkDerivingExpr. fold st. fold P. rewrite Hnot.
    unfold resultTracked. rewrite Htracked. cbn [negb].
    destruct (valueOfExpr st Result) eqn:HV; try discriminate Hloc;
      cbn [isUnknown isLoc negb]; rewrite Hregion; unfold parentState in Hsym;
      destruct (getAsSymbol (valueOfExpr st P) true) eqn:HOld;
      unfold parentState; rewrite ?HOld; rewrite Hsym; reflexivity. }
  split.
  - intros vd fd -> Hparm Hfd. rewrite Hrun. cbn [inheritedState].
    by rewrite Hparm, Hfd.
  - intros VR Hnoparm Hback HVR.
    pose proof (walk_back_to_global_VR_global _ _ Hback) as Hglobal.
    assert (Hroot : ∃ State2 v,
               rootRegionIfGlobal (Some (VarRegion VR)) State1 C = Some (State2, v)).
    { unfold rootRegionIfGlobal. rewrite Hglobal, HVR. cbn [negb]. by do 2 eexists. }
    destruct Hroot as (State2 & v & Hroot).
    assert (Hinh : inheritedState Region State1 C
                   = (State2, Some (ValueState.getRooted (Some Region) (-1)))).
    { unfold inheritedState.
      destruct Region as [vd|Sym|field sup|index sup];
        rewrite ?(Hnoparm _ eq_refl), Hback, Hroot; reflexivity. }
    rewrite Hrun, Hinh. eexists. split; [reflexivity|].
    cbn. by rewrite lookup_insert_eq.
Qed.

Module GlobalExample.
Import Fixtures.

(** [g->type] with [g] a global variable that is no global root and whose
    value may have been collected. *)
Definition g : VarDecl := mkVarDecl "g" jl_value_p [] true false.
Definition gValue : MemRegion := SymbolicRegion (SymbolRegionValue (VarRegion g)).
Definition load : DExpr := PlainExpr (valueExpr 13).
Definition member : DExpr := MemberExpr 14 jl_value_p load.
Definition freed : CheckerContext :=
  context
    (stateOf 0 {[ Some (SymbolRegionValue (VarRegion g)) := ValueState.getFreed ]} ∅
       (<[14%positive := loc_MemRegionVal (FieldRegion "type" gValue)]>
          {[ 13%positive := loc_MemRegionVal gValue ]})).

End GlobalExample.

Lemma derived_value_inherits_witness :
  ∃ State2,
    checkDerivingExpr GlobalExample.member GlobalExample.load GlobalExample.freed
    = mkOutcome (Some State2) []
    ∧ GCValueMap State2 !! Some (SymbolConjured 14 1)
      = Some (ValueState.getRooted (Some GlobalExample.gValue) (-1)).
Proof.
  destruct (getSymbolForResult GlobalExample.member
              (bool_decide (is_Some (parentState (getState GlobalExample.freed)
                                       (stripParent GlobalExample.load))))
              (getState GlobalExample.freed) GlobalExample.freed)
    as [State1 NewSym] eqn:Hsym.
  assert (HNew : NewSym = Some (SymbolConjured 14 1)).
  { change NewSym with (snd (State1, NewSym)). rewrite <- Hsym. reflexivity. }
  subst NewSym.
  destruct (derived_value_inherits GlobalExample.member GlobalExample.load
              GlobalExample.freed GlobalExample.gValue State1 (SymbolConjured 14 1)
              eq_refl eq_refl eq_refl eq_refl Hsym)
    as [_ Hglobal].
  apply (Hglobal GlobalExample.g); [discriminate | reflexivity | reflexivity].
Defined.

Lemma getSymbolForResult_frame (Result : DExpr) (hasOldValS : bool)
    (State : ProgramState) (C : CheckerContext) :
  let State' := fst (getSymbolForResult Result hasOldValS State C) in
  GCDepth State' = GCDepth State ∧ GCValueMap State' = GCValueMap State
  ∧ GCRootMap State' = GCRootMap State ∧ Env State' = Env State.
Proof.
  unfold getSymbolForResult. repeat case_match; cbn; try done.
  all: by destruct (valueOfExpr State Result).
Qed.

Lemma ElementRegion_neq (R : MemRegion) : ∀ index, ElementRegion index R ≠ R.
Proof.
  induction R as [vd|Sym|field sup IH|i sup IH]; intros index; try discriminate.
  intros [= -> E]. by apply (IH i).
Qed.

(** X14. [_JL_GC_PUSHARGS(rts, n)], a subscript [rts[i]] of tracked type,
    and JL_GC_POP. The push registers the array as a root array at the
    current depth; the subscript files the value of the element as Rooted by
    the element region, at the depth after the push; the pop takes the array
    off the root map and restores the depth, and leaves that value Rooted:
    only values Rooted by a popped region itself are set back to
    Allocated. *)
Theorem root_array_element_survives_pop (C : CheckerContext) (args : list Expr)
    (A : Expr) (R : MemRegion) (ASE LHS : DExpr) (index : option Z) :
  let st := getState C in
  let Array := StripCasts R in
  let Elem := ElementRegion index Array in
  args !! 0%nat = Some A →
  getSVal st A = loc_MemRegionVal R →
  0 ≤ GCDepth st < 2 ^ 32 - 1 →
  GCRootMap st !! Some Elem = None →
  getAsRegion (valueOfExpr st LHS) = Some Elem →
  isGCTrackedExpr ASE = true →
  ∃ st1,
    evalPushArgs C args = Some (mkOutcome (Some st1) [])
    ∧ GCRootMap st1 !! Some Array = Some (RootState.getRootArray (to_int (GCDepth st)))
    ∧ ∀ State1 NewSym,
        getSymbolForResult ASE true st1 (contextAt C st1) = (State1, Some NewSym) →
        (∀ e, GCValueMap st !! Some NewSym = Some e →
              ValueState.isRooted e
              && (ValueState.RootDepth e <? to_int (GCDepth st + 1)) = false) →
        ∃ st2 st3,
          checkPostStmt_ArraySubscriptExpr ASE LHS (contextAt C st1)
          = mkOutcome (Some st2) []
          ∧ GCValueMap st2 !! Some NewSym
            = Some (ValueState.getRooted (Some Elem) (to_int (GCDepth st + 1)))
          ∧ evalPop (contextAt C st2) = mkOutcome (Some st3) []
          ∧ GCDepth st3 = GCDepth st
          ∧ GCRootMap st3 !! Some Array = None
          ∧ GCValueMap st3 !! Some NewSym
            = Some (ValueState.getRooted (Some Elem) (to_int (GCDepth st + 1))).
Proof.
  intros st Array Elem HA HR Hd Hfresh HLHS Htracked.
  unfold evalPushArgs. rewrite HA. cbn [mbind option_bind]. fold st. rewrite HR.
  fold Array.
  set (st1 := set_GCDepth _ _).
  assert (Hd1 : GCDepth st1 = GCDepth st + 1).
  { cbn. unfold to_unsigned, UINT_MOD. apply Z.mod_small. lia. }
  exists st1. split; [reflexivity|]. split; [cbn; by rewrite lookup_insert_eq|].
  intros State1 NewSym Hsym Hexisting.
  pose proof (getSymbolForResult_frame ASE true st1 (contextAt C st1)) as Hframe.
  rewrite Hsym in Hframe. cbn [fst] in Hframe. destruct Hframe as (HD & HV & HRt & _).
  set (ValS := ValueState.getRooted (Some Elem) (to_int (GCDepth st + 1))).
  assert (Hase : checkPostStmt_ArraySubscriptExpr ASE LHS (contextAt C st1)
                 = mkOutcome (Some (set_GCValueMap (Some NewSym) ValS State1)) []).
  { unfold checkPostStmt_ArraySubscriptExpr. cbn [getState contextAt].
    change (valueOfExpr st1 LHS) with (valueOfExpr st LHS). rewrite HLHS.
    rewrite Htracked.
    assert (Hroot : GCRootMap st1 !! Some Array
                    = Some (RootState.getRootArray (to_int (GCDepth st))))
      by (cbn; by rewrite lookup_insert_eq).
    fold Elem. cbn [Elem]. rewrite Hroot, Hsym, Hd1. fold Elem. fold ValS.
    unfold rootUnder. rewrite HV. change (GCValueMap st1) with (GCValueMap st).
    destruct (GCValueMap st !! Some NewSym) as [e|] eqn:He; [|reflexivity].
    change (ValueState.RootDepth ValS) with (to_int (GCDepth st + 1)).
    by rewrite (Hexisting e eq_refl). }
  set (st2 := set_GCValueMap (Some NewSym) ValS State1) in *.
  assert (Hv2 : GCValueMap st2 !! Some NewSym = Some ValS)
    by (cbn; by rewrite lookup_insert_eq).
  destruct (evalPop_spec (contextAt C st2)) as (st3 & Hpop & Hd3 & Hr3 & Hv3 & _).
  { cbn [getState contextAt]. change (GCDepth st2) with (GCDepth State1).
    rewrite HD, Hd1. lia. }
  cbn [getState contextAt] in Hd3, Hr3, Hv3.
  change (GCDepth st2) with (GCDepth State1) in Hd3, Hr3, Hv3.
  change (GCRootMap st2) with (GCRootMap State1) in Hr3, Hv3.
  rewrite HD, Hd1 in Hd3, Hr3, Hv3. rewrite HRt in Hr3, Hv3.
  replace (GCDepth st + 1 - 1) with (GCDepth st) in Hd3, Hr3, Hv3 by lia.
  exists st2, st3. split; [exact Hase|]. split; [exact Hv2|]. split; [exact Hpop|].
  split; [exact Hd3|]. split.
  - rewrite Hr3. unfold registeredAt. cbn. rewrite lookup_insert_eq. cbn.
    unfold RootState.shouldPopAtDepth. cbn. by rewrite Z.eqb_refl.
  - rewrite Hv3, Hv2. cbn. unfold afterPop, registeredAt. cbn.
    rewrite lookup_insert_ne;
      [|intros [= E]; symmetry in E; by apply ElementRegion_neq in E].
    fold st. fold Array. fold Elem. by rewrite Hfresh.
Qed.

Module RootArrayExample.
Import Fixtures.

(** [JL_GC_PUSHARGS(rts, 2); ... rts[1] ...; JL_GC_POP();] *)
Definition rts : MemRegion := PopExample.slot "rts".
Definition decayed : MemRegion := ElementRegion (Some 0) rts.
Definition pushed : list Expr := [OtherExpr 100 jl_value_pp; OtherExpr 103 int_t].
Definition base : DExpr := PlainExpr (OtherExpr 101 jl_value_pp).
Definition subscript : DExpr := ArraySubscriptExpr 102 jl_value_p base.
Definition start : CheckerContext :=
  context
    (stateOf 0 ∅ ∅
       (<[100%positive := loc_MemRegionVal decayed]>
       (<[101%positive := loc_MemRegionVal decayed]>
          {[ 102%positive := loc_MemRegionVal (ElementRegion (Some 1) rts) ]}))).
Definition afterPush : ProgramState :=
  set_GCDepth 1 (set_GCRootMap (Some rts) (RootState.getRootArray 0) (getState start)).

End RootArrayExample.

Lemma root_array_element_survives_pop_witness :
  ∃ st2 st3,
    checkPostStmt_ArraySubscriptExpr RootArrayExample.subscript RootArrayExample.base
      (contextAt RootArrayExample.start RootArrayExample.afterPush)
    = mkOutcome (Some st2) []
    ∧ evalPop (contextAt RootArrayExample.start st2) = mkOutcome (Some st3) []
    ∧ GCDepth st3 = 0
    ∧ GCRootMap st3 !! Some RootArrayExample.rts = None
    ∧ GCValueMap st3 !! Some (SymbolConjured 102 1)
      = Some (ValueState.getRooted (Some RootArrayExample.decayed) 1).
Proof.
  destruct (root_array_element_survives_pop RootArrayExample.start
              RootArrayExample.pushed (OtherExpr 100 Fixtures.jl_value_pp)
              RootArrayExample.decayed RootArrayExample.subscript
              RootArrayExample.base (Some 0))
    as (st1 & Hpush & _ & Hrest); try reflexivity.
  { cbn. lia. }
  assert (E : evalPushArgs RootArrayExample.start RootArrayExample.pushed
              = Some (mkOutcome (Some RootArrayExample.afterPush) []))
    by reflexivity.
  rewrite E in Hpush. injection Hpush as <-.
  destruct (Hrest
              (fst (getSymbolForResult RootArrayExample.subscript true
                      RootArrayExample.afterPush
                      (contextAt RootArrayExample.start RootArrayExample.afterPush)))
              (SymbolConjured 102 1))
    as (st2 & st3 & Hase & _ & Hpop & Hd & Hroot & Hval).
  - reflexivity.
  - intros e H. vm_compute in H. discriminate H.
  - exists st2, st3. repeat split; assumption.
Defined.

(** *** jl_gc_push_arraylist *)

Lemma to_int_to_unsigned_succ (d : Z) :
  0 ≤ d < 2 ^ 31 - 1 → to_int (to_unsigned (d + 1)) = d + 1 ∧ to_int d = d.
Proof.
  intros Hd. unfold to_unsigned, UINT_MOD. rewrite Z.mod_small by lia.
  split; apply to_int_small; lia.
Qed.

(** X15. jl_gc_push_arraylist and the JL_GC_POP that follows it, below the
    depth 2^31 - 1. The call increments the depth and registers the root it
    adds (the items of the list) at the incremented depth, where JL_GC_PUSHn
    and _JL_GC_PUSHARGS register at the depth before the increment. The pop
    restores the depth and removes the roots registered at the restored
    depth: whatever root the call has registered or changed is still on the
    root map after the pop. *)
Theorem push_arraylist_root_outlives_pop (C : CheckerContext) (CE : Expr)
    (args : list Expr) (out : Outcome) :
  let st := getState C in
  0 ≤ GCDepth st < 2 ^ 31 - 1 →
  evalPushArraylist C CE args = Some out →
  ∃ st1 st2,
    out = mkOutcome (Some st1) []
    ∧ GCDepth st1 = GCDepth st + 1
    ∧ evalPop (contextAt C st1) = mkOutcome (Some st2) []
    ∧ GCDepth st2 = GCDepth st
    ∧ ∀ R, GCRootMap st1 !! R ≠ GCRootMap st !! R →
           GCRootMap st1 !! R = Some (RootState.getRootArray (GCDepth st + 1))
           ∧ GCRootMap st2 !! R = Some (RootState.getRootArray (GCDepth st + 1)).
Proof.
  intros st Hd Hrun.
  destruct (to_int_to_unsigned_succ (GCDepth st) Hd) as [Hi1 Hi0].
  assert (Hu : to_unsigned (GCDepth st + 1) = GCDepth st + 1).
  { unfold to_unsigned, UINT_MOD. apply Z.mod_small. lia. }
  assert (Hst1 : ∃ st1, out = mkOutcome (Some st1) []
                 ∧ GCDepth st1 = GCDepth st + 1
                 ∧ (GCRootMap st1 = GCRootMap st
                    ∨ ∃ IR, GCRootMap st1
                            = <[IR := RootState.getRootArray (GCDepth st + 1)]>
                                (GCRootMap st))).
  { revert Hrun. unfold evalPushArraylist. fold st. rewrite Hi1, Hu.
    destruct (args !! 1%nat) as [A|]; [|discriminate]. cbn [mbind option_bind].
    destruct (getPointeeType (getType A)) as [Pointee|]; [|discriminate].
    cbn [mbind option_bind].
    destruct (match getAsTagDecl Pointee with Some RD => _ | None => None end)
      as [[name FieldType]|].
    - destruct (isLoc _); [|discriminate].
      destruct (getSValLoc _ _) eqn:HItems; intros [= <-]; eexists;
        (split; [reflexivity|]); (split; [try reflexivity|]);
        try (right; eexists; cbn; try reflexivity).
      all: by destruct (getLValueField "items" (getSVal st A)).
    - intros [= <-]. eexists. split; [reflexivity|]. split; [reflexivity|]. by left. }
  destruct Hst1 as (st1 & -> & Hd1 & Hroots).
  destruct (evalPop_spec (contextAt C st1)) as (st2 & Hpop & Hd2 & Hr2 & _).
  { cbn [getState contextAt]. rewrite Hd1. lia. }
  cbn [getState contextAt] in Hd2, Hr2. rewrite Hd1 in Hd2, Hr2.
  replace (GCDepth st + 1 - 1) with (GCDepth st) in Hd2, Hr2 by lia.
  rewrite Hi0 in Hr2.
  exists st1, st2. split; [reflexivity|]. split; [exact Hd1|]. split; [exact Hpop|].
  split; [exact Hd2|].
  intros R Hne. destruct Hroots as [E | (IR & E)]; [by rewrite E in Hne|].
  rewrite E in Hne. destruct (decide (R = IR)) as [->|HR];
    [|by rewrite lookup_insert_ne in Hne].
  assert (H1 : GCRootMap st1 !! IR = Some (RootState.getRootArray (GCDepth st + 1)))
    by (by rewrite E, lookup_insert_eq).
  split; [exact H1|]. rewrite Hr2. unfold registeredAt. rewrite H1.
  unfold RootState.shouldPopAtDepth. cbn.
  destruct (Z.eqb_spec (GCDepth st) (GCDepth st + 1)); [lia | reflexivity].
Qed.

Module ArraylistExample.
Import Fixtures.

(** [jl_gc_push_arraylist(ct, &list)] with [list] a local [arraylist_t]. *)
Definition arraylist_p : QualType := PointerType (TagType "arraylist_t").
Definition arraylist : MemRegion :=
  VarRegion (mkVarDecl "list" (TagType "arraylist_t") [] false false).
Definition pushed : list Expr := [OtherExpr 111 (PointerType void_t); OtherExpr 112 arraylist_p].
Definition call : Expr :=
  callExpr 110 void_t (func "jl_gc_push_arraylist" [] []) pushed.
Definition unframed : CheckerContext :=
  mkContext (stateOf 0 ∅ ∅ {[ 112%positive := loc_MemRegionVal arraylist ]})
    (mkFrame (Some here) None) []
    (conjureSymbolVal (context PopExample.unframed))
    (getCalleeDecl (context PopExample.unframed))
    (λ RD, if StringRef.eqb RD "arraylist_t"
           then [("len", int_t); ("items", PointerType (PointerType void_t))]
           else []).
Definition items : MemRegion := SymbolicRegion (SymbolConjured 110 1).

End ArraylistExample.

Lemma push_arraylist_root_outlives_pop_witness :
  ∃ st1 st2,
    evalPushArraylist ArraylistExample.unframed ArraylistExample.call
      ArraylistExample.pushed = Some (mkOutcome (Some st1) [])
    ∧ evalPop (contextAt ArraylistExample.unframed st1) = mkOutcome (Some st2) []
    ∧ GCDepth st2 = 0
    ∧ GCRootMap st2 !! Some ArraylistExample.items = Some (RootState.getRootArray 1).
Proof.
  assert (Hsome : bool_decide
                    (is_Some (evalPushArraylist ArraylistExample.unframed
                                ArraylistExample.call ArraylistExample.pushed)) = true)
    by (vm_compute; reflexivity).
  apply bool_decide_eq_true in Hsome as [out Hrun].
  destruct (push_arraylist_root_outlives_pop ArraylistExample.unframed
              ArraylistExample.call ArraylistExample.pushed out)
    as (st1 & st2 & -> & _ & Hpop & Hd & Hroots); [cbn; lia | exact Hrun |].
  exists st1, st2. split; [exact Hrun|]. split; [exact Hpop|]. split; [exact Hd|].
  apply Hroots.
  assert (H1 : bool_decide (GCRootMap st1 !! Some ArraylistExample.items
                            = GCRootMap (getState ArraylistExample.unframed)
                              !! Some ArraylistExample.items) = false).
  { assert (E : Some (mkOutcome (Some st1) [])
                = evalPushArraylist ArraylistExample.unframed ArraylistExample.call
                    ArraylistExample.pushed) by (symmetry; exact Hrun).
    change st1 with (default st1 (Some (mkOutcome (Some st1) []) ≫= transition)).
    rewrite E. vm_compute. reflexivity. }
  by apply bool_decide_eq_false in H1.
Defined.

(** *** The state filed for the result of a call *)

Lemma propagatedRoot_rooted_or_default (C : CheckerContext) (State : ProgramState)
    (Call : CallEvent) (params : list VarDecl) :
  ∀ i NewVState,
    propagatedRoot C State Call params i NewVState = NewVState
    ∨ ValueState.isRooted (propagatedRoot C State Call params i NewVState) = true.
Proof.
  induction params as [|P rest IH]; intros i NewVState; [by left|].
  cbn [propagatedRoot]. destruct (declHasAnnotation P "julia_propagates_root"); [|apply IH].
  destruct (getValStateForRegion State _) as [vs|] eqn:Hvs; [|by left].
  right. by eapply getValStateForRegion_isRooted.
Qed.

(** X16. The state [processAllocationOfResult] files for the result of a
    call is the state the result symbol had (Allocated if it had none), or a
    Rooted one: an annotation, the boxing rule or a propagated root only
    ever root the result. Every other value keeps its state, and nothing
    changes when the result type is not tracked or the call has no origin
    expression. *)
Theorem result_is_rooted_or_as_before (Call : CallEvent) (C : CheckerContext)
    (State : ProgramState) :
  let Sym := resultSymbol Call C in
  let State' := fst (processAllocationOfResult Call C State) in
  (∀ Other, Other ≠ Sym → GCValueMap State' !! Other = GCValueMap State !! Other)
  ∧ if snd (processAllocationOfResult Call C State)
    then ∃ vs, GCValueMap State' !! Sym = Some vs
               ∧ (vs = default ValueState.getAllocated (GCValueMap State !! Sym)
                  ∨ ValueState.isRooted vs = true)
    else State' = State.
Proof.
  intros Sym State'. split.
  { intros Other. apply processAllocationOfResult_other. }
  subst Sym State'. unfold processAllocationOfResult, resultSymbol.
  destruct (negb (isGCTrackedType (getResultType Call))); [reflexivity|].
  destruct (getOriginExpr Call) as [Origin|]; [|reflexivity].
  set (Ret := getAsSymbol (getReturnValue (getState C) Call) false).
  assert (Hres : ∀ S0 Sym, GCValueMap S0 = GCValueMap State →
            resultState C S0 Call Sym
            = default ValueState.getAllocated (GCValueMap State !! Sym)
            ∨ ValueState.isRooted (resultState C S0 Call Sym) = true).
  { intros S0 Sym HS0. unfold resultState. rewrite HS0.
    destruct (getDecl Call ≫= d_function) as [fd|]; [|by left].
    destruct (declHasAnnotation fd "julia_globally_rooted"); [by right|].
    destruct (isBoxFunction _).
    - destruct (asConcreteInt _); [|by left].
      destruct (boxGloballyRooted _ _); [by right | by left].
    - apply propagatedRoot_rooted_or_default. }
  destruct Ret as [RetSym|];
    destruct (isGloballyRootedType (getResultType Call)); cbn [fst snd];
    eexists; (split; [cbn; by rewrite lookup_insert_eq|]);
    first [ by right | by apply Hres ].
Qed.

Lemma result_is_rooted_or_as_before_witness :
  ∃ vs,
    BoxExample.boxed BoxExample.jl_box_int64 5000 = Some vs
    ∧ (vs = ValueState.getAllocated ∨ ValueState.isRooted vs = true).
Proof.
  exact (proj2 (result_is_rooted_or_as_before (BoxExample.box BoxExample.jl_box_int64)
                  (Fixtures.context (BoxExample.literal 5000))
                  (BoxExample.literal 5000))).
Defined.

(** *** Members of registered roots *)

(** X17. A member expression of tracked type whose region is a registered
    root, with a symbol [NewSym] for its value that is not Rooted at a
    smaller depth already. The value is filed as Rooted by the region at the
    depth of the root, in a transition built from the state the callback
    started in: a binding [getSymbolForResult] made for a fresh symbol is
    not part of it. The JL_GC_POP that pops the root sets the value back to
    Allocated. *)
Theorem member_of_root_released_by_pop (ME Base : DExpr) (C : CheckerContext)
    (Region : MemRegion) (RS : RootState.t) (State1 : ProgramState)
    (NewSym : SymExpr) :
  let st := getState C in
  let ValS := ValueState.getRooted (Some Region) (RootState.RootedAtDepth RS) in
  let st1 := set_GCValueMap (Some NewSym) ValS st in
  getAsRegion (valueOfExpr st ME) = Some Region →
  isGCTrackedExpr ME = true →
  GCRootMap st !! Some Region = Some RS →
  getSymbolForResult ME true st C = (State1, Some NewSym) →
  (∀ e, GCValueMap st !! Some NewSym = Some e →
        ValueState.isRooted e
        && (ValueState.RootDepth e <? RootState.RootedAtDepth RS) = false) →
  checkPostStmt_MemberExpr ME Base C = mkOutcome (Some st1) []
  ∧ Store st1 = Store st
  ∧ (GCDepth st ≠ 0 →
     RootState.RootedAtDepth RS = to_int (GCDepth st - 1) →
     ∃ st2, evalPop (contextAt C st1) = mkOutcome (Some st2) []
            ∧ GCRootMap st2 !! Some Region = None
            ∧ GCValueMap st2 !! Some NewSym = Some ValueState.getAllocated).
Proof.
  intros st ValS st1 Hregion Htracked Hroot Hsym Hexisting.
  pose proof (getSymbolForResult_frame ME true st C) as Hframe.
  rewrite Hsym in Hframe. cbn [fst] in Hframe. destruct Hframe as (_ & HV & _).
  split; [|split; [reflexivity|]].
  - unfold checkPostStmt_MemberExpr. fold st. rewrite Hregion, Htracked, Hroot, Hsym.
    unfold rootUnder. rewrite HV.
    destruct (GCValueMap st !! Some NewSym) as [e|] eqn:He; [|reflexivity].
    change (ValueState.RootDepth (ValueState.getRooted _ _))
      with (RootState.RootedAtDepth RS).
    by rewrite (Hexisting e eq_refl).
  - intros Hd Hdepth.
    destruct (evalPop_spec (contextAt C st1)) as (st2 & Hpop & _ & Hr2 & Hv2 & _);
      [exact Hd|].
    cbn [getState contextAt] in Hr2, Hv2.
    change (GCDepth st1) with (GCDepth st) in Hr2, Hv2.
    change (GCRootMap st1) with (GCRootMap st) in Hr2, Hv2.
    assert (Hreg : registeredAt (GCRootMap st) (to_int (GCDepth st - 1)) (Some Region)
                   = true).
    { unfold registeredAt. rewrite Hroot. unfold RootState.shouldPopAtDepth.
      rewrite Hdepth. apply Z.eqb_refl. }
    exists st2. split; [exact Hpop|]. split.
    + by rewrite Hr2, Hreg.
    + rewrite Hv2. subst st1. cbn. rewrite lookup_insert_eq. cbn.
      unfold afterPop. cbn. by rewrite Hreg.
Qed.

Module MemberExample.
Import Fixtures.

(** [s.v] with [s] a local struct whose field [v] was pushed as a root at
    depth 0. *)
Definition s : MemRegion := VarRegion (mkVarDecl "s" (TagType "pair_t") [] false false).
Definition field : MemRegion := FieldRegion "v" s.
Definition base : DExpr := PlainExpr (OtherExpr 120 (TagType "pair_t")).
Definition member : DExpr := MemberExpr 121 jl_value_p base.
Definition framed : CheckerContext :=
  context
    (stateOf 1 ∅ {[ Some field := RootState.getRoot 0 ]}
       {[ 121%positive := loc_MemRegionVal field ]}).

End MemberExample.

Lemma member_of_root_released_by_pop_witness :
  ∃ st1 st2,
    checkPostStmt_MemberExpr MemberExample.member MemberExample.base
      MemberExample.framed = mkOutcome (Some st1) []
    ∧ GCValueMap st1 !! Some (SymbolConjured 121 1)
      = Some (ValueState.getRooted (Some MemberExample.field) 0)
    ∧ evalPop (contextAt MemberExample.framed st1) = mkOutcome (Some st2) []
    ∧ GCValueMap st2 !! Some (SymbolConjured 121 1) = Some ValueState.getAllocated.
Proof.
  destruct (member_of_root_released_by_pop MemberExample.member MemberExample.base
              MemberExample.framed MemberExample.field (RootState.getRoot 0)
              (fst (getSymbolForResult MemberExample.member true
                      (getState MemberExample.framed) MemberExample.framed))
              (SymbolConjured 121 1))
    as (Hrun & _ & Hpop); try reflexivity.
  { intros e H. vm_compute in H. discriminate H. }
  destruct Hpop as (st2 & Hpop & _ & Hval); [discriminate | reflexivity |].
  eexists. exists st2. split; [exact Hrun|]. split; [reflexivity|].
  split; [exact Hpop | exact Hval].
Defined.

(** *** What only evalCall and the function boundaries do *)

Lemma sameFrame_refl (s : ProgramState) : sameFrame s s.
Proof. done. Qed.

Lemma sameFrame_trans (s1 s2 s3 : ProgramState) :
  sameFrame s1 s2 → sameFrame s2 s3 → sameFrame s1 s3.
Proof. intros (? & ? & ?) (? & ? & ?). repeat split; congruence. Qed.

Lemma rootRegionIfGlobal_sameFrame (R : MemRegionRef) (State State' : ProgramState)
    (C : CheckerContext) (v : ValueState.t) :
  rootRegionIfGlobal R State C = Some (State', v) → sameFrame State State'.
Proof.
  unfold rootRegionIfGlobal. destruct R as [[VD| | |]|]; try discriminate.
  repeat case_match; try discriminate; by intros [= <- _].
Qed.

Lemma getSymbolForResult_sameFrame (Result : DExpr) (hasOldValS : bool)
    (State : ProgramState) (C : CheckerContext) :
  sameFrame State (fst (getSymbolForResult Result hasOldValS State C)).
Proof.
  unfold getSymbolForResult. repeat case_match; cbn [fst]; try done.
  all: by destruct (valueOfExpr State Result).
Qed.

Lemma inheritedState_sameFrame (Region : MemRegion) (State : ProgramState)
    (C : CheckerContext) :
  sameFrame State (fst (inheritedState Region State C)).
Proof.
  unfold inheritedState.
  repeat case_match; cbn [fst]; try done;
    by eapply rootRegionIfGlobal_sameFrame.
Qed.

Lemma deriveFromParent_sameFrame (Result : DExpr) (ResultTracked : bool)
    (OldSym NewSym : SymbolRef) (OldValS NewValS : option ValueState.t)
    (State State' : ProgramState) :
  transition (deriveFromParent Result ResultTracked OldSym NewSym OldValS NewValS State)
  = Some State' →
  sameFrame State State'.
Proof.
  unfold deriveFromParent. repeat case_match; try discriminate; by intros [= <-].
Qed.

Lemma checkDerivingExpr_sameFrame (Result Parent : DExpr) (C : CheckerContext)
    (State' : ProgramState) :
  transition (checkDerivingExpr Result Parent C) = Some State' →
  sameFrame (getState C) State'.
Proof.
  unfold checkDerivingExpr.
  destruct (isGloballyRootedType (typeOf Result)).
  { pose proof (getSymbolForResult_sameFrame Result false (getState C) C) as H1.
    destruct (getSymbolForResult Result false (getState C) C) as [State1 [NewSym|]];
      [|discriminate].
    destruct (match GCValueMap State1 !! Some NewSym with Some _ => _ | None => _ end);
      [discriminate|].
    by intros [= <-]. }
  set (Conjured := if isUnknown _ then _ else _).
  assert (HC : ∀ State V, Conjured = Some (State, V) → sameFrame (getState C) State).
  { subst Conjured. intros State V. repeat case_match; by intros [= <- _]. }
  destruct Conjured as [[State ResultVal]|]; [|discriminate].
  specialize (HC State ResultVal eq_refl).
  destruct (negb (isLoc ResultVal)); [discriminate|]. cbv zeta.
  set (b := bool_decide _).
  pose proof (getSymbolForResult_sameFrame Result b State C) as H1.
  destruct (getSymbolForResult Result b State C) as [State1 [NewSym|]]; [|discriminate].
  cbn [fst] in H1.
  destruct (getAsRegion (valueOfExpr (getState C) (stripParent Parent))) as [Region|].
  - pose proof (inheritedState_sameFrame Region State1 C) as H2.
    destruct (inheritedState Region State1 C) as [State2 [Updated|]]; cbn [fst] in H2.
    + destruct (resultTracked Result (stripParent Parent)).
      * intros [= <-]. eapply sameFrame_trans; [exact HC|].
        eapply sameFrame_trans; [exact H1 | exact H2].
      * intros H3. apply deriveFromParent_sameFrame in H3.
        eapply sameFrame_trans; [exact HC|].
        eapply sameFrame_trans; [exact H1|].
        eapply sameFrame_trans; [exact H2 | exact H3].
    + intros H3. apply deriveFromParent_sameFrame in H3.
      eapply sameFrame_trans; [exact HC|].
      eapply sameFrame_trans; [exact H1|].
      eapply sameFrame_trans; [exact H2 | exact H3].
  - intros H3. apply deriveFromParent_sameFrame in H3.
    eapply sameFrame_trans; [exact HC|].
    eapply sameFrame_trans; [exact H1 | exact H3].
Qed.

Lemma rootUnder_sameFrame (ValS : ValueState.t) (State State1 : ProgramState)
    (NewSym : SymExpr) (State' : ProgramState) :
  transition (rootUnder ValS State State1 NewSym) = Some State' → sameFrame State1 State'.
Proof. unfold rootUnder. case_match; [discriminate|]. by intros [= <-]. Qed.

(** X18. The post-statement callbacks (cast, subscript, member access,
    dereference) leave the depth of the GC frames and the markers
    GCDisabledAt and SafepointDisabledAt as they were in every transition
    they add, whichever of their branches is taken. *)
Theorem post_statement_keeps_frame (S : DExpr) (C : CheckerContext)
    (State' : ProgramState) :
  transition (checkPostStmt S C) = Some State' → sameFrame (getState C) State'.
Proof.
  destruct S as [e|id ty sub|id ty opc sub|id ty LHS|id ty base|id ty written sub];
    cbn [checkPostStmt]; try discriminate.
  - destruct opc; try discriminate. apply checkDerivingExpr_sameFrame.
  - unfold checkPostStmt_ArraySubscriptExpr.
    repeat case_match; try apply checkDerivingExpr_sameFrame; try discriminate.
    intros H'. apply rootUnder_sameFrame in H'.
    match goal with Hs : getSymbolForResult ?R ?b ?s ?c = (?s1, _) |- _ =>
      pose proof (getSymbolForResult_sameFrame R b s c) as Hframe;
      rewrite Hs in Hframe end.
    eapply sameFrame_trans; [exact Hframe | exact H'].
  - unfold checkPostStmt_MemberExpr.
    repeat case_match; try apply checkDerivingExpr_sameFrame; try discriminate.
    apply rootUnder_sameFrame.
  - unfold checkPostStmt_CStyleCastExpr. repeat case_match; try discriminate.
    by intros [= <-].
Qed.

Lemma post_statement_keeps_frame_witness :
  ∃ State',
    transition (checkPostStmt GlobalExample.member GlobalExample.freed) = Some State'
    ∧ sameFrame (getState GlobalExample.freed) State'.
Proof.
  assert (Hsome : bool_decide
                    (is_Some (transition (checkPostStmt GlobalExample.member
                                            GlobalExample.freed))) = true)
    by (vm_compute; reflexivity).
  apply bool_decide_eq_true in Hsome as [State' Hrun].
  exists State'. split; [exact Hrun|].
  exact (post_statement_keeps_frame _ _ _ Hrun).
Defined.

Lemma checkPostCall_sameFrame (Call : CallEvent) (C : CheckerContext) (out : Outcome)
    (State' : ProgramState) :
  checkPostCall Call C = Some out → transition out = Some State' →
  sameFrame (getState C) State'.
Proof.
  unfold checkPostCall.
  assert (H1 : sameFrame (getState C) (fst (processArgumentRooting Call C (getState C)))).
  { unfold processArgumentRooting. repeat case_match; done. }
  destruct (processArgumentRooting Call C (getState C)) as [State1 c1]. cbn [fst] in H1.
  assert (H2 : ∀ State2 c2, processPotentialSafepoint Call C State1 = Some (State2, c2) →
                            sameFrame State1 State2).
  { intros State2 c2. unfold processPotentialSafepoint.
    destruct (negb (isSafepoint Call)); [by intros [= <- _]|].
    destruct (negb (gcEnabledHere (getState C))); [by intros [= <- _]|].
    destruct (speciallyRootedSymbol Call C State1) as [Special|]; [|discriminate].
    cbn [mbind option_bind].
    destruct (freeUnrooted_spec Special (returnSymbol Call C) (GCValueMap State1) State1)
      as (values & c & -> & _).
    by intros [= <- _]. }
  destruct (processPotentialSafepoint Call C State1) as [[State2 c2]|]; [|discriminate].
  specialize (H2 State2 c2 eq_refl). cbn [mbind option_bind].
  assert (H3 : sameFrame State2 (fst (processAllocationOfResult Call C State2))).
  { unfold processAllocationOfResult.
    destruct (negb (isGCTrackedType (getResultType Call))); [done|].
    destruct (getOriginExpr Call) as [Origin|]; [|done].
    destruct (getAsSymbol (getReturnValue (getState C) Call) false);
      by destruct (isGloballyRootedType (getResultType Call)). }
  destruct (processAllocationOfResult Call C State2) as [State3 c3]. cbn [fst] in H3.
  intros [= <-]. cbn [transition]. destruct (c1 || c2 || c3); [|discriminate].
  intros [= <-]. eapply sameFrame_trans; [exact H1|].
  eapply sameFrame_trans; [exact H2 | exact H3].
Qed.

(** X19. Only evalCall changes the depth of the GC frames, and only evalCall
    and the begin and the end of a function change the marker GCDisabledAt:
    every transition of the post-call handler, of a bind and of a location
    access leaves the depth and both markers as they were, and a transition
    of the pre-call check is the state it started in with
    SafepointDisabledAt set to (unsigned)-1. *)
Theorem frame_moves_in_evalCall_only (C : CheckerContext) :
  let st := getState C in
  (∀ Call out st', checkPostCall Call C = Some out → transition out = Some st' →
                   sameFrame st st')
  ∧ (∀ LVal RVal st', transition (checkBind LVal RVal C) = Some st' → sameFrame st st')
  ∧ (∀ SLoc IsLoad out st',
       checkLocation SLoc IsLoad C = Some out → transition out = Some st' →
       sameFrame st st')
  ∧ (∀ Call out st',
       checkPreCall Call C = Some out → transition out = Some st' →
       st' = set_SafepointDisabledAt unsigned_m1 st).
Proof.
  intros st. split; [|split; [|split]].
  - intros Call out st'. apply checkPostCall_sameFrame.
  - intros LVal RVal st'. unfold checkBind. fold st.
    destruct (getAsRegion LVal) as [R0|]; [|discriminate].
    destruct (getAsSymbol RVal false) as [Sym|]; [|discriminate].
    destruct (GCRootMap st !! Some (boundRegion R0)) as [RS|].
    + destruct (_ && _); [discriminate|].
      destruct (GCValueMap st !! Some Sym) as [RValState|].
      * cbn [transition]. destruct (negb _ || _); [|discriminate]. by intros [= <-].
      * destruct (rootRegionIfGlobal (getOriginRegion Sym) st C) as [[State1 v]|] eqn:Hroot;
          [|discriminate].
        intros [= <-]. by eapply rootRegionIfGlobal_sameFrame.
    + destruct (rootRegionIfGlobal (Some (getBaseRegion (boundRegion R0))) st C)
        as [[State1 v]|] eqn:Hroot.
      * apply rootRegionIfGlobal_sameFrame in Hroot.
        repeat case_match; try discriminate; intros [= <-]; exact Hroot.
      * repeat case_match; try discriminate; by intros [= <-].
  - intros SLoc IsLoad out st'. unfold checkLocation. fold st.
    destruct (loadFromRoot SLoc IsLoad st) as [[State DidChange]|] eqn:Hload;
      [|discriminate].
    cbn [mbind option_bind]. intros [= <-].
    assert (H1 : sameFrame st State).
    { revert Hload. unfold loadFromRoot.
      repeat case_match; try discriminate; by intros [= <- _]. }
    unfold accessLocation.
    destruct (rootRegionIfGlobal (getAsRegion SLoc) State C) as [[State1 v]|] eqn:Hroot.
    + cbn [transition]. intros [= <-].
      eapply sameFrame_trans; [exact H1|]. by eapply rootRegionIfGlobal_sameFrame.
    + repeat case_match; cbn [transition]; intros [= <-]; exact H1.
  - intros Call out st'. unfold checkPreCall. fold st.
    destruct (negb (gcEnabledHere st)); [by intros [= <-]|].
    destruct (unlockSafepoints Call C) as [[State Added]|] eqn:Hu; [|discriminate].
    cbn [mbind option_bind].
    assert (HA : ∀ s, Added = Some s → s = set_SafepointDisabledAt unsigned_m1 st).
    { revert Hu. unfold unlockSafepoints. fold st.
      repeat case_match; try discriminate; intros [= <- <-] s; try discriminate.
      by intros [= <-]. }
    repeat case_match; intros [= <-]; cbn [transition]; apply HA.
Qed.

Lemma frame_moves_in_evalCall_only_witness :
  let locked := contextAt LockExample.free
                  (set_SafepointDisabledAt 1 (getState LockExample.free)) in
  ∃ st', (checkPreCall LockExample.unlock locked ≫= transition) = Some st'
         ∧ st' = set_SafepointDisabledAt unsigned_m1 (getState locked).
Proof.
  intros locked.
  assert (Hsome : bool_decide
                    (is_Some (checkPreCall LockExample.unlock locked ≫= transition))
                  = true) by (vm_compute; reflexivity).
  apply bool_decide_eq_true in Hsome as [st' Hrun].
  exists st'. split; [exact Hrun|].
  destruct (checkPreCall LockExample.unlock locked) as [out|] eqn:Hcall;
    [|discriminate Hrun].
  destruct (frame_moves_in_evalCall_only locked) as (_ & _ & _ & Hpre).
  exact (Hpre LockExample.unlock out st' Hcall Hrun).
Defined.

(** *** A second safepoint *)

Lemma freeUnrooted_unchanged (Special RetSym : SymbolRef)
    (AMap : gmap SymbolRef ValueState.t) (State : ProgramState) :
  (∀ Sym vs, AMap !! Sym = Some vs → freedAtSafepoint Special RetSym Sym vs = false) →
  freeUnrooted Special RetSym AMap State = (State, false).
Proof.
  unfold freeUnrooted.
  apply (map_fold_weak_ind
    (λ (r : ProgramState * bool) m,
       (∀ Sym vs, m !! Sym = Some vs → freedAtSafepoint Special RetSym Sym vs = false) →
       r = (State, false))).
  - done.
  - intros i x m r Hi IH Hall.
    assert (Hr : r = (State, false)).
    { apply IH. intros Sym vs Hvs. apply Hall.
      rewrite lookup_insert_ne; [exact Hvs|]. intros <-. congruence. }
    specialize (Hall i x (lookup_insert_eq _ _ _)). unfold freedAtSafepoint in Hall.
    destruct (ValueState.isJustAllocated x); [|exact Hr].
    destruct (bool_decide (Special = i)); [exact Hr|].
    destruct (bool_decide (RetSym = i)); [exact Hr|]. discriminate Hall.
Qed.

(** The walk to the tracked symbol reads the value map for which symbols
    have a state only. *)
Lemma walkRegion_hasNoState_domain (State State' : ProgramState) (Region : MemRegion) :
  (∀ Sym, is_Some (GCValueMap State' !! Sym) ↔ is_Some (GCValueMap State !! Sym)) →
  walkRegion hasNoState State' Region = walkRegion hasNoState State Region
with walkSymbol_hasNoState_domain (State State' : ProgramState) (Sym : SymExpr) :
  (∀ Sym, is_Some (GCValueMap State' !! Sym) ↔ is_Some (GCValueMap State !! Sym)) →
  walkSymbol hasNoState State' Sym = walkSymbol hasNoState State Sym.
Proof.
  - intros Hdom. destruct Region as [vd|Sym|field sup|index sup]; cbn.
    + reflexivity.
    + by apply walkSymbol_hasNoState_domain.
    + by apply walkRegion_hasNoState_domain.
    + by apply walkRegion_hasNoState_domain.
  - intros Hdom. destruct Sym as [id n|r|p r]; cbn; unfold hasNoState;
      rewrite (bool_decide_ext _ _ (Hdom _)); destruct (negb _); try reflexivity;
      by apply walkRegion_hasNoState_domain.
Qed.

Lemma findSpeciallyRooted_domain (C : CheckerContext) (State State' : ProgramState)
    (Call : CallEvent) (params : list VarDecl) :
  Store State' = Store State →
  (∀ Sym, is_Some (GCValueMap State' !! Sym) ↔ is_Some (GCValueMap State !! Sym)) →
  ∀ i cur, findSpeciallyRooted C State' Call params i cur
           = findSpeciallyRooted C State Call params i cur.
Proof.
  intros HS Hdom. induction params as [|P rest IH]; intros i cur; [reflexivity|].
  cbn [findSpeciallyRooted]. repeat case_match; try done.
  - rewrite IH. f_equal. f_equal.
    destruct (getArgSVal (getState C) Call i); cbn; try done. by rewrite HS.
  - f_equal. destruct (getAsRegion _); [|done]. cbn.
    by apply walkRegion_hasNoState_domain.
Qed.

(** X20. The safepoint step is idempotent: applied to the state it has
    produced, for the same call in the same context, it yields that state
    again and reports no change. What a safepoint frees is freed once. *)
Theorem processPotentialSafepoint_idempotent (Call : CallEvent) (C : CheckerContext)
    (State State' : ProgramState) (DidChange : bool) :
  processPotentialSafepoint Call C State = Some (State', DidChange) →
  processPotentialSafepoint Call C State' = Some (State', false).
Proof.
  unfold processPotentialSafepoint.
  destruct (negb (isSafepoint Call)); [by intros [= <- _]|].
  destruct (negb (gcEnabledHere (getState C))); [by intros [= <- _]|].
  destruct (speciallyRootedSymbol Call C State) as [Special|] eqn:HSp; [|discriminate].
  cbn [mbind option_bind].
  destruct (freeUnrooted_spec Special (returnSymbol Call C) (GCValueMap State) State)
    as (values & c & -> & Hvalues).
  intros [= <- _].
  assert (Hdom : ∀ Sym, is_Some (values !! Sym) ↔ is_Some (GCValueMap State !! Sym)).
  { intros Sym. rewrite Hvalues. destruct (GCValueMap State !! Sym) as [vs|]; [|done].
    destruct (freedAtSafepoint _ _ _ _); split; by eauto. }
  assert (HSp' : speciallyRootedSymbol Call C (with_GCValueMap values State)
                 = Some Special).
  { rewrite <- HSp. unfold speciallyRootedSymbol.
    destruct (getDecl Call ≫= d_function) as [fd|]; [|done].
    by apply findSpeciallyRooted_domain. }
  rewrite HSp'. cbn [mbind option_bind]. f_equal.
  apply freeUnrooted_unchanged. cbn [GCValueMap with_GCValueMap].
  intros Sym vs'. rewrite Hvalues.
  destruct (GCValueMap State !! Sym) as [vs|] eqn:Hvs.
  - destruct (freedAtSafepoint Special (returnSymbol Call C) Sym vs) eqn:Hf.
    + by intros [= <-].
    + by intros [= <-].
  - discriminate.
Qed.

Lemma processPotentialSafepoint_idempotent_witness :
  ∃ State',
    processPotentialSafepoint SafepointExample.invoke
      (Fixtures.context SafepointExample.before) SafepointExample.before
    = Some (State', true)
    ∧ processPotentialSafepoint SafepointExample.invoke
        (Fixtures.context SafepointExample.before) State'
      = Some (State', false).
Proof.
  assert (Hsome : bool_decide
                    (is_Some (processPotentialSafepoint SafepointExample.invoke
                                (Fixtures.context SafepointExample.before)
                                SafepointExample.before)) = true)
    by (vm_compute; reflexivity).
  apply bool_decide_eq_true in Hsome as [[State' c] Hrun].
  assert (Hc : c = true).
  { change c with (snd (State', c)).
    change (snd (State', c)) with (default false (snd <$> Some (State', c))).
    rewrite <- Hrun. vm_compute. reflexivity. }
  subst c. exists State'. split; [exact Hrun|].
  exact (processPotentialSafepoint_idempotent _ _ _ _ _ Hrun).
Defined.

(** *** The callee seen from the call and from its own entry *)

(** X21. The classification of a callee at the call and at its own entry
    agree. A call [isSafepoint] accepts, resolved to a function declaration,
    is a call of a function that is not a builtin, not trivial, and that
    [isFDAnnotatedNotSafepoint] rejects; so when that function is analysed
    as the top frame, [checkBeginFunction] adds a transition in which
    safepoints are disabled only for the annotation
    "julia_notsafepoint_leave", and the state of a parameter
    ([getForArgument]) is Rooted(null, -1) unless the parameter is annotated
    "julia_maybe_unrooted". *)
Theorem safepoint_callee_is_safepoint_function (Call : CallEvent) (fd : FunctionDecl) :
  isSafepoint Call = true →
  resolvedDecl Call ≫= d_function = Some fd →
  isFDAnnotatedNotSafepoint fd = false
  ∧ fd_builtinID fd = 0%N ∧ fd_isTrivial fd = false
  ∧ (∀ pvd, ValueState.getForArgument fd pvd (negb (isFDAnnotatedNotSafepoint fd))
            = if declHasAnnotation pvd "julia_maybe_unrooted"
              then ValueState.getAllocated else ValueState.getRooted None (-1))
  ∧ (∀ C out,
       sf_decl (cc_frame C) = Some fd → inTopFrame C = true →
       checkBeginFunction C = Some out →
       ∃ st', transition out = Some st'
              ∧ SafepointDisabledAt st'
                = if declHasAnnotation fd "julia_notsafepoint_leave"
                  then 1 else unsigned_m1).
Proof.
  intros Hsafe Hfd. unfold isSafepoint in Hsafe.
  destruct (isInSystemHeader Call); [discriminate|].
  destruct (existsb _ _); [discriminate|].
  rewrite Hfd in Hsafe.
  destruct (negb (fd_builtinID fd =? 0)%N || fd_isTrivial fd) eqn:Hb; [discriminate|].
  apply orb_false_iff in Hb as [Hb Htrivial]. apply negb_false_iff, N.eqb_eq in Hb.
  destruct (match fd_name fd with Some n => _ | None => false end); [discriminate|].
  apply negb_true_iff in Hsafe.
  split; [exact Hsafe|]. split; [exact Hb|]. split; [exact Htrivial|]. split.
  - intros pvd. unfold ValueState.getForArgument. rewrite Hsafe. cbn [negb orb].
    by destruct (declHasAnnotation pvd "julia_maybe_unrooted").
  - intros C out HC Htop Hbegin.
    destruct (checkBeginFunction_markers C fd out HC Hbegin) as (_ & _ & Hs & Hsome).
    destruct (Hsome Htop) as [st' Hst']. exists st'. split; [exact Hst'|].
    rewrite Hst' in Hs. cbn [default from_option id] in Hs. rewrite Hs, Htop, Hsafe.
    rewrite Z.eqb_refl. cbn [andb orb]. by rewrite getStackFrameHeight_top.
Qed.

Lemma safepoint_callee_is_safepoint_function_witness :
  ∃ out st',
    checkBeginFunction (Fixtures.contextIn Fixtures.jl_apply PopExample.unframed)
    = Some out
    ∧ transition out = Some st'
    ∧ SafepointDisabledAt st' = unsigned_m1.
Proof.
  destruct (safepoint_callee_is_safepoint_function PreCallExample.callAllocated
              Fixtures.jl_apply eq_refl eq_refl) as (_ & _ & _ & _ & Hentry).
  assert (Hsome : bool_decide
                    (is_Some (checkBeginFunction
                                (Fixtures.contextIn Fixtures.jl_apply PopExample.unframed)))
                  = true) by (vm_compute; reflexivity).
  apply bool_decide_eq_true in Hsome as [out Hrun].
  destruct (Hentry (Fixtures.contextIn Fixtures.jl_apply PopExample.unframed) out
              eq_refl eq_refl Hrun) as (st' & Hst' & Hs).
  exists out, st'. split; [exact Hrun|]. split; [exact Hst' | exact Hs].
Defined.
